(** * donetick-mcp-server: the client request pipeline

    A shallow embedding of [src/donetick_mcp/client.py]: the token bucket
    rate limiter ([TokenBucket]), the retrying request executor
    ([DonetickClient._request]), the operations built on it ([list_chores],
    [get_chore], [create_chore], [update_chore], [delete_chore],
    [complete_chore], [get_circle_members]) and the construction of a
    client; with them the request models of [src/donetick_mcp/models.py]
    and the configuration of [src/donetick_mcp/config.py].

    Modelling conventions.
    - Python [float] values are exact rationals ([Q]): rounding is not
      modelled, so a computed level or delay is the code's up to rounding.
      In particular the check after the computed wait in
      [TokenBucket.acquire] finds the level at [n] here, where the code may
      find it one rounding error short and suspend once more for the
      remainder: the theorems on [acquire] itself do not say how many
      suspensions a call takes before it returns.  The exceptions float
      arithmetic can raise are modelled:
      [OverflowError] when an [int] too large for a double is converted
      (mixed int/float arithmetic), [ZeroDivisionError] on division by a zero
      float, [ValueError] from [float(str)].
    - Python numbers that may be an [int] or a [float] at run time (the
      bucket's [tokens] field: [min(self.capacity, ...)] returns the [int]
      capacity when the bucket is full) are tagged values ([pynum]).
    - The coroutine runs against a virtual clock: [time.time()] reads it,
      [asyncio.sleep(d)] advances it by [d] (for [d > 0]), an HTTP call
      advances it by the latency the environment gives.  One logical request
      is followed at a time; what other tasks do is not part of the model.
    - The environment (transport results, latencies, the outputs of
      [random.random()]) is a record of oracles indexed by a counter.
    - Unbounded waits ([while True] in [TokenBucket.acquire]) take fuel; a
      run that spends its fuel, or that sleeps for an infinite delay, ends
      in the outcome [Pending].  Logging calls are not modelled.
    - Library calls behave as in httpx 0.28 ([raise_for_status] raises for
      every status outside 2xx, header names compare without case) and
      CPython 3.13 ([asyncio.sleep], [float], [int], [str] of an [int] with
      the limit of 4300 digits, [random.uniform]); strings are ASCII.
    - pydantic's validation of a response against [models.Chore] or
      [models.CircleMember] is a parameter of the operations; the
      constraints of the request models are modelled on values of the
      annotated types.  The process environment is a function from names to
      values (after [load_dotenv]). *)

From Stdlib Require Import ZArith QArith Qminmax Qabs List String Ascii Bool Lia Lqa.
From Stdlib Require Import DecimalString DecimalZ.
Import ListNotations.

Local Open Scope Z_scope.

(* ===================================================================== *)
(** * Exceptions and results *)
(* ===================================================================== *)

(** Parsed JSON, as [response.json()] returns it. *)
#[warnings="-register-all"]
Inductive Json : Type :=
| JNull
| JBool (b : bool)
| JInt (z : Z)
| JFloat (q : Q)
| JStr (s : string)
| JList (items : list Json)
| JDict (items : list (string * Json)).

(** [httpx.Response], the part the client reads: the status code, the
    header list, the body text, and what [response.json()] gives ([None]
    when the body is not JSON and the call raises). *)
Record Response : Type := mkResponse {
  status_code : Z;
  headers : list (string * string);
  text : string;
  json : option Json
}.

(** The exceptions that can leave the client's functions.
    [RetriesExhausted n] is [Exception(f"Failed after {n} retries")];
    [TransportError] is any failure of [client.request] that is not an
    [httpx.TimeoutException]. *)
Inductive Exc : Type :=
| TimeoutException
| TransportError
| HTTPStatusError (response : Response)
| ValueError (arg : string)
| JSONDecodeError
| OverflowError
| ZeroDivisionError
| TypeError
| ValidationError
| RetriesExhausted (max_retries : Z).

(** The result of a pure Python expression that may raise. *)
Inductive result (A : Type) : Type :=
| Ok (a : A)
| Err (e : Exc).
Arguments Ok {A} a.
Arguments Err {A} e.

Definition rbind {A B : Type} (r : result A) (k : A -> result B) : result B :=
  match r with
  | Ok a => k a
  | Err e => Err e
  end.

(* ===================================================================== *)
(** * Python numbers *)
(* ===================================================================== *)

(** A number that is an [int] or a (finite) [float] at run time. *)
Inductive pynum : Type :=
| PyInt (z : Z)
| PyFloat (q : Q).

Definition num_val (x : pynum) : Q :=
  match x with
  | PyInt z => inject_Z z
  | PyFloat q => q
  end.

(** The least magnitude of an [int] that does not fit a double: it rounds
    (half to even) to [2^1024]. *)
Definition float_int_bound : Z := 2 ^ 1024 - 2 ^ 970.
Arguments float_int_bound : simpl never.

(** Conversion of an [int] operand of mixed arithmetic ([float(n)]):
    [OverflowError: int too large to convert to float]. *)
Definition float_of_int (z : Z) : result Q :=
  if Z.abs z <? float_int_bound then Ok (inject_Z z) else Err OverflowError.

Definition to_float (x : pynum) : result Q :=
  match x with
  | PyInt z => float_of_int z
  | PyFloat q => Ok q
  end.

(** [x + y], [x - y], [x * y]: [int] when both are, else [float] after
    converting the [int] operand. *)
Definition py_arith (fz : Z -> Z -> Z) (fq : Q -> Q -> Q) (x y : pynum) : result pynum :=
  match x, y with
  | PyInt a, PyInt b => Ok (PyInt (fz a b))
  | _, _ =>
      rbind (to_float x) (fun a =>
      rbind (to_float y) (fun b => Ok (PyFloat (fq a b))))
  end.

Definition py_add : pynum -> pynum -> result pynum := py_arith Z.add Qplus.
Definition py_sub : pynum -> pynum -> result pynum := py_arith Z.sub Qminus.
Definition py_mul : pynum -> pynum -> result pynum := py_arith Z.mul Qmult.

(** [x / y] with a [float] divisor: both operands are converted, then a zero
    divisor raises. *)
Definition py_truediv_float (x : pynum) (y : Q) : result Q :=
  rbind (to_float x) (fun a =>
  if Qeq_bool y 0 then Err ZeroDivisionError else Ok (a / y)%Q).

(** [x >= y]: comparisons between [int] and [float] are exact. *)
Definition py_ge (x y : pynum) : bool := Qle_bool (num_val y) (num_val x).

Definition py_lt (x y : pynum) : bool := negb (Qle_bool (num_val y) (num_val x)).

(** [min(x, y)]: the first argument unless the second is smaller. *)
Definition py_min (x y : pynum) : pynum := if py_lt y x then y else x.

(** The value of [float(str)]: a finite number, an infinity or NaN. *)
Inductive pyfloat : Type :=
| Finite (q : Q)
| Infinity (negative : bool)
| NaN.

(* ===================================================================== *)
(** * [float(str)] and header lookup *)
(* ===================================================================== *)

Definition char_code (c : ascii) : Z := Z.of_nat (nat_of_ascii c).

Definition is_digit (c : ascii) : bool :=
  (48 <=? char_code c) && (char_code c <=? 57).

(** Whitespace [float] strips: tab to carriage return, the separators
    0x1c-0x1f, and the space. *)
Definition is_space (c : ascii) : bool :=
  let n := char_code c in
  ((9 <=? n) && (n <=? 13)) || ((28 <=? n) && (n <=? 32)).

(** [str.lower()] on one ASCII character. *)
Definition lower_char (c : ascii) : ascii :=
  let n := char_code c in
  if (65 <=? n) && (n <=? 90) then ascii_of_nat (Z.to_nat (n + 32)) else c.

Definition lower (s : string) : string :=
  string_of_list_ascii (map lower_char (list_ascii_of_string s)).

Fixpoint lstrip (s : list ascii) : list ascii :=
  match s with
  | c :: rest => if is_space c then lstrip rest else s
  | [] => []
  end.

Definition strip (s : list ascii) : list ascii := rev (lstrip (rev (lstrip s))).

(** Underscores may stand between two digits only; they are removed before
    the number is read.  [prev] is the character before [s]. *)
Fixpoint drop_underscores (prev : option ascii) (s : list ascii) : option (list ascii) :=
  let after_digit := match prev with Some p => is_digit p | None => false end in
  match s with
  | [] => if match prev with Some "_"%char => true | _ => false end then None else Some []
  | "_"%char :: rest =>
      if after_digit then drop_underscores (Some "_"%char) rest else None
  | c :: rest =>
      if match prev with Some "_"%char => negb (is_digit c) | _ => false end then None
      else option_map (cons c) (drop_underscores (Some c) rest)
  end.

Fixpoint span_digits (s : list ascii) : list ascii * list ascii :=
  match s with
  | c :: rest =>
      if is_digit c then let (ds, r) := span_digits rest in (c :: ds, r) else ([], s)
  | [] => ([], [])
  end.

Definition digits_value (ds : list ascii) : Z :=
  fold_left (fun acc c => 10 * acc + (char_code c - 48)) ds 0.

Definition take_sign (s : list ascii) : bool * list ascii :=
  match s with
  | "-"%char :: rest => (true, rest)
  | "+"%char :: rest => (false, rest)
  | _ => (false, s)
  end.

(** [mantissa * 10^exponent] as a rational. *)
Definition decimal (mantissa exponent : Z) : Q :=
  if 0 <=? exponent then inject_Z (mantissa * 10 ^ exponent)
  else Qmake mantissa (Z.to_pos (10 ^ (- exponent))).

(** A decimal literal too large for a double reads as an infinity. *)
Definition float_of_decimal (negative : bool) (q : Q) : pyfloat :=
  if Qle_bool (inject_Z float_int_bound) q then Infinity negative
  else Finite (if negative then Qopp q else q).

(** The optional exponent part: [Some e] when [s] is empty ([e = 0]) or is
    [e|E [sign] digits] up to the end of the string. *)
Definition parse_exponent (s : list ascii) : option Z :=
  match s with
  | [] => Some 0
  | c :: rest =>
      if (lower_char c =? "e")%char then
        let (neg, r1) := take_sign rest in
        let (ds, r2) := span_digits r1 in
        match ds, r2 with
        | _ :: _, [] => Some (if neg then - digits_value ds else digits_value ds)
        | _, _ => None
        end
      else None
  end.

Definition parse_float (s : list ascii) : option pyfloat :=
  match drop_underscores None s with
  | None => None
  | Some s1 =>
      let (neg, body) := take_sign (strip s1) in
      let word := string_of_list_ascii (map lower_char body) in
      if (word =? "inf")%string || (word =? "infinity")%string then Some (Infinity neg)
      else if (word =? "nan")%string then Some NaN
      else
        let (int_part, r1) := span_digits body in
        let (frac_part, r2) :=
          match r1 with
          | "."%char :: r => span_digits r
          | _ => ([], r1)
          end in
        match int_part ++ frac_part with
        | [] => None
        | ds =>
            match parse_exponent r2 with
            | None => None
            | Some e =>
                Some (float_of_decimal neg
                        (decimal (digits_value ds) (e - Z.of_nat (List.length frac_part))))
            end
        end
  end.

(** [float(s)] for a [str]: [ValueError: could not convert string to float]. *)
Definition float_of_str (s : string) : result pyfloat :=
  match parse_float (list_ascii_of_string s) with
  | Some x => Ok x
  | None => Err (ValueError s)
  end.

Fixpoint join (sep : string) (items : list string) : string :=
  match items with
  | [] => EmptyString
  | [x] => x
  | x :: rest => (x ++ sep ++ join sep rest)%string
  end.

(** [httpx.Headers.get(key, default)]: names compare without case; the
    values of a repeated header are joined with a comma and a space. *)
Definition headers_get (hs : list (string * string)) (key default : string) : string :=
  match map snd (filter (fun h => (lower (fst h) =? lower key)%string) hs) with
  | [] => default
  | items => join ", " items
  end.

(* ===================================================================== *)
(** * The world a coroutine runs in *)
(* ===================================================================== *)

(** One call of [self.client.request(method, url, **kwargs)]. *)
Record Request : Type := mkRequest {
  method : string;
  url : string;
  kwargs : list (string * Json)
}.

(** What the transport does with a call: a response, an
    [httpx.TimeoutException], or another transport failure. *)
Inductive HttpResult : Type :=
| HttpResponse (response : Response)
| HttpTimeout
| HttpFailure.

(** The environment: the result and the duration of the [n]-th HTTP call,
    and the [n]-th output of [random.random()]. *)
Record Env : Type := mkEnv {
  transport : nat -> Request -> HttpResult;
  latency : nat -> Q;
  random_random : nat -> Q
}.

(** [TokenBucket]'s fields; the [asyncio.Lock] shows in the trace. *)
Record TokenBucket : Type := mkTokenBucket {
  rate : Q;
  capacity : Z;
  tokens : pynum;
  last_update : Q
}.

Inductive Event : Type :=
| EvLock                      (* [async with self.lock]: the lock is taken *)
| EvUnlock                    (* the [async with] block is left *)
| EvSleep (delay : pyfloat)   (* [await asyncio.sleep(delay)] suspends *)
| EvRequest (req : Request).  (* [await self.client.request(...)] *)

(** The mutable state: the virtual clock, the client's rate limiter, how
    many HTTP calls and random draws were made, and the events so far
    (newest first). *)
Record World : Type := mkWorld {
  clock : Q;
  rate_limiter : TokenBucket;
  calls : nat;
  draws : nat;
  trace : list Event
}.

(** How a coroutine ends: it returns, it raises, or it is still suspended
    when the observation stops. *)
Inductive Outcome (A : Type) : Type :=
| Return (a : A)
| Raise (e : Exc)
| Pending.
Arguments Return {A} a.
Arguments Raise {A} e.
Arguments Pending {A}.

Definition M (A : Type) : Type := World -> Outcome A * World.

Definition ret {A : Type} (a : A) : M A := fun w => (Return a, w).

Definition raise {A : Type} (e : Exc) : M A := fun w => (Raise e, w).

Definition pending {A : Type} : M A := fun w => (Pending, w).

Definition bind {A B : Type} (c : M A) (k : A -> M B) : M B :=
  fun w =>
    match c w with
    | (Return a, w1) => k a w1
    | (Raise e, w1) => (Raise e, w1)
    | (Pending, w1) => (Pending, w1)
    end.

Declare Scope py_scope.
Delimit Scope py_scope with py.
Notation "x <- c ;; k" := (bind c (fun x => k))
  (at level 61, c at next level, right associativity) : py_scope.
Notation "c ;; k" := (bind c (fun _ => k))
  (at level 61, right associativity) : py_scope.
Local Open Scope py_scope.

(** A pure expression inside a coroutine. *)
Definition lift {A : Type} (r : result A) : M A :=
  match r with
  | Ok a => ret a
  | Err e => raise e
  end.

(** [try: body  except ... as e: handler e]; [handler] re-raises what no
    [except] clause matches. *)
Definition try_except {A : Type} (body : M A) (handler : Exc -> M A) : M A :=
  fun w =>
    match body w with
    | (Raise e, w1) => handler e w1
    | other => other
    end.

Definition emit (ev : Event) (w : World) : World :=
  mkWorld (clock w) (rate_limiter w) (calls w) (draws w) (ev :: trace w).

Definition advance (d : Q) (w : World) : World :=
  mkWorld (clock w + d)%Q (rate_limiter w) (calls w) (draws w) (trace w).

(** [time.time()]. *)
Definition time_time : M Q := fun w => (Return (clock w), w).

Definition get_bucket : M TokenBucket := fun w => (Return (rate_limiter w), w).

Definition set_bucket (b : TokenBucket) : M unit :=
  fun w => (Return tt, mkWorld (clock w) b (calls w) (draws w) (trace w)).

(** [await asyncio.sleep(delay)]: a delay [<= 0] yields once and returns,
    an infinite delay never ends.  For NaN the behaviour is that of CPython
    3.13, which raises [ValueError]; earlier versions return at once.  The
    theorems that cover a NaN delay (the bounds on the calls, what an
    attempt leaves untouched) do not depend on which of the two happens,
    and none states the outcome of such a sleep. *)
Definition asyncio_sleep (delay : pyfloat) : M unit :=
  fun w =>
    match delay with
    | Finite d =>
        (Return tt, advance (if Qle_bool d 0 then 0 else d) (emit (EvSleep delay) w))
    | Infinity true => (Return tt, emit (EvSleep delay) w)
    | Infinity false => (Pending, emit (EvSleep delay) w)
    | NaN => (Raise (ValueError "Invalid delay: NaN (not a number)"), w)
    end.

(** [random.uniform(a, b)] is [a + (b - a) * self.random()]. *)
Definition random_uniform (env : Env) (a b : Q) : M Q :=
  fun w =>
    (Return (a + (b - a) * random_random env (draws w))%Q,
     mkWorld (clock w) (rate_limiter w) (calls w) (S (draws w)) (trace w)).

(** [await self.client.request(method, url, **kwargs)]. *)
Definition client_request (env : Env) (req : Request) : M Response :=
  fun w =>
    let w1 := mkWorld (clock w + latency env (calls w))%Q (rate_limiter w)
                      (S (calls w)) (draws w) (EvRequest req :: trace w) in
    match transport env (calls w) req with
    | HttpResponse response => (Return response, w1)
    | HttpTimeout => (Raise TimeoutException, w1)
    | HttpFailure => (Raise TransportError, w1)
    end.

(** [async with self.lock: body]: the lock is released when the block is
    left, by a return or by an exception. *)
Definition with_lock {A : Type} (body : M A) : M A :=
  fun w =>
    match body (emit EvLock w) with
    | (Pending, w1) => (Pending, w1)
    | (other, w1) => (other, emit EvUnlock w1)
    end.

(* ===================================================================== *)
(** * [TokenBucket] *)
(* ===================================================================== *)

(** [TokenBucket.__init__(rate, capacity)] at time [now]. *)
Definition TokenBucket_init (rate : Q) (capacity : Z) (now : Q) : result TokenBucket :=
  rbind (float_of_int capacity) (fun full =>
  Ok (mkTokenBucket rate capacity (PyFloat full) now)).

(** How one pass through the body of [while True] ends. *)
Inductive Iteration : Type :=
| Acquired                    (* [return] *)
| Suspend (wait_time : Q)     (* [await asyncio.sleep(wait_time)], then loop *)
| Failed (e : Exc).

(** The body of the loop of [acquire], with [now = time.time()]:
    [elapsed = now - self.last_update];
    [self.tokens = min(self.capacity, self.tokens + elapsed * self.rate)];
    [self.last_update = now];
    [if self.tokens >= tokens: self.tokens -= tokens; return];
    [wait_time = (tokens - self.tokens) / self.rate].
    An exception leaves the fields as the assignments before it set them. *)
Definition acquire_iteration (b : TokenBucket) (now : Q) (n : Z)
  : TokenBucket * Iteration :=
  let elapsed := (now - last_update b)%Q in
  match py_add (tokens b) (PyFloat (elapsed * rate b)%Q) with
  | Err e => (b, Failed e)
  | Ok refill =>
      let available := py_min (PyInt (capacity b)) refill in
      let b1 := mkTokenBucket (rate b) (capacity b) available now in
      if py_ge available (PyInt n) then
        match py_sub available (PyInt n) with
        | Err e => (b1, Failed e)
        | Ok remaining => (mkTokenBucket (rate b) (capacity b) remaining now, Acquired)
        end
      else
        match rbind (py_sub (PyInt n) available)
                    (fun missing => py_truediv_float missing (rate b)) with
        | Err e => (b1, Failed e)
        | Ok wait_time => (b1, Suspend wait_time)
        end
  end.

Fixpoint acquire_loop (fuel : nat) (n : Z) : M unit :=
  match fuel with
  | O => pending
  | S fuel' =>
      now <- time_time ;;
      b <- get_bucket ;;
      set_bucket (fst (acquire_iteration b now n)) ;;
      match snd (acquire_iteration b now n) with
      | Acquired => ret tt
      | Failed e => raise e
      | Suspend wait_time =>
          asyncio_sleep (Finite wait_time) ;;
          acquire_loop fuel' n
      end
  end.

(** [await bucket.acquire(n)]; [fuel] bounds the passes through the loop. *)
Definition acquire (fuel : nat) (n : Z) : M unit :=
  with_lock (acquire_loop fuel n).

(* ===================================================================== *)
(** * [DonetickClient] *)
(* ===================================================================== *)

(** The client's immutable part ([base_url] as [__init__] stores it, without
    a trailing slash); its [rate_limiter] is in the world. *)
Record DonetickClient : Type := mkDonetickClient {
  base_url : string
}.

(** [response.raise_for_status()]: [HTTPStatusError] unless the status is
    a success (2xx). *)
Definition raise_for_status (response : Response) : M unit :=
  if (200 <=? status_code response) && (status_code response <=? 299)
  then ret tt
  else raise (HTTPStatusError response).

(** [response.json()]. *)
Definition response_json (response : Response) : M Json :=
  match json response with
  | Some data => ret data
  | None => raise JSONDecodeError
  end.

Definition base_delay : Q := 1.

(** The retry branch shared by the two handlers:
    [delay = min(base_delay * (2**attempt), 60.0)],
    [jitter = delay * random.uniform(-0.25, 0.25)],
    [await asyncio.sleep(delay + jitter)]. *)
Definition backoff (env : Env) (attempt : Z) : M unit :=
  scaled <- lift (py_mul (PyFloat base_delay) (PyInt (2 ^ attempt))) ;;
  let delay := num_val (py_min scaled (PyFloat 60)) in
  u <- random_uniform env (- (1 # 4)) (1 # 4) ;;
  let jitter := (delay * u)%Q in
  let wait_time := (delay + jitter)%Q in
  asyncio_sleep (Finite wait_time).

(** How one pass through the body of [for attempt in range(max_retries)]
    ends when it does not raise. *)
Inductive Step : Type :=
| Done (data : Json)   (* [return response.json()] *)
| Next.                (* on to the next attempt ([continue], or the end of a handler) *)

(** The [try] block. *)
Definition try_block (env : Env) (fuel : nat) (req : Request) : M Step :=
  acquire fuel 1 ;;
  response <- client_request env req ;;
  if status_code response =? 429 then
    let retry_after := headers_get (headers response) "Retry-After" "60" in
    wait_time <- lift (float_of_str retry_after) ;;
    asyncio_sleep wait_time ;;
    ret Next
  else
    raise_for_status response ;;
    data <- response_json response ;;
    ret (Done data).

(** The [except] clauses. *)
Definition except_handler (env : Env) (max_retries attempt : Z) (e : Exc) : M Step :=
  match e with
  | TimeoutException =>
      if attempt =? max_retries - 1 then raise e
      else backoff env attempt ;; ret Next
  | HTTPStatusError response =>
      if (400 <=? status_code response) && (status_code response <? 500)
         && negb (status_code response =? 429)
      then raise e
      else if attempt =? max_retries - 1 then raise e
      else backoff env attempt ;; ret Next
  | _ => raise e
  end.

Definition attempt_body (env : Env) (fuel : nat) (req : Request)
  (max_retries attempt : Z) : M Step :=
  try_except (try_block env fuel req) (except_handler env max_retries attempt).

Fixpoint request_loop (env : Env) (fuel : nat) (req : Request)
  (max_retries : Z) (attempts : list Z) : M Json :=
  match attempts with
  | [] => raise (RetriesExhausted max_retries)
  | attempt :: rest =>
      s <- attempt_body env fuel req max_retries attempt ;;
      match s with
      | Done data => ret data
      | Next => request_loop env fuel req max_retries rest
      end
  end.

(** [range(n)]. *)
Definition range (n : Z) : list Z := map Z.of_nat (seq 0 (Z.to_nat n)).

(** [DonetickClient._request(method, path, max_retries, **kwargs)]. *)
Definition _request (env : Env) (fuel : nat) (self : DonetickClient)
  (method path : string) (max_retries : Z) (kwargs : list (string * Json)) : M Json :=
  let url := (base_url self ++ path)%string in
  request_loop env fuel (mkRequest method url kwargs) max_retries (range max_retries).

(** [models.Chore], the fields the client reads and the rest of them. *)
Record Chore : Type := mkChore {
  id : Z;
  name : string;
  isActive : bool;
  assignedTo : Z;
  other_fields : list (string * Json)
}.

(** The list comprehension of [list_chores]: a [Chore] is built from each
    item of [data], passed as keyword arguments.  [validate] is
    pydantic's validation of a mapping against [models.Chore] ([None]:
    [ValidationError]).  A value that is not a mapping cannot follow [**]
    and a scalar cannot be iterated ([TypeError]); iterating a mapping or a
    string yields its keys or characters, which are strings. *)
Fixpoint build_chores (validate : list (string * Json) -> option Chore)
  (items : list Json) : result (list Chore) :=
  match items with
  | [] => Ok []
  | JDict fields :: rest =>
      match validate fields with
      | None => Err ValidationError
      | Some chore => rbind (build_chores validate rest) (fun cs => Ok (chore :: cs))
      end
  | _ :: _ => Err TypeError
  end.

Definition chores_of_data (validate : list (string * Json) -> option Chore)
  (data : Json) : result (list Chore) :=
  match data with
  | JList items => build_chores validate items
  | JDict [] | JStr EmptyString => Ok []
  | _ => Err TypeError
  end.

(** [DonetickClient.list_chores(filter_active, assigned_to_user_id)]. *)
Definition list_chores (env : Env) (validate : list (string * Json) -> option Chore)
  (fuel : nat) (self : DonetickClient)
  (filter_active : option bool) (assigned_to_user_id : option Z) : M (list Chore) :=
  data <- _request env fuel self "GET" "/eapi/v1/chore" 3 [] ;;
  chores <- lift (chores_of_data validate data) ;;
  let chores :=
    match filter_active with
    | Some wanted => filter (fun c => Bool.eqb (isActive c) wanted) chores
    | None => chores
    end in
  let chores :=
    match assigned_to_user_id with
    | Some user => filter (fun c => assignedTo c =? user) chores
    | None => chores
    end in
  ret chores.

(** [DonetickClient.get_chore(chore_id)]. *)
Definition get_chore (env : Env) (validate : list (string * Json) -> option Chore)
  (fuel : nat) (self : DonetickClient) (chore_id : Z) : M (option Chore) :=
  chores <- list_chores env validate fuel self None None ;;
  ret (find (fun chore => id chore =? chore_id) chores).

(* ===================================================================== *)
(** * Vocabulary of the statements *)
(* ===================================================================== *)

(** The bucket's level after the refill at time [now]:
    [elapsed * rate] is added and the sum is clamped to [capacity]. *)
Definition refilled (b : TokenBucket) (now : Q) : Q :=
  Qmin (inject_Z (capacity b)) (num_val (tokens b) + (now - last_update b) * rate b).

(** An [int] level lies between zero and the capacity (it is the capacity,
    or what is left of it after whole tokens were taken). *)
Definition tokens_ok (b : TokenBucket) : Prop :=
  match tokens b with
  | PyInt z => 0 <= z <= capacity b
  | PyFloat _ => True
  end.

(** A bucket that can serve one token: positive rate, capacity at least 1
    (and small enough for [float(capacity)]). *)
Definition limiter_ready (b : TokenBucket) : Prop :=
  (0 < rate b)%Q /\ 1 <= capacity b < float_int_bound /\ tokens_ok b.

(** The invariant of the token count: [0 <= tokens <= capacity]. *)
Definition bucket_inv (b : TokenBucket) : Prop :=
  (0 <= rate b)%Q /\ 0 <= capacity b < float_int_bound /\ tokens_ok b /\
  (0 <= num_val (tokens b) <= inject_Z (capacity b))%Q.

(** The bucket's invariant in a world whose clock is not behind the last
    refill. *)
Definition world_inv (w : World) : Prop :=
  bucket_inv (rate_limiter w) /\ (last_update (rate_limiter w) <= clock w)%Q.

(** The requests a session may make: no negative idle time, no negative
    token count. *)
Definition op_ok (op : Q * Z) : Prop := (0 <= fst op)%Q /\ 0 <= snd op.

(** The events between the worlds [w] and [w'] of a run, oldest first. *)
Definition events_since (w w' : World) : list Event :=
  rev (firstn (List.length (trace w') - List.length (trace w)) (trace w')).

Definition is_sleep (ev : Event) : bool :=
  match ev with
  | EvSleep _ => true
  | _ => false
  end.

(** Every suspension of a chronological event list happens while the lock
    is free ([held] is the state of the lock at the start). *)
Fixpoint sleeps_outside_lock (held : bool) (events : list Event) : bool :=
  match events with
  | [] => true
  | EvLock :: rest => sleeps_outside_lock true rest
  | EvUnlock :: rest => sleeps_outside_lock false rest
  | EvSleep _ :: rest => negb held && sleeps_outside_lock held rest
  | EvRequest _ :: rest => sleeps_outside_lock held rest
  end.

(** Every suspension happens while the lock is held. *)
Fixpoint sleeps_inside_lock (held : bool) (events : list Event) : bool :=
  match events with
  | [] => true
  | EvLock :: rest => sleeps_inside_lock true rest
  | EvUnlock :: rest => sleeps_inside_lock false rest
  | EvSleep _ :: rest => held && sleeps_inside_lock held rest
  | EvRequest _ :: rest => sleeps_inside_lock held rest
  end.

(** The delay the specification gives a 429 response: the [Retry-After]
    value in seconds, [60] when the header is absent or is not a number. *)
Definition spec_retry_after (response : Response) : pyfloat :=
  match float_of_str (headers_get (headers response) "Retry-After" "60") with
  | Ok delay => delay
  | Err _ => Finite 60
  end.

(** The HTTP calls among a list of events. *)
Definition requests_of (events : list Event) : list Request :=
  flat_map (fun ev => match ev with EvRequest r => [r] | _ => [] end) events.

(** [w'] continues [w] with events whose HTTP calls are all [req]. *)
Definition extends (req : Request) (w w' : World) : Prop :=
  exists new : list Event,
    trace w' = new ++ trace w /\
    Forall (fun r => r = req) (requests_of new).

(** The exception a retryable failure of the transport surfaces as: a
    timeout, or a response with a 5xx status. *)
Definition retryable_failure (x : HttpResult) : option Exc :=
  match x with
  | HttpTimeout => Some TimeoutException
  | HttpResponse response =>
      if (500 <=? status_code response) && (status_code response <=? 599)
      then Some (HTTPStatusError response)
      else None
  | HttpFailure => None
  end.

(** A response with status 429 whose [Retry-After] header is absent or reads
    as a finite number of seconds. *)
Definition rate_limited (x : HttpResult) : Prop :=
  exists (response : Response) (delay : Q),
    x = HttpResponse response /\ status_code response = 429 /\
    float_of_str (headers_get (headers response) "Retry-After" "60") = Ok (Finite delay).

(** The world after [client.request] was awaited from [w]. *)
Definition called (env : Env) (req : Request) (w : World) : World :=
  mkWorld (clock w + latency env (calls w))%Q (rate_limiter w)
          (S (calls w)) (draws w) (EvRequest req :: trace w).

(** The world after a random draw. *)
Definition drawn (w : World) : World :=
  mkWorld (clock w) (rate_limiter w) (calls w) (S (draws w)) (trace w).

(** The jitter factor drawn in world [w]: [random.uniform(-0.25, 0.25)]. *)
Definition jitter_factor (env : Env) (w : World) : Q :=
  (- (1 # 4) + ((1 # 4) - - (1 # 4)) * random_random env (draws w))%Q.

(** The capped exponential delay [min(1.0 * 2^attempt, 60.0)]. *)
Definition backoff_delay (attempt : Z) : Q :=
  Qmin (base_delay * inject_Z (2 ^ attempt)) 60.

(** The end of an attempt by a suspension: when the suspension returns, the
    loop goes on to the next attempt. *)
Definition then_next (r : Outcome unit * World) : Outcome Step * World :=
  match r with
  | (Return _, w) => (Return Next, w)
  | (Raise e, w) => (Raise e, w)
  | (Pending, w) => (Pending, w)
  end.

(** What follows [acquire] in one attempt: the rest of the [try] block,
    under the [except] clauses. *)
Definition attempt_after_acquire (env : Env) (req : Request)
  (max_retries attempt : Z) : M Step :=
  try_except
    (response <- client_request env req ;;
     if status_code response =? 429 then
       let retry_after := headers_get (headers response) "Retry-After" "60" in
       wait_time <- lift (float_of_str retry_after) ;;
       asyncio_sleep wait_time ;;
       ret Next
     else
       raise_for_status response ;;
       data <- response_json response ;;
       ret (Done data))
    (except_handler env max_retries attempt).

(** A run of bucket operations: before each [acquire(n)] the clock moves on
    by [idle]; the run goes on whatever the outcome of a call is. *)
Fixpoint bucket_session (fuel : nat) (ops : list (Q * Z)) (w : World) : World :=
  match ops with
  | [] => w
  | (idle, n) :: rest => bucket_session fuel rest (snd (acquire fuel n (advance idle w)))
  end.

(** The world after the assignments of one pass. *)
Definition after_iteration (w : World) (n : Z) : World :=
  mkWorld (clock w) (fst (acquire_iteration (rate_limiter w) (clock w) n))
          (calls w) (draws w) (trace w).

(** The world after [asyncio.sleep(wait_time)] returned. *)
Definition after_sleep (wait_time : Q) (w : World) : World :=
  advance (if Qle_bool wait_time 0 then 0 else wait_time)
          (emit (EvSleep (Finite wait_time)) w).

(* ===================================================================== *)
(** * Sample inputs *)
(* ===================================================================== *)

Definition sample_client : DonetickClient :=
  mkDonetickClient "https://test.donetick.com".

(** Ten tokens refilled at ten per second: full, and drained. *)
Definition full_bucket : TokenBucket := mkTokenBucket 10 10 (PyFloat 10) 0.

Definition empty_bucket : TokenBucket := mkTokenBucket 10 10 (PyFloat 0) 0.

Definition world_of (b : TokenBucket) : World := mkWorld 0 b 0 0 [].

(** Every call has the result [x] and takes no time; [random.random()] is
    always one half. *)
Definition constant_env (x : HttpResult) : Env :=
  mkEnv (fun _ _ => x) (fun _ => 0%Q) (fun _ => (1 # 2)%Q).

Definition not_found : Response := mkResponse 404 [] "Not found" None.

Definition too_many_requests (retry_after : string) : Response :=
  mkResponse 429 [("Retry-After"%string, retry_after)] "" None.

(** A [Retry-After] header in its HTTP-date form. *)
Definition http_date : string := "Wed, 21 Oct 2015 07:28:00 GMT".

(** A stand-in for the validation of [models.Chore]: it asks for an
    integer [id] and takes defaults for the rest. *)
Definition sample_validate (fields : list (string * Json)) : option Chore :=
  match find (fun f => (fst f =? "id")%string) fields with
  | Some (_, JInt n) => Some (mkChore n "Test Chore" true 1 fields)
  | _ => None
  end.

Definition sample_listing : Json :=
  JList [JDict [("id"%string, JInt 1)]; JDict [("id"%string, JInt 2)]].

(* ===================================================================== *)
(** * The write operations and the members listing *)
(* ===================================================================== *)

(** Python's limit on the decimal digits of an [int] converted to or from a
    [str] ([sys.get_int_max_str_digits()], 4300 by default). *)
Definition int_max_str_digits : nat := 4300.

(** [str(n)] for an [int], as an f-string field formats it: [ValueError]
    when [n] has more digits than the limit. *)
Definition py_str_int (n : Z) : result string :=
  let digits := NilZero.string_of_int (Z.to_int (Z.abs n)) in
  if (int_max_str_digits <? String.length digits)%nat
  then Err (ValueError "Exceeds the limit (4300 digits) for integer string conversion")
  else Ok (if n <? 0 then String "-" digits else digits).

(** [models.ChoreCreate]. *)
Record ChoreCreate : Type := mkChoreCreate {
  Name : string;
  Description : option string;
  DueDate : option string;
  CreatedBy : option Z
}.

(** [ChoreCreate(Name=..., Description=..., DueDate=..., CreatedBy=...)] on
    values of the annotated types: [Name] has [min_length=1] and
    [max_length=200]. *)
Definition ChoreCreate_init (name : string) (description due_date : option string)
  (created_by : option Z) : result ChoreCreate :=
  if ((1 <=? String.length name) && (String.length name <=? 200))%nat
  then Ok (mkChoreCreate name description due_date created_by)
  else Err ValidationError.

(** [models.ChoreUpdate]; its field names are those of [models.Chore]. *)
Module ChoreUpdate.

Record t : Type := mk {
  name : option string;
  description : option string;
  nextDueDate : option string
}.

End ChoreUpdate.

(** [ChoreUpdate(name=..., description=..., nextDueDate=...)]: a [name]
    that is given has [min_length=1] and [max_length=200]. *)
Definition ChoreUpdate_init (name description next_due_date : option string)
  : result ChoreUpdate.t :=
  match name with
  | Some s =>
      if ((1 <=? String.length s) && (String.length s <=? 200))%nat
      then Ok (ChoreUpdate.mk name description next_due_date)
      else Err ValidationError
  | None => Ok (ChoreUpdate.mk name description next_due_date)
  end.

(** One field of [model_dump(exclude_none=True)]: left out when [None]. *)
Definition dump_field {A : Type} (key : string) (to_json : A -> Json) (v : option A)
  : list (string * Json) :=
  match v with
  | Some x => [(key, to_json x)]
  | None => []
  end.

(** [chore.model_dump(exclude_none=True)] for a [ChoreCreate]. *)
Definition ChoreCreate_model_dump (chore : ChoreCreate) : list (string * Json) :=
  ("Name"%string, JStr (Name chore))
    :: dump_field "Description" JStr (Description chore)
    ++ dump_field "DueDate" JStr (DueDate chore)
    ++ dump_field "CreatedBy" JInt (CreatedBy chore).

(** [update.model_dump(exclude_none=True)] for a [ChoreUpdate]. *)
Definition ChoreUpdate_model_dump (update : ChoreUpdate.t) : list (string * Json) :=
  dump_field "name" JStr (ChoreUpdate.name update)
    ++ dump_field "description" JStr (ChoreUpdate.description update)
    ++ dump_field "nextDueDate" JStr (ChoreUpdate.nextDueDate update).

(** A model built from the response data unpacked into keyword arguments:
    [TypeError] when the data is not a mapping, [ValidationError] when the
    mapping is not valid. *)
Definition model_of_data {A : Type} (validate : list (string * Json) -> option A)
  (data : Json) : result A :=
  match data with
  | JDict fields =>
      match validate fields with
      | Some x => Ok x
      | None => Err ValidationError
      end
  | _ => Err TypeError
  end.

(** [DonetickClient.create_chore(chore)]. *)
Definition create_chore (env : Env) (validate : list (string * Json) -> option Chore)
  (fuel : nat) (self : DonetickClient) (chore : ChoreCreate) : M Chore :=
  data <- _request env fuel self "POST" "/eapi/v1/chore" 3
                   [("json"%string, JDict (ChoreCreate_model_dump chore))] ;;
  lift (model_of_data validate data).

(** [DonetickClient.update_chore(chore_id, update)]. *)
Definition update_chore (env : Env) (validate : list (string * Json) -> option Chore)
  (fuel : nat) (self : DonetickClient) (chore_id : Z) (update : ChoreUpdate.t)
  : M Chore :=
  id_text <- lift (py_str_int chore_id) ;;
  data <- _request env fuel self "PUT" ("/eapi/v1/chore/" ++ id_text) 3
                   [("json"%string, JDict (ChoreUpdate_model_dump update))] ;;
  lift (model_of_data validate data).

(** [DonetickClient.delete_chore(chore_id)]. *)
Definition delete_chore (env : Env) (fuel : nat) (self : DonetickClient)
  (chore_id : Z) : M bool :=
  id_text <- lift (py_str_int chore_id) ;;
  _request env fuel self "DELETE" ("/eapi/v1/chore/" ++ id_text) 3 [] ;;
  ret true.

(** [DonetickClient.complete_chore(chore_id, completed_by)]. *)
Definition complete_chore (env : Env) (validate : list (string * Json) -> option Chore)
  (fuel : nat) (self : DonetickClient) (chore_id : Z) (completed_by : option Z)
  : M Chore :=
  id_text <- lift (py_str_int chore_id) ;;
  let params := dump_field "completedBy" JInt completed_by in
  data <- _request env fuel self "POST" ("/eapi/v1/chore/" ++ id_text ++ "/complete") 3
                   [("params"%string, JDict params)] ;;
  lift (model_of_data validate data).

(** [models.CircleMember]. *)
Record CircleMember : Type := mkCircleMember {
  userId : Z;
  userName : string;
  userEmail : string;
  role : string
}.

(** The list comprehension of [get_circle_members], as [build_chores] for
    members. *)
Fixpoint build_members (validate : list (string * Json) -> option CircleMember)
  (items : list Json) : result (list CircleMember) :=
  match items with
  | [] => Ok []
  | JDict fields :: rest =>
      match validate fields with
      | None => Err ValidationError
      | Some member => rbind (build_members validate rest) (fun ms => Ok (member :: ms))
      end
  | _ :: _ => Err TypeError
  end.

Definition members_of_data (validate : list (string * Json) -> option CircleMember)
  (data : Json) : result (list CircleMember) :=
  match data with
  | JList items => build_members validate items
  | JDict [] | JStr EmptyString => Ok []
  | _ => Err TypeError
  end.

(** [DonetickClient.get_circle_members()]. *)
Definition get_circle_members (env : Env)
  (validate : list (string * Json) -> option CircleMember)
  (fuel : nat) (self : DonetickClient) : M (list CircleMember) :=
  data <- _request env fuel self "GET" "/eapi/v1/circle/members" 3 [] ;;
  lift (members_of_data validate data).

(* ===================================================================== *)
(** * Configuration and construction *)
(* ===================================================================== *)

(** [os.getenv(key, default)] over the process environment. *)
Definition os_getenv (environ : string -> option string) (key default : string)
  : string :=
  match environ key with
  | Some value => value
  | None => default
  end.

(** [int(s)] for a [str]: surrounding whitespace, a sign, decimal digits
    with single underscores between them; [ValueError] otherwise, and for
    more digits than the limit. *)
Definition int_of_str (s : string) : result Z :=
  let (neg, body) := take_sign (strip (list_ascii_of_string s)) in
  match drop_underscores None body with
  | Some (d :: ds) =>
      if forallb is_digit (d :: ds) then
        if (int_max_str_digits <? List.length (d :: ds))%nat
        then Err (ValueError "Exceeds the limit (4300 digits) for integer string conversion")
        else Ok (if neg then - digits_value (d :: ds) else digits_value (d :: ds))
      else Err (ValueError s)
  | _ => Err (ValueError s)
  end.

Fixpoint lstrip_slash (s : list ascii) : list ascii :=
  match s with
  | "/"%char :: rest => lstrip_slash rest
  | _ => s
  end.

(** [s.rstrip("/")]. *)
Definition rstrip_slash (s : string) : string :=
  string_of_list_ascii (rev (lstrip_slash (rev (list_ascii_of_string s)))).

(** [config.Config] once constructed. *)
Record Config : Type := mkConfig {
  donetick_base_url : string;
  donetick_api_token : string;
  log_level : string;
  rate_limit_per_second : pyfloat;
  rate_limit_burst : Z
}.

(** [not value] for an optional string: [None] and the empty string. *)
Definition missing (value : option string) : bool :=
  match value with
  | Some s => (s =? "")%string
  | None => true
  end.

(** [Config.__init__]: the five variables are read, the two numbers
    converted, then [_validate] asks for the URL and the token and strips
    the URL's trailing slashes. *)
Definition Config_init (environ : string -> option string) : result Config :=
  let base := environ "DONETICK_BASE_URL"%string in
  let token := environ "DONETICK_API_TOKEN"%string in
  let level := os_getenv environ "LOG_LEVEL" "INFO" in
  rbind (float_of_str (os_getenv environ "RATE_LIMIT_PER_SECOND" "10.0")) (fun per_second =>
  rbind (int_of_str (os_getenv environ "RATE_LIMIT_BURST" "10")) (fun burst =>
  if missing base then
    Err (ValueError "DONETICK_BASE_URL environment variable is required. Please set it to your Donetick instance URL.")
  else if missing token then
    Err (ValueError "DONETICK_API_TOKEN environment variable is required. Please generate a token in Donetick Settings > Access Token.")
  else
    Ok (mkConfig (rstrip_slash (os_getenv environ "DONETICK_BASE_URL" ""))
                 (os_getenv environ "DONETICK_API_TOKEN" "")
                 level per_second burst))).

(** [x or y] for an optional string, an optional float and an optional
    int: [y] when [x] is [None], empty or zero. *)
Definition or_str (x : option string) (y : string) : string :=
  match x with
  | Some s => if (s =? "")%string then y else s
  | None => y
  end.

Definition or_float (x : option pyfloat) (y : pyfloat) : pyfloat :=
  match x with
  | Some (Finite q) => if Qeq_bool q 0 then y else Finite q
  | Some other => other
  | None => y
  end.

Definition or_int (x : option Z) (y : Z) : Z :=
  match x with
  | Some n => if n =? 0 then y else n
  | None => y
  end.

(** What [DonetickClient.__init__] sets up: the client, its token and its
    rate limiter. *)
Record NewClient : Type := mkNewClient {
  new_client : DonetickClient;
  api_token : string;
  new_rate_limiter : TokenBucket
}.

(** [DonetickClient.__init__(base_url, api_token, rate_limit_per_second,
    rate_limit_burst)] at time [now], with the module's [config].  The
    outer [option] is [None] when the chosen rate is an infinity or NaN:
    the bucket's arithmetic is modelled for finite rates only. *)
Definition DonetickClient_init (config : Config) (base_url token : option string)
  (per_second : option pyfloat) (burst : option Z) (now : Q)
  : option (result NewClient) :=
  match or_float per_second (rate_limit_per_second config) with
  | Finite r =>
      Some (rbind (TokenBucket_init r (or_int burst (rate_limit_burst config)) now)
                  (fun bucket =>
                     Ok (mkNewClient
                           (mkDonetickClient
                              (rstrip_slash (or_str base_url (donetick_base_url config))))
                           (or_str token (donetick_api_token config))
                           bucket)))
  | _ => None
  end.

(* ===================================================================== *)
(** * Vocabulary of the further statements *)
(* ===================================================================== *)

(** The tokens granted over a run of bucket operations (each [acquire(n)]
    that returned counts [n]), with the world the run ends in. *)
Fixpoint session_granted (fuel : nat) (ops : list (Q * Z)) (w : World) : Z * World :=
  match ops with
  | [] => (0, w)
  | (idle, n) :: rest =>
      let r := acquire fuel n (advance idle w) in
      let (granted, w') := session_granted fuel rest (snd r) in
      ((match fst r with Return _ => n | _ => 0 end) + granted, w')
  end.

(** The bucket's level net of what the refill rate has supplied by the last
    refill: it never goes up. *)
Definition budget (b : TokenBucket) : Q :=
  (num_val (tokens b) - rate b * last_update b)%Q.

(** The outcome of the request when an attempt ends with [s]. *)
Definition request_outcome (s : Outcome Step) : option (Outcome Json) :=
  match s with
  | Return (Done data) => Some (Return data)
  | Return Next => None
  | Raise e => Some (Raise e)
  | Pending => Some Pending
  end.

(** The filters of [list_chores] on one chore. *)
Definition keeps (filter_active : option bool) (assigned_to_user_id : option Z)
  (c : Chore) : bool :=
  match filter_active with
  | Some wanted => Bool.eqb (isActive c) wanted
  | None => true
  end
  && match assigned_to_user_id with
     | Some user => assignedTo c =? user
     | None => true
     end.

(** A process environment given as a list of variables. *)
Definition environ_of (vars : list (string * string)) (key : string) : option string :=
  option_map snd (find (fun kv => (fst kv =? key)%string) vars).

(* ===================================================================== *)
(** * Further sample inputs *)
(* ===================================================================== *)

Definition ok_response (data : Json) : Response := mkResponse 200 [] "" (Some data).

(** A redirect; httpx does not follow it unless asked to. *)
Definition redirect : Response :=
  mkResponse 302 [("Location"%string, "https://elsewhere.example/"%string)] "" None.

(** The calls are answered in the order of [script] (and fail once it is
    used up); they take no time and [random.random()] is always one half. *)
Definition scripted_env (script : list HttpResult) : Env :=
  mkEnv (fun i _ => nth i script HttpFailure) (fun _ => 0%Q) (fun _ => (1 # 2)%Q).

(** Drained buckets whose rate is zero, and negative. *)
Definition stalled_bucket : TokenBucket := mkTokenBucket 0 10 (PyFloat 0) 0.

Definition leaking_bucket : TokenBucket := mkTokenBucket (- (1)) 10 (PyFloat 0) 0.

Definition sample_chore_json : Json := JDict [("id"%string, JInt 7)].

(** A stand-in for the validation of [models.CircleMember]: it asks for an
    integer [userId]. *)
Definition sample_validate_member (fields : list (string * Json)) : option CircleMember :=
  match find (fun f => (fst f =? "userId")%string) fields with
  | Some (_, JInt n) => Some (mkCircleMember n "Test User" "test@example.com" "member")
  | _ => None
  end.

Definition sample_environ : string -> option string :=
  environ_of [("DONETICK_BASE_URL"%string, "https://donetick.example.com/"%string);
              ("DONETICK_API_TOKEN"%string, "secret"%string)].

Definition sample_config : Config :=
  mkConfig "https://donetick.example.com" "secret" "INFO" (Finite 10) 10.

(* ===================================================================== *)
(** * Numbers: basic facts *)
(* ===================================================================== *)

Lemma float_of_int_ok (z : Z) :
  Z.abs z < float_int_bound -> float_of_int z = Ok (inject_Z z).
Proof.
  intros H. unfold float_of_int.
  destruct (Z.ltb_spec (Z.abs z) float_int_bound); [reflexivity | lia].
Qed.

Lemma float_of_int_overflow (z : Z) :
  float_int_bound <= Z.abs z -> float_of_int z = Err OverflowError.
Proof.
  intros H. unfold float_of_int.
  destruct (Z.ltb_spec (Z.abs z) float_int_bound); [lia | reflexivity].
Qed.

Lemma inject_Z_le (a b : Z) : a <= b -> (inject_Z a <= inject_Z b)%Q.
Proof. intros H. rewrite <- Zle_Qle. exact H. Qed.

Lemma inject_Z_sub (a b : Z) : (inject_Z (a - b) == inject_Z a - inject_Z b)%Q.
Proof. unfold Z.sub. rewrite inject_Z_plus, inject_Z_opp. reflexivity. Qed.

Lemma num_val_py_min (x y : pynum) :
  (num_val (py_min x y) == Qmin (num_val x) (num_val y))%Q.
Proof.
  unfold py_min, py_lt.
  destruct (Qle_bool (num_val x) (num_val y)) eqn:E; simpl.
  - apply Qle_bool_iff in E. symmetry. apply Q.min_l. exact E.
  - assert (H : ~ (num_val x <= num_val y)%Q).
    { intros H. apply Qle_bool_iff in H. congruence. }
    symmetry. apply Q.min_r. lra.
Qed.

Lemma py_ge_true (x y : pynum) : py_ge x y = true <-> (num_val y <= num_val x)%Q.
Proof. unfold py_ge. apply Qle_bool_iff. Qed.

Lemma py_ge_false (x y : pynum) : py_ge x y = false <-> (num_val x < num_val y)%Q.
Proof.
  unfold py_ge. split; intros H.
  - destruct (Qlt_le_dec (num_val x) (num_val y)) as [L | L]; [exact L |].
    apply Qle_bool_iff in L. congruence.
  - destruct (Qle_bool (num_val y) (num_val x)) eqn:E; [| reflexivity].
    apply Qle_bool_iff in E. lra.
Qed.

(* ===================================================================== *)
(** * [TokenBucket]: one pass through the loop *)
(* ===================================================================== *)

Lemma to_float_tokens (b : TokenBucket) :
  tokens_ok b -> 0 <= capacity b < float_int_bound ->
  to_float (tokens b) = Ok (num_val (tokens b)).
Proof.
  unfold tokens_ok. intros Ht Hc.
  destruct (tokens b) as [z | q]; simpl; [| reflexivity].
  apply float_of_int_ok. lia.
Qed.

(** The refill: the new level is [refilled b now]; it is the [int] capacity
    when the bucket is full and a [float] otherwise. *)
Lemma acquire_iteration_refill (b : TokenBucket) (now : Q) (n : Z) :
  tokens_ok b -> 0 <= capacity b < float_int_bound ->
  exists available : pynum,
    (num_val available == refilled b now)%Q /\
    match available with PyInt z => z = capacity b | PyFloat _ => True end /\
    acquire_iteration b now n =
      if py_ge available (PyInt n) then
        match py_sub available (PyInt n) with
        | Err e => (mkTokenBucket (rate b) (capacity b) available now, Failed e)
        | Ok remaining => (mkTokenBucket (rate b) (capacity b) remaining now, Acquired)
        end
      else
        match rbind (py_sub (PyInt n) available)
                    (fun missing => py_truediv_float missing (rate b)) with
        | Err e => (mkTokenBucket (rate b) (capacity b) available now, Failed e)
        | Ok wait_time =>
            (mkTokenBucket (rate b) (capacity b) available now, Suspend wait_time)
        end.
Proof.
  intros Ht Hc.
  set (sum := (num_val (tokens b) + (now - last_update b) * rate b)%Q).
  exists (py_min (PyInt (capacity b)) (PyFloat sum)).
  split; [| split].
  - rewrite num_val_py_min. reflexivity.
  - unfold py_min. destruct (py_lt _ _); [exact I | reflexivity].
  - unfold acquire_iteration.
    assert (E : py_add (tokens b) (PyFloat ((now - last_update b) * rate b)%Q)
                = Ok (PyFloat sum)).
    { unfold py_add, py_arith.
      pose proof (to_float_tokens b Ht Hc) as F.
      destruct (tokens b) as [z | q]; simpl in *; rewrite ?F; reflexivity. }
    rewrite E. reflexivity.
Qed.

(** Enough tokens: [n] are taken and the pass returns. *)
Lemma acquire_iteration_take (b : TokenBucket) (now : Q) (n : Z) :
  tokens_ok b -> 0 <= capacity b < float_int_bound ->
  0 <= n -> (inject_Z n <= refilled b now)%Q ->
  exists remaining : pynum,
    acquire_iteration b now n
      = (mkTokenBucket (rate b) (capacity b) remaining now, Acquired) /\
    (num_val remaining == refilled b now - inject_Z n)%Q /\
    match remaining with PyInt z => 0 <= z <= capacity b | PyFloat _ => True end.
Proof.
  intros Ht Hc Hn Hle.
  destruct (acquire_iteration_refill b now n Ht Hc) as (av & Hav & Htag & ->).
  assert (Hcap : (refilled b now <= inject_Z (capacity b))%Q)
    by (unfold refilled; apply Q.le_min_l).
  assert (Hnc : n <= capacity b) by (rewrite Zle_Qle; lra).
  assert (G : py_ge av (PyInt n) = true) by (apply py_ge_true; simpl; lra).
  rewrite G.
  destruct av as [z | q]; simpl in *.
  - subst z. exists (PyInt (capacity b - n)). simpl.
    split; [reflexivity | split; [| lia]].
    rewrite inject_Z_sub, <- Hav. reflexivity.
  - unfold py_sub, py_arith. simpl.
    rewrite float_of_int_ok by lia. simpl.
    exists (PyFloat (q - inject_Z n)). simpl.
    split; [reflexivity | split; [| exact I]].
    rewrite Hav. reflexivity.
Qed.

(** Too few tokens: the level stays at the refilled one and the caller is
    told to wait [(n - available) / rate]. *)
Lemma acquire_iteration_wait (b : TokenBucket) (now : Q) (n : Z) :
  tokens_ok b -> 0 <= capacity b < float_int_bound ->
  0 <= n < float_int_bound -> (refilled b now < inject_Z n)%Q ->
  ~ (rate b == 0)%Q ->
  exists (available : pynum) (wait_time : Q),
    acquire_iteration b now n
      = (mkTokenBucket (rate b) (capacity b) available now, Suspend wait_time) /\
    (num_val available == refilled b now)%Q /\
    match available with PyInt z => z = capacity b | PyFloat _ => True end /\
    (wait_time == (inject_Z n - refilled b now) / rate b)%Q.
Proof.
  intros Ht Hc Hn Hlt Hr.
  destruct (acquire_iteration_refill b now n Ht Hc) as (av & Hav & Htag & ->).
  assert (G : py_ge av (PyInt n) = false) by (apply py_ge_false; simpl; lra).
  rewrite G.
  assert (Z0 : Qeq_bool (rate b) 0 = false).
  { destruct (Qeq_bool (rate b) 0) eqn:E; [| reflexivity].
    apply Qeq_bool_iff in E. contradiction. }
  destruct av as [z | q]; simpl in *.
  - subst z. unfold py_truediv_float. simpl.
    rewrite float_of_int_ok by lia. simpl. rewrite Z0.
    exists (PyInt (capacity b)), (inject_Z (n - capacity b) / rate b)%Q. simpl.
    repeat split; try reflexivity; [exact Hav |].
    rewrite inject_Z_sub, <- Hav. reflexivity.
  - unfold py_sub, py_arith, py_truediv_float. simpl.
    rewrite float_of_int_ok by lia. simpl. rewrite Z0.
    exists (PyFloat q), ((inject_Z n - q) / rate b)%Q. simpl.
    repeat split; try reflexivity; [exact Hav |].
    rewrite Hav. reflexivity.
Qed.

(* ===================================================================== *)
(** * [TokenBucket]: the loop *)
(* ===================================================================== *)

Lemma acquire_loop_S (fuel : nat) (n : Z) (w : World) :
  acquire_loop (S fuel) n w =
    match snd (acquire_iteration (rate_limiter w) (clock w) n) with
    | Acquired => (Return tt, after_iteration w n)
    | Failed e => (Raise e, after_iteration w n)
    | Suspend wait_time =>
        acquire_loop fuel n (after_sleep wait_time (after_iteration w n))
    end.
Proof.
  cbn [acquire_loop]. unfold bind, time_time, get_bucket, set_bucket.
  cbn beta iota.
  destruct (snd (acquire_iteration (rate_limiter w) (clock w) n)); reflexivity.
Qed.

(** Enough tokens at the first check: no suspension. *)
Lemma acquire_loop_immediate (fuel : nat) (n : Z) (w : World) :
  tokens_ok (rate_limiter w) -> 0 <= capacity (rate_limiter w) < float_int_bound ->
  0 <= n -> (inject_Z n <= refilled (rate_limiter w) (clock w))%Q ->
  exists remaining : pynum,
    acquire_loop (S fuel) n w
      = (Return tt,
         mkWorld (clock w)
                 (mkTokenBucket (rate (rate_limiter w)) (capacity (rate_limiter w))
                                remaining (clock w))
                 (calls w) (draws w) (trace w)) /\
    (num_val remaining == refilled (rate_limiter w) (clock w) - inject_Z n)%Q /\
    match remaining with
    | PyInt z => 0 <= z <= capacity (rate_limiter w)
    | PyFloat _ => True
    end.
Proof.
  intros Ht Hc Hn Hle.
  destruct (acquire_iteration_take _ _ _ Ht Hc Hn Hle) as (rem & E & Hv & Htag).
  exists rem. rewrite acquire_loop_S. unfold after_iteration. rewrite E. simpl.
  auto.
Qed.

(** Too few tokens at the first check, with [n] within the capacity: one
    suspension of [(n - available) / rate], after which the second check
    finds exactly [n] tokens and takes them. *)
Lemma acquire_loop_one_wait (fuel : nat) (n : Z) (w : World) :
  tokens_ok (rate_limiter w) -> 0 <= capacity (rate_limiter w) < float_int_bound ->
  (0 < rate (rate_limiter w))%Q -> 0 <= n <= capacity (rate_limiter w) ->
  (refilled (rate_limiter w) (clock w) < inject_Z n)%Q ->
  exists (available remaining : pynum) (wait_time : Q),
    acquire_iteration (rate_limiter w) (clock w) n
      = (mkTokenBucket (rate (rate_limiter w)) (capacity (rate_limiter w))
                       available (clock w),
         Suspend wait_time) /\
    (num_val available == refilled (rate_limiter w) (clock w))%Q /\
    acquire_loop (S (S fuel)) n w
      = (Return tt,
         mkWorld (clock w + wait_time)
                 (mkTokenBucket (rate (rate_limiter w)) (capacity (rate_limiter w))
                                remaining (clock w + wait_time))
                 (calls w) (draws w) (EvSleep (Finite wait_time) :: trace w)) /\
    (wait_time
       == (inject_Z n - refilled (rate_limiter w) (clock w)) / rate (rate_limiter w))%Q /\
    (0 < wait_time)%Q /\
    (num_val remaining == 0)%Q /\
    match remaining with
    | PyInt z => 0 <= z <= capacity (rate_limiter w)
    | PyFloat _ => True
    end.
Proof.
  intros Ht Hc Hr Hn Hlt.
  set (b := rate_limiter w) in *.
  assert (Hr0 : ~ (rate b == 0)%Q) by lra.
  destruct (acquire_iteration_wait b (clock w) n Ht Hc ltac:(lia) Hlt Hr0)
    as (av & wt & E & Hav & Htag & Hwt).
  assert (Hpos : (0 < wt)%Q).
  { rewrite Hwt. apply Qlt_shift_div_l; lra. }
  assert (Hmul : (wt * rate b == inject_Z n - refilled b (clock w))%Q).
  { rewrite Hwt. field. exact Hr0. }
  rewrite acquire_loop_S. fold b. rewrite E. cbn [snd].
  unfold after_iteration. fold b. rewrite E. cbn [fst].
  unfold after_sleep.
  assert (Hq : Qle_bool wt 0 = false).
  { destruct (Qle_bool wt 0) eqn:Q0; [| reflexivity].
    apply Qle_bool_iff in Q0. lra. }
  rewrite Hq. unfold advance, emit. cbn [clock rate_limiter calls draws trace].
  set (w2 := mkWorld _ _ _ _ _).
  assert (Ht2 : tokens_ok (rate_limiter w2)).
  { unfold tokens_ok. simpl. destruct av; [subst; lia | exact I]. }
  assert (Hc2 : 0 <= capacity (rate_limiter w2) < float_int_bound) by exact Hc.
  assert (Hle2 : (inject_Z n <= refilled (rate_limiter w2) (clock w2))%Q).
  { unfold refilled. simpl. apply Q.min_glb.
    - apply inject_Z_le. lia.
    - rewrite Hav.
      setoid_replace ((clock w + wt - clock w) * rate b)%Q with (wt * rate b)%Q by ring.
      rewrite Hmul. lra. }
  destruct (acquire_loop_immediate fuel n w2 Ht2 Hc2 ltac:(lia) Hle2)
    as (rem & E2 & Hv & Htag2).
  exists av, rem, wt. rewrite E2. subst w2. simpl in *.
  split; [reflexivity |]. split; [exact Hav |].
  split; [reflexivity |]. split; [exact Hwt |]. split; [exact Hpos |].
  split; [| exact Htag2].
  rewrite Hv. unfold refilled. simpl.
  rewrite Q.min_r.
  - rewrite Hav.
    setoid_replace ((clock w + wt - clock w) * rate b)%Q with (wt * rate b)%Q by ring.
    rewrite Hmul. ring.
  - rewrite Hav.
    setoid_replace ((clock w + wt - clock w) * rate b)%Q with (wt * rate b)%Q by ring.
    rewrite Hmul.
    setoid_replace (refilled b (clock w) + (inject_Z n - refilled b (clock w)))%Q
      with (inject_Z n) by ring.
    apply inject_Z_le. lia.
Qed.

Lemma acquire_unfold (fuel : nat) (n : Z) (w : World) :
  acquire fuel n w =
    match acquire_loop fuel n (emit EvLock w) with
    | (Pending, w1) => (Pending, w1)
    | (other, w1) => (other, emit EvUnlock w1)
    end.
Proof. reflexivity. Qed.

(** C4 ([TokenBucket.acquire], [1 <= n <= capacity]).  The call first
    refills: the level becomes [refilled b now], that is
    [tokens + elapsed * rate] clamped to [capacity], and [last_update]
    becomes [now].  If that level is at least [n], exactly [n] tokens are
    taken and the call returns without suspending (its only events are the
    lock and the unlock).  Otherwise no token is taken and the caller is
    suspended for [wait_time = (n - level) / rate], a positive time, the one
    after which the level reaches [n] at the refill rate; after one pass
    the call is suspended, still holding the lock, and when the suspension
    ends the loop runs the same check again.  How that next check ends is
    not part of the statement. *)
Theorem acquire_refills_then_takes_or_waits :
  forall (fuel : nat) (n : Z) (w : World),
    tokens_ok (rate_limiter w) ->
    (0 < rate (rate_limiter w))%Q ->
    capacity (rate_limiter w) < float_int_bound ->
    1 <= n <= capacity (rate_limiter w) ->
    let b := rate_limiter w in
    let level := refilled b (clock w) in
    ((inject_Z n <= level)%Q ->
       exists remaining : pynum,
         acquire (S fuel) n w
           = (Return tt,
              mkWorld (clock w)
                      (mkTokenBucket (rate b) (capacity b) remaining (clock w))
                      (calls w) (draws w) (EvUnlock :: EvLock :: trace w)) /\
         (num_val remaining == level - inject_Z n)%Q)
    /\
    ((level < inject_Z n)%Q ->
       exists (available : pynum) (wait_time : Q),
         acquire_iteration b (clock w) n
           = (mkTokenBucket (rate b) (capacity b) available (clock w),
              Suspend wait_time) /\
         (num_val available == level)%Q /\
         (wait_time == (inject_Z n - level) / rate b)%Q /\
         (0 < wait_time)%Q /\
         (level + wait_time * rate b == inject_Z n)%Q /\
         acquire_loop (S fuel) n w
           = acquire_loop fuel n (after_sleep wait_time (after_iteration w n)) /\
         acquire 1 n w
           = (Pending,
              mkWorld (clock w + wait_time)
                      (mkTokenBucket (rate b) (capacity b) available (clock w))
                      (calls w) (draws w)
                      (EvSleep (Finite wait_time) :: EvLock :: trace w))).
Proof.
  intros fuel n w Ht Hr Hcb Hn b level.
  assert (Hc : 0 <= capacity b < float_int_bound) by (subst b; lia).
  assert (Hn0 : 0 <= n) by lia.
  split; intros Hlv.
  - destruct (acquire_loop_immediate fuel n (emit EvLock w) Ht Hc Hn0 Hlv)
      as (rem & E & Hv & _).
    exists rem. rewrite acquire_unfold, E. split; [reflexivity | exact Hv].
  - assert (Hr0 : ~ (rate b == 0)%Q) by (subst b; lra).
    destruct (acquire_iteration_wait b (clock w) n Ht Hc ltac:(lia) Hlv Hr0)
      as (av & wt & E & Hav & _ & Hwt).
    fold level in Hwt, Hav.
    assert (Hpos : (0 < wt)%Q).
    { rewrite Hwt. apply Qlt_shift_div_l; [exact Hr | lra]. }
    assert (Hq : Qle_bool wt 0 = false).
    { destruct (Qle_bool wt 0) eqn:Q0; [| reflexivity].
      apply Qle_bool_iff in Q0. lra. }
    exists av, wt.
    split; [exact E |]. split; [exact Hav |]. split; [exact Hwt |].
    split; [exact Hpos |]. split; [| split].
    + rewrite Hwt. field. exact Hr0.
    + rewrite acquire_loop_S. fold b. rewrite E. reflexivity.
    + rewrite acquire_unfold, acquire_loop_S.
      cbn [emit clock rate_limiter]. fold b. rewrite E. cbn [snd].
      unfold after_iteration. cbn [emit clock rate_limiter calls draws trace].
      fold b. rewrite E. cbn [fst acquire_loop pending].
      unfold after_sleep. rewrite Hq. reflexivity.
Qed.

(* ===================================================================== *)
(** * [TokenBucket]: the invariant of the token count *)
(* ===================================================================== *)

Lemma refilled_bounds (b : TokenBucket) (now : Q) :
  bucket_inv b -> (last_update b <= now)%Q ->
  (num_val (tokens b) <= refilled b now)%Q /\
  (refilled b now <= inject_Z (capacity b))%Q /\
  (refilled b now <= num_val (tokens b) + (now - last_update b) * rate b)%Q.
Proof.
  intros (Hr & Hc & Ht & Hv) Hnow. unfold refilled.
  assert (Hp : (0 <= (now - last_update b) * rate b)%Q)
    by (apply Qmult_le_0_compat; lra).
  split; [| split].
  - apply Q.min_glb; lra.
  - apply Q.le_min_l.
  - apply Q.le_min_r.
Qed.

(** The two ways a pass can end: [n] tokens are taken from the refilled
    level, or the level stays the refilled one. *)
Lemma acquire_iteration_cases (b : TokenBucket) (now : Q) (n : Z) :
  tokens_ok b -> 0 <= capacity b < float_int_bound -> 0 <= n ->
  (exists remaining : pynum,
     (inject_Z n <= refilled b now)%Q /\
     acquire_iteration b now n
       = (mkTokenBucket (rate b) (capacity b) remaining now, Acquired) /\
     (num_val remaining == refilled b now - inject_Z n)%Q /\
     match remaining with PyInt z => 0 <= z <= capacity b | PyFloat _ => True end)
  \/
  (exists (available : pynum) (out : Iteration),
     (refilled b now < inject_Z n)%Q /\
     acquire_iteration b now n
       = (mkTokenBucket (rate b) (capacity b) available now, out) /\
     out <> Acquired /\
     (num_val available == refilled b now)%Q /\
     match available with PyInt z => z = capacity b | PyFloat _ => True end).
Proof.
  intros Ht Hc Hn.
  destruct (Qlt_le_dec (refilled b now) (inject_Z n)) as [Hlt | Hle].
  - right.
    destruct (acquire_iteration_refill b now n Ht Hc) as (av & Hav & Htag & E).
    assert (G : py_ge av (PyInt n) = false) by (apply py_ge_false; simpl; lra).
    rewrite G in E.
    destruct (rbind (py_sub (PyInt n) av) _) as [wt | e].
    + exists av, (Suspend wt). repeat split; auto; discriminate.
    + exists av, (Failed e). repeat split; auto; discriminate.
  - left.
    destruct (acquire_iteration_take b now n Ht Hc Hn Hle) as (rem & E & Hv & Htag).
    exists rem. auto.
Qed.

(** One pass keeps the invariant, and moves the count only as a refill or a
    successful acquire does. *)
Lemma acquire_iteration_inv (b : TokenBucket) (now : Q) (n : Z) :
  bucket_inv b -> (last_update b <= now)%Q -> 0 <= n ->
  bucket_inv (fst (acquire_iteration b now n)) /\
  last_update (fst (acquire_iteration b now n)) = now /\
  capacity (fst (acquire_iteration b now n)) = capacity b /\
  ((num_val (tokens (fst (acquire_iteration b now n))) < num_val (tokens b))%Q ->
     snd (acquire_iteration b now n) = Acquired) /\
  ((num_val (tokens b) < num_val (tokens (fst (acquire_iteration b now n))))%Q ->
     (last_update b < now)%Q /\
     (num_val (tokens (fst (acquire_iteration b now n)))
        <= num_val (tokens b) + (now - last_update b) * rate b)%Q).
Proof.
  intros Hinv Hnow Hn.
  destruct (refilled_bounds b now Hinv Hnow) as (B1 & B2 & B3).
  destruct Hinv as (Hr & Hc & Ht & Hv).
  assert (Hgrow : forall x : Q,
            (num_val (tokens b) < x)%Q -> (x <= refilled b now)%Q ->
            (last_update b < now)%Q).
  { intros x H1 H2.
    destruct (Qlt_le_dec (last_update b) now) as [L | L]; [exact L |].
    assert (E0 : (now - last_update b == 0)%Q) by lra.
    assert (P0 : ((now - last_update b) * rate b == 0)%Q)
      by (rewrite E0; ring).
    lra. }
  destruct (acquire_iteration_cases b now n Ht Hc Hn)
    as [(rem & Hle & E & Hrv & Htag) | (av & out & Hlt & E & Hout & Hav & Htag)];
    rewrite E; cbn [fst snd tokens last_update capacity rate].
  - assert (Hn' : (0 <= inject_Z n)%Q) by (apply (inject_Z_le 0); exact Hn).
    split; [| split; [reflexivity | split; [reflexivity | split]]].
    + unfold bucket_inv, tokens_ok. cbn [tokens capacity rate].
      repeat split; try lia; try lra; auto.
    + intros Hdec. reflexivity.
    + intros Hinc. split; [apply (Hgrow (num_val rem)) |]; lra.
  - split; [| split; [reflexivity | split; [reflexivity | split]]].
    + unfold bucket_inv, tokens_ok. cbn [tokens capacity rate].
      repeat split; try lia; try lra.
      destruct av; [subst; lia | exact I].
    + intros Hdec. lra.
    + intros Hinc. split; [apply (Hgrow (num_val av)) |]; lra.
Qed.

Lemma acquire_loop_inv (fuel : nat) (n : Z) (w : World) :
  world_inv w -> 0 <= n -> world_inv (snd (acquire_loop fuel n w)).
Proof.
  revert w. induction fuel as [| fuel IH]; intros w Hw Hn; [exact Hw |].
  destruct Hw as (Hb & Hclk).
  destruct (acquire_iteration_inv _ _ n Hb Hclk Hn) as (Hb' & Hlast & _).
  assert (Hw1 : world_inv (after_iteration w n)).
  { split; cbn; [exact Hb' | rewrite Hlast; lra]. }
  rewrite acquire_loop_S.
  destruct (snd (acquire_iteration (rate_limiter w) (clock w) n)) as [| wt | e];
    try exact Hw1.
  apply IH; [| exact Hn].
  destruct Hw1 as (H1 & H2). split; cbn in *; [exact H1 |].
  destruct (Qle_bool wt 0) eqn:E; [lra |].
  assert (0 < wt)%Q; [| lra].
  destruct (Qlt_le_dec 0 wt) as [L | L]; [exact L |].
  apply Qle_bool_iff in L. congruence.
Qed.

Lemma acquire_inv (fuel : nat) (n : Z) (w : World) :
  world_inv w -> 0 <= n -> world_inv (snd (acquire fuel n w)).
Proof.
  intros Hw Hn. rewrite acquire_unfold.
  assert (H : world_inv (snd (acquire_loop fuel n (emit EvLock w))))
    by (apply acquire_loop_inv; [exact Hw | exact Hn]).
  destruct (acquire_loop fuel n (emit EvLock w)) as [[a | e |] w1]; exact H.
Qed.

Lemma bucket_session_inv (fuel : nat) (ops : list (Q * Z)) (w : World) :
  world_inv w -> Forall op_ok ops -> world_inv (bucket_session fuel ops w).
Proof.
  revert w. induction ops as [| [idle n] ops IH]; intros w Hw Hops; [exact Hw |].
  inversion Hops as [| op ops' (Hidle & Hn) Hrest]; subst. cbn in *.
  apply IH; [| exact Hrest].
  apply acquire_inv; [| exact Hn].
  destruct Hw as (Hb & Hclk). split; cbn; [exact Hb | lra].
Qed.

Lemma TokenBucket_init_inv (r : Q) (c : Z) (now : Q) (b : TokenBucket) :
  (0 <= r)%Q -> 0 <= c -> TokenBucket_init r c now = Ok b ->
  bucket_inv b /\ last_update b = now /\ capacity b = c /\
  (num_val (tokens b) == inject_Z c)%Q.
Proof.
  intros Hr Hc. unfold TokenBucket_init, float_of_int.
  destruct (Z.ltb_spec (Z.abs c) float_int_bound) as [L | L]; [| discriminate].
  cbn. intros E. injection E as <-. cbn.
  assert (0 <= inject_Z c)%Q by (apply (inject_Z_le 0); exact Hc).
  unfold bucket_inv, tokens_ok. cbn.
  repeat split; try reflexivity; try lia; try lra.
Qed.

(** C5 ([TokenBucket.__init__], [TokenBucket.acquire]).  A bucket starts
    full.  Whatever sequence of [acquire] calls and idle times follows, and
    wherever the calls are observed, the token count stays in
    [[0, capacity]].  In one pass of [acquire] the count goes down only when
    the pass is a successful acquire, and goes up only when time has passed
    since the last refill, by at most [elapsed * rate]. *)
Theorem tokens_stay_within_capacity :
  forall (r : Q) (c : Z) (now : Q) (b : TokenBucket),
    (0 <= r)%Q -> 0 <= c -> TokenBucket_init r c now = Ok b ->
    (num_val (tokens b) == inject_Z c)%Q /\
    (forall (fuel : nat) (ops : list (Q * Z)) (ncalls ndraws : nat) (tr : list Event),
       Forall op_ok ops ->
       let w' := bucket_session fuel ops (mkWorld now b ncalls ndraws tr) in
       world_inv w' /\
       (0 <= num_val (tokens (rate_limiter w'))
          <= inject_Z (capacity (rate_limiter w')))%Q) /\
    (forall (b0 : TokenBucket) (t : Q) (n : Z),
       bucket_inv b0 -> (last_update b0 <= t)%Q -> 0 <= n ->
       let b1 := fst (acquire_iteration b0 t n) in
       bucket_inv b1 /\ capacity b1 = capacity b0 /\
       ((num_val (tokens b1) < num_val (tokens b0))%Q ->
          snd (acquire_iteration b0 t n) = Acquired) /\
       ((num_val (tokens b0) < num_val (tokens b1))%Q ->
          (last_update b0 < t)%Q /\
          (num_val (tokens b1)
             <= num_val (tokens b0) + (t - last_update b0) * rate b0)%Q)).
Proof.
  intros r c now b Hr Hc Hinit.
  destruct (TokenBucket_init_inv r c now b Hr Hc Hinit) as (Hb & Hlast & Hcap & Hfull).
  split; [exact Hfull | split].
  - intros fuel ops ncalls ndraws tr Hops w'.
    assert (Hw : world_inv w').
    { apply bucket_session_inv; [| exact Hops].
      split; cbn; [exact Hb | rewrite Hlast; lra]. }
    split; [exact Hw |].
    destruct Hw as ((_ & _ & _ & Hv) & _). exact Hv.
  - intros b0 t n Hb0 Ht Hn b1.
    destruct (acquire_iteration_inv b0 t n Hb0 Ht Hn) as (H1 & _ & H2 & H3 & H4).
    auto.
Qed.

(* ===================================================================== *)
(** * [TokenBucket]: what a call leaves untouched, and its events *)
(* ===================================================================== *)

Lemma acquire_iteration_static (b : TokenBucket) (now : Q) (n : Z) :
  rate (fst (acquire_iteration b now n)) = rate b /\
  capacity (fst (acquire_iteration b now n)) = capacity b.
Proof.
  unfold acquire_iteration.
  destruct (py_add _ _); [| auto].
  destruct (py_ge _ _).
  - destruct (py_sub _ _); auto.
  - destruct (rbind _ _); auto.
Qed.

(** The loop of [acquire] makes no HTTP call and no random draw, keeps the
    bucket's rate and capacity, and adds only suspensions to the trace: as
    many as there were passes when it is still pending. *)
Lemma acquire_loop_frame (fuel : nat) (n : Z) (w : World) :
  calls (snd (acquire_loop fuel n w)) = calls w /\
  draws (snd (acquire_loop fuel n w)) = draws w /\
  rate (rate_limiter (snd (acquire_loop fuel n w))) = rate (rate_limiter w) /\
  capacity (rate_limiter (snd (acquire_loop fuel n w))) = capacity (rate_limiter w) /\
  exists sleeps : list Event,
    trace (snd (acquire_loop fuel n w)) = sleeps ++ trace w /\
    forallb is_sleep sleeps = true /\
    (fst (acquire_loop fuel n w) = Pending -> List.length sleeps = fuel).
Proof.
  revert w. induction fuel as [| fuel IH]; intros w.
  - cbn. repeat split. exists []. auto.
  - rewrite acquire_loop_S.
    destruct (acquire_iteration_static (rate_limiter w) (clock w) n) as (Sr & Sc).
    destruct (snd (acquire_iteration (rate_limiter w) (clock w) n)) as [| wt | e].
    + cbn. repeat split; auto. exists []. repeat split; auto; discriminate.
    + destruct (IH (after_sleep wt (after_iteration w n)))
        as (I1 & I2 & I3 & I4 & sl & I5 & I6 & I7).
      cbn in *. rewrite I1, I2, I3, I4, Sr, Sc. repeat split.
      exists (sl ++ [EvSleep (Finite wt)]). rewrite I5, <- app_assoc. cbn.
      split; [reflexivity | split].
      * rewrite forallb_app, I6. reflexivity.
      * intros HP. rewrite length_app, (I7 HP). cbn. lia.
    + cbn. repeat split; auto. exists []. repeat split; auto; discriminate.
Qed.

(** The same for [acquire]: the lock is taken first, the suspensions follow,
    and the lock is released unless the call is still pending. *)
Lemma acquire_frame (fuel : nat) (n : Z) (w : World) :
  calls (snd (acquire fuel n w)) = calls w /\
  draws (snd (acquire fuel n w)) = draws w /\
  rate (rate_limiter (snd (acquire fuel n w))) = rate (rate_limiter w) /\
  capacity (rate_limiter (snd (acquire fuel n w))) = capacity (rate_limiter w) /\
  exists sleeps : list Event,
    forallb is_sleep sleeps = true /\
    trace (snd (acquire fuel n w))
      = match fst (acquire fuel n w) with
        | Pending => sleeps ++ EvLock :: trace w
        | _ => EvUnlock :: sleeps ++ EvLock :: trace w
        end /\
    (fst (acquire fuel n w) = Pending -> List.length sleeps = fuel).
Proof.
  rewrite acquire_unfold.
  destruct (acquire_loop_frame fuel n (emit EvLock w))
    as (F1 & F2 & F3 & F4 & sl & F5 & F6 & F7).
  destruct (acquire_loop fuel n (emit EvLock w)) as [[a | e |] w1]; cbn in *;
    repeat split; auto; exists sl; rewrite F5; repeat split; auto; discriminate.
Qed.

Lemma events_since_app (w w' : World) (new : list Event) :
  trace w' = new ++ trace w -> events_since w w' = rev new.
Proof.
  intros E. unfold events_since. rewrite E, length_app.
  replace (List.length new + List.length (trace w) - List.length (trace w))%nat
    with (List.length new + 0)%nat by lia.
  rewrite firstn_app_2. cbn. rewrite app_nil_r. reflexivity.
Qed.

Lemma sleeps_inside_lock_held (sleeps tail : list Event) :
  forallb is_sleep sleeps = true ->
  sleeps_inside_lock true (sleeps ++ tail) = sleeps_inside_lock true tail.
Proof.
  induction sleeps as [| ev sleeps IH]; intros H; [reflexivity |].
  cbn in H. apply andb_true_iff in H as (H1 & H2).
  destruct ev; try discriminate. cbn. exact (IH H2).
Qed.

Lemma sleeps_outside_lock_held (sleeps tail : list Event) :
  forallb is_sleep sleeps = true -> sleeps <> [] ->
  sleeps_outside_lock true (sleeps ++ tail) = false.
Proof.
  destruct sleeps as [| ev sleeps]; intros H Hne; [contradiction |].
  cbn in H. apply andb_true_iff in H as (H1 & _).
  destruct ev; try discriminate. reflexivity.
Qed.

Lemma forallb_is_sleep_rev (sleeps : list Event) :
  forallb is_sleep sleeps = true -> forallb is_sleep (rev sleeps) = true.
Proof.
  intros H. apply forallb_forall. intros ev Hin.
  apply in_rev in Hin. rewrite forallb_forall in H. exact (H ev Hin).
Qed.

(** A request within the capacity is served after at most one suspension. *)
Lemma acquire_returns (fuel : nat) (n : Z) (w : World) :
  tokens_ok (rate_limiter w) -> (0 < rate (rate_limiter w))%Q ->
  capacity (rate_limiter w) < float_int_bound ->
  0 <= n <= capacity (rate_limiter w) -> (2 <= fuel)%nat ->
  exists (w' : World) (sleeps : list Event),
    acquire fuel n w = (Return tt, w') /\
    trace w' = EvUnlock :: sleeps ++ EvLock :: trace w /\
    forallb is_sleep sleeps = true /\ (List.length sleeps <= 1)%nat /\
    calls w' = calls w /\ draws w' = draws w /\
    tokens_ok (rate_limiter w') /\
    rate (rate_limiter w') = rate (rate_limiter w) /\
    capacity (rate_limiter w') = capacity (rate_limiter w).
Proof.
  intros Ht Hr Hcb Hn Hfuel.
  destruct fuel as [| [| fuel]]; try lia.
  assert (Hc : 0 <= capacity (rate_limiter w) < float_int_bound) by lia.
  assert (Hn0 : 0 <= n) by lia.
  rewrite acquire_unfold.
  destruct (Qlt_le_dec (refilled (rate_limiter w) (clock w)) (inject_Z n)) as [L | L].
  - destruct (acquire_loop_one_wait fuel n (emit EvLock w) Ht Hc Hr Hn L)
      as (av & rem & wt & _ & _ & E & _ & _ & _ & Htag).
    rewrite E. eexists; exists [EvSleep (Finite wt)].
    split; [reflexivity |]. cbn. repeat split; auto.
  - destruct (acquire_loop_immediate (S fuel) n (emit EvLock w) Ht Hc Hn0 L)
      as (rem & E & _ & Htag).
    rewrite E. eexists; exists [].
    split; [reflexivity |]. cbn. repeat split; auto.
Qed.

(** A request beyond the capacity is never served: every pass finds too
    few tokens and suspends again. *)
Lemma acquire_loop_starved (fuel : nat) (n : Z) (w : World) :
  tokens_ok (rate_limiter w) -> (0 < rate (rate_limiter w))%Q ->
  0 <= capacity (rate_limiter w) ->
  capacity (rate_limiter w) < n < float_int_bound ->
  fst (acquire_loop fuel n w) = Pending.
Proof.
  revert w. induction fuel as [| fuel IH]; intros w Ht Hr Hc Hn; [reflexivity |].
  assert (Hcb : 0 <= capacity (rate_limiter w) < float_int_bound) by lia.
  assert (Hlt : (refilled (rate_limiter w) (clock w) < inject_Z n)%Q).
  { apply Qle_lt_trans with (inject_Z (capacity (rate_limiter w))).
    - unfold refilled. apply Q.le_min_l.
    - rewrite <- Zlt_Qlt. lia. }
  assert (Hr0 : ~ (rate (rate_limiter w) == 0)%Q) by lra.
  destruct (acquire_iteration_wait _ (clock w) n Ht Hcb ltac:(lia) Hlt Hr0)
    as (av & wt & E & _ & Htag & _).
  rewrite acquire_loop_S, E. cbn [snd].
  apply IH; unfold after_sleep, after_iteration; rewrite E; cbn; auto.
  unfold tokens_ok. cbn. destruct av; [subst; lia | exact I].
Qed.

Lemma acquire_starved (fuel : nat) (n : Z) (w : World) :
  tokens_ok (rate_limiter w) -> (0 < rate (rate_limiter w))%Q ->
  0 <= capacity (rate_limiter w) ->
  capacity (rate_limiter w) < n < float_int_bound ->
  fst (acquire fuel n w) = Pending.
Proof.
  intros Ht Hr Hc Hn. rewrite acquire_unfold.
  pose proof (acquire_loop_starved fuel n (emit EvLock w) Ht Hr Hc Hn) as H.
  destruct (acquire_loop fuel n (emit EvLock w)) as [[a | e |] w1];
    cbn in *; congruence.
Qed.

(** C6, as the code has it.  A call [acquire(n)] with
    [capacity < n] (and [n] small enough to be converted to a [float]) on a
    bucket with a positive rate neither returns nor raises: however many
    passes are observed, it is still pending, it has been suspended once per
    pass, and it still holds the lock. *)
Theorem acquire_beyond_capacity_never_ends :
  forall (fuel : nat) (n : Z) (w : World),
    tokens_ok (rate_limiter w) -> (0 < rate (rate_limiter w))%Q ->
    0 <= capacity (rate_limiter w) ->
    capacity (rate_limiter w) < n < float_int_bound ->
    fst (acquire fuel n w) = Pending /\
    exists sleeps : list Event,
      List.length sleeps = fuel /\ forallb is_sleep sleeps = true /\
      trace (snd (acquire fuel n w)) = sleeps ++ EvLock :: trace w.
Proof.
  intros fuel n w Ht Hr Hc Hn.
  pose proof (acquire_starved fuel n w Ht Hr Hc Hn) as HP.
  split; [exact HP |].
  destruct (acquire_frame fuel n w) as (_ & _ & _ & _ & sl & F1 & F2 & F3).
  exists sl. rewrite HP in F2. auto.
Qed.

(** C8, as the code has it.  The events of a call of [acquire] are: the
    lock is taken, then the suspensions, then (unless the call is still
    pending) the lock is released.  So every suspension to wait for a
    refill happens while the caller holds the lock, and none outside it:
    the lock is released only when the call returns or raises. *)
Theorem acquire_suspends_holding_the_lock :
  forall (fuel : nat) (n : Z) (w : World),
    exists sleeps : list Event,
      forallb is_sleep sleeps = true /\
      events_since w (snd (acquire fuel n w))
        = EvLock :: sleeps ++ match fst (acquire fuel n w) with
                              | Pending => []
                              | _ => [EvUnlock]
                              end /\
      sleeps_inside_lock false (events_since w (snd (acquire fuel n w))) = true /\
      (sleeps <> [] ->
         sleeps_outside_lock false (events_since w (snd (acquire fuel n w))) = false).
Proof.
  intros fuel n w.
  destruct (acquire_frame fuel n w) as (_ & _ & _ & _ & sl & F1 & F2 & F3).
  exists (rev sl).
  assert (Hrev : forallb is_sleep (rev sl) = true) by (apply forallb_is_sleep_rev, F1).
  assert (Hev : events_since w (snd (acquire fuel n w))
                = EvLock :: rev sl ++ match fst (acquire fuel n w) with
                                      | Pending => []
                                      | _ => [EvUnlock]
                                      end).
  { destruct (fst (acquire fuel n w)).
    - rewrite (events_since_app w _ (EvUnlock :: sl ++ [EvLock])).
      + cbn. rewrite rev_app_distr. reflexivity.
      + rewrite F2. cbn. rewrite <- app_assoc. reflexivity.
    - rewrite (events_since_app w _ (EvUnlock :: sl ++ [EvLock])).
      + cbn. rewrite rev_app_distr. reflexivity.
      + rewrite F2. cbn. rewrite <- app_assoc. reflexivity.
    - rewrite (events_since_app w _ (sl ++ [EvLock])).
      + rewrite rev_app_distr, app_nil_r. reflexivity.
      + rewrite F2, <- app_assoc. reflexivity. }
  split; [exact Hrev |]. split; [exact Hev |]. split.
  - rewrite Hev. cbn. rewrite sleeps_inside_lock_held by exact Hrev.
    destruct (fst (acquire fuel n w)); reflexivity.
  - intros Hne. rewrite Hev. cbn.
    apply sleeps_outside_lock_held; assumption.
Qed.

(* ===================================================================== *)
(** * [_request]: one attempt *)
(* ===================================================================== *)

Lemma acquire_iteration_failure (b : TokenBucket) (now : Q) (n : Z) (e : Exc) :
  snd (acquire_iteration b now n) = Failed e ->
  e = OverflowError \/ e = ZeroDivisionError.
Proof.
  assert (F : forall z q, float_of_int z = Err q -> q = OverflowError).
  { intros z q. unfold float_of_int. destruct (_ <? _); congruence. }
  assert (T : forall x q, to_float x = Err q -> q = OverflowError).
  { intros [z | q0] q; cbn; [apply F | discriminate]. }
  assert (A : forall fz fq x y q, py_arith fz fq x y = Err q -> q = OverflowError).
  { intros fz fq x y q. unfold py_arith.
    destruct x as [a | a], y as [c | c]; cbn; try discriminate;
      repeat match goal with
             | |- context [float_of_int ?z] =>
                 let E := fresh "E" in
                 destruct (float_of_int z) eqn:E; cbn; [| apply F in E]
             end; congruence. }
  unfold acquire_iteration, py_add, py_sub.
  destruct (py_arith Z.add _ _ _) as [refill | e0] eqn:E1; cbn [snd].
  - destruct (py_ge _ _).
    + destruct (py_arith Z.sub _ _ _) as [r | e0] eqn:E2; cbn [snd]; [discriminate |].
      intros H. injection H as <-. left. eapply A. exact E2.
    + destruct (py_arith Z.sub _ (PyInt n) _) as [m | e0] eqn:E2; cbn [snd rbind].
      * unfold py_truediv_float.
        destruct (to_float m) as [a | e0] eqn:E3; cbn [snd rbind].
        -- destruct (Qeq_bool _ _); cbn [snd]; [| discriminate].
           intros H. injection H as <-. right. reflexivity.
        -- intros H. injection H as <-. left. exact (T _ _ E3).
      * intros H. injection H as <-. left. eapply A. exact E2.
  - intros H. injection H as <-. left. eapply A. exact E1.
Qed.

Lemma acquire_loop_failure (fuel : nat) (n : Z) (w : World) (e : Exc) :
  fst (acquire_loop fuel n w) = Raise e ->
  e = OverflowError \/ e = ZeroDivisionError.
Proof.
  revert w. induction fuel as [| fuel IH]; intros w; [discriminate |].
  rewrite acquire_loop_S.
  destruct (snd (acquire_iteration (rate_limiter w) (clock w) n)) as [| wt | e0] eqn:E.
  - discriminate.
  - apply IH.
  - cbn. intros H. injection H as <-. exact (acquire_iteration_failure _ _ _ _ E).
Qed.

Lemma acquire_failure (fuel : nat) (n : Z) (w : World) (e : Exc) :
  fst (acquire fuel n w) = Raise e ->
  e = OverflowError \/ e = ZeroDivisionError.
Proof.
  rewrite acquire_unfold.
  pose proof (acquire_loop_failure fuel n (emit EvLock w) e) as H.
  destruct (acquire_loop fuel n (emit EvLock w)) as [[a | e0 |] w1]; cbn in *;
    try discriminate.
  exact H.
Qed.

(** An attempt is [acquire], then the call and what the code does with its
    result; an exception of [acquire] goes through the handlers unchanged. *)
Lemma attempt_body_unfold (env : Env) (fuel : nat) (req : Request)
  (max_retries attempt : Z) (w : World) :
  attempt_body env fuel req max_retries attempt w =
    match acquire fuel 1 w with
    | (Return _, w1) => attempt_after_acquire env req max_retries attempt w1
    | (Raise e, w1) => (Raise e, w1)
    | (Pending, w1) => (Pending, w1)
    end.
Proof.
  unfold attempt_body, try_block, attempt_after_acquire, try_except, bind.
  pose proof (acquire_failure fuel 1 w) as F.
  destruct (acquire fuel 1 w) as [[a | e |] w1]; cbn in *; try reflexivity.
  destruct (F e eq_refl) as [-> | ->]; reflexivity.
Qed.

(** The retry branch: the conversion of [2**attempt] may overflow; otherwise
    one random draw and one suspension. *)
Lemma backoff_unfold (env : Env) (attempt : Z) (w : World) :
  backoff env attempt w =
    match float_of_int (2 ^ attempt) with
    | Err e => (Raise e, w)
    | Ok scaled =>
        let delay := num_val (py_min (PyFloat (base_delay * scaled)) (PyFloat 60)) in
        (Return tt, after_sleep (delay + delay * jitter_factor env w) (drawn w))
    end.
Proof.
  unfold backoff, bind, lift, py_mul, py_arith. cbn [to_float rbind].
  destruct (float_of_int (2 ^ attempt)); reflexivity.
Qed.

Lemma pow2_float_ok (attempt : Z) :
  0 <= attempt < 1024 -> float_of_int (2 ^ attempt) = Ok (inject_Z (2 ^ attempt)).
Proof.
  intros H. apply float_of_int_ok.
  assert (0 < 2 ^ attempt) by (apply Z.pow_pos_nonneg; lia).
  assert (2 ^ attempt <= 2 ^ 1023) by (apply Z.pow_le_mono_r; lia).
  assert (2 ^ 1023 < float_int_bound) by (vm_compute; reflexivity).
  lia.
Qed.

Lemma pow2_float_overflow (attempt : Z) :
  1024 <= attempt -> float_of_int (2 ^ attempt) = Err OverflowError.
Proof.
  intros H. apply float_of_int_overflow.
  assert (2 ^ 1024 <= 2 ^ attempt) by (apply Z.pow_le_mono_r; lia).
  assert (float_int_bound <= 2 ^ 1024) by (vm_compute; discriminate).
  lia.
Qed.

Lemma backoff_ok (env : Env) (attempt : Z) (w : World) :
  0 <= attempt < 1024 ->
  exists wait_time : Q,
    backoff env attempt w = (Return tt, after_sleep wait_time (drawn w)) /\
    (wait_time
       == backoff_delay attempt + backoff_delay attempt * jitter_factor env w)%Q.
Proof.
  intros H. rewrite backoff_unfold, (pow2_float_ok attempt H). cbn zeta.
  eexists. split; [reflexivity |].
  unfold backoff_delay. rewrite num_val_py_min. reflexivity.
Qed.

Lemma backoff_overflow (env : Env) (attempt : Z) (w : World) :
  1024 <= attempt -> backoff env attempt w = (Raise OverflowError, w).
Proof.
  intros H. rewrite backoff_unfold, (pow2_float_overflow attempt H). reflexivity.
Qed.

(** What the retry branch leaves untouched. *)
Lemma backoff_frame (env : Env) (attempt : Z) (w : World) :
  calls (snd (backoff env attempt w)) = calls w /\
  rate_limiter (snd (backoff env attempt w)) = rate_limiter w /\
  (fst (backoff env attempt w) = Return tt \/
   fst (backoff env attempt w) = Raise OverflowError).
Proof.
  rewrite backoff_unfold. unfold float_of_int.
  destruct (_ <? _); cbn; auto.
Qed.

Lemma attempt_after_timeout (env : Env) (req : Request)
  (max_retries attempt : Z) (w : World) :
  transport env (calls w) req = HttpTimeout ->
  attempt_after_acquire env req max_retries attempt w =
    if attempt =? max_retries - 1 then (Raise TimeoutException, called env req w)
    else then_next (backoff env attempt (called env req w)).
Proof.
  intros E.
  unfold attempt_after_acquire, try_except, bind, client_request. rewrite E.
  cbn [except_handler]. fold (called env req w).
  destruct (attempt =? max_retries - 1); [reflexivity |].
  unfold bind, then_next, ret.
  destruct (backoff env attempt (called env req w)) as [[a | e |] w3]; reflexivity.
Qed.

Lemma attempt_after_failure (env : Env) (req : Request)
  (max_retries attempt : Z) (w : World) :
  transport env (calls w) req = HttpFailure ->
  attempt_after_acquire env req max_retries attempt w
    = (Raise TransportError, called env req w).
Proof.
  intros E.
  unfold attempt_after_acquire, try_except, bind, client_request. rewrite E.
  reflexivity.
Qed.

Lemma attempt_after_response (env : Env) (req : Request)
  (max_retries attempt : Z) (w : World) (response : Response) :
  transport env (calls w) req = HttpResponse response ->
  attempt_after_acquire env req max_retries attempt w =
    if status_code response =? 429 then
      match float_of_str (headers_get (headers response) "Retry-After" "60") with
      | Err e => (Raise e, called env req w)
      | Ok delay => then_next (asyncio_sleep delay (called env req w))
      end
    else if (200 <=? status_code response) && (status_code response <=? 299) then
      match json response with
      | Some data => (Return (Done data), called env req w)
      | None => (Raise JSONDecodeError, called env req w)
      end
    else if (400 <=? status_code response) && (status_code response <? 500) then
      (Raise (HTTPStatusError response), called env req w)
    else if attempt =? max_retries - 1 then
      (Raise (HTTPStatusError response), called env req w)
    else then_next (backoff env attempt (called env req w)).
Proof.
  intros E.
  unfold attempt_after_acquire, try_except, bind, client_request. rewrite E.
  fold (called env req w).
  destruct (status_code response =? 429) eqn:E429.
  - unfold lift, float_of_str.
    destruct (parse_float _) as [[d | [|] |] |]; reflexivity.
  - unfold raise_for_status, response_json.
    destruct ((200 <=? status_code response) && (status_code response <=? 299)).
    + destruct (json response); reflexivity.
    + cbn [raise except_handler]. rewrite E429. cbn [negb].
      rewrite andb_true_r.
      destruct ((400 <=? status_code response) && (status_code response <? 500));
        [reflexivity |].
      destruct (attempt =? max_retries - 1); [reflexivity |].
      unfold bind, then_next, ret.
      destruct (backoff env attempt (called env req w)) as [[a | e |] w3]; reflexivity.
Qed.

(** An attempt that got through [acquire] makes exactly one HTTP call and
    leaves the rate limiter as it is. *)
Lemma attempt_after_acquire_frame (env : Env) (req : Request)
  (max_retries attempt : Z) (w : World) :
  calls (snd (attempt_after_acquire env req max_retries attempt w)) = S (calls w) /\
  rate_limiter (snd (attempt_after_acquire env req max_retries attempt w))
    = rate_limiter w.
Proof.
  assert (B : forall w0,
            calls (snd (then_next (backoff env attempt w0))) = calls w0 /\
            rate_limiter (snd (then_next (backoff env attempt w0))) = rate_limiter w0).
  { intros w0. destruct (backoff_frame env attempt w0) as (B1 & B2 & _).
    destruct (backoff env attempt w0) as [[a | e |] w3]; cbn in *; auto. }
  assert (S0 : forall d w0,
            calls (snd (then_next (asyncio_sleep d w0))) = calls w0 /\
            rate_limiter (snd (then_next (asyncio_sleep d w0))) = rate_limiter w0).
  { intros [d | [|] |] w0; cbn; auto. }
  destruct (transport env (calls w) req) as [response | |] eqn:E.
  - rewrite (attempt_after_response env req max_retries attempt w response E).
    destruct (status_code response =? 429).
    { destruct (float_of_str _) as [d | e]; [apply (S0 d (called env req w)) | cbn; auto]. }
    destruct ((200 <=? status_code response) && (status_code response <=? 299)).
    { destruct (json response); cbn; auto. }
    destruct ((400 <=? status_code response) && (status_code response <? 500));
      [cbn; auto |].
    destruct (attempt =? max_retries - 1); [cbn; auto |].
    apply (B (called env req w)).
  - rewrite (attempt_after_timeout env req max_retries attempt w E).
    destruct (attempt =? max_retries - 1); [cbn; auto |].
    apply (B (called env req w)).
  - rewrite (attempt_after_failure env req max_retries attempt w E). cbn. auto.
Qed.

(** One attempt makes at most one HTTP call, and goes on to the next attempt
    only after it made one. *)
Lemma attempt_body_calls (env : Env) (fuel : nat) (req : Request)
  (max_retries attempt : Z) (w : World) :
  (calls (snd (attempt_body env fuel req max_retries attempt w)) = calls w /\
   fst (attempt_body env fuel req max_retries attempt w) <> Return Next /\
   forall data,
     fst (attempt_body env fuel req max_retries attempt w) <> Return (Done data))
  \/
  (exists w1 : World,
     acquire fuel 1 w = (Return tt, w1) /\
     attempt_body env fuel req max_retries attempt w
       = attempt_after_acquire env req max_retries attempt w1 /\
     calls w1 = calls w /\
     calls (snd (attempt_body env fuel req max_retries attempt w)) = S (calls w)).
Proof.
  rewrite attempt_body_unfold.
  destruct (acquire_frame fuel 1 w) as (F1 & _).
  destruct (acquire fuel 1 w) as [[[] | e |] w1] eqn:E; cbn in F1.
  - right. exists w1. split; [reflexivity |]. split; [reflexivity |].
    split; [exact F1 |].
    destruct (attempt_after_acquire_frame env req max_retries attempt w1) as (C & _).
    rewrite C, F1. reflexivity.
  - left. cbn. repeat split; auto; discriminate.
  - left. cbn. repeat split; auto; discriminate.
Qed.

(* ===================================================================== *)
(** * [_request]: the retry loop *)
(* ===================================================================== *)

Lemma request_loop_cons (env : Env) (fuel : nat) (req : Request)
  (max_retries attempt : Z) (rest : list Z) (w : World) :
  request_loop env fuel req max_retries (attempt :: rest) w =
    match attempt_body env fuel req max_retries attempt w with
    | (Return (Done data), w1) => (Return data, w1)
    | (Return Next, w1) => request_loop env fuel req max_retries rest w1
    | (Raise e, w1) => (Raise e, w1)
    | (Pending, w1) => (Pending, w1)
    end.
Proof.
  cbn [request_loop]. unfold bind.
  destruct (attempt_body env fuel req max_retries attempt w) as [[[data |] | e |] w1];
    reflexivity.
Qed.

(** The loop makes at most one HTTP call per attempt. *)
Lemma request_loop_ceiling (env : Env) (fuel : nat) (req : Request)
  (max_retries : Z) (attempts : list Z) (w : World) :
  (calls w <= calls (snd (request_loop env fuel req max_retries attempts w))
     <= calls w + List.length attempts)%nat.
Proof.
  revert w. induction attempts as [| attempt rest IH]; intros w; [cbn; lia |].
  rewrite request_loop_cons.
  destruct (attempt_body_calls env fuel req max_retries attempt w)
    as [(C & _ & _) | (w1 & _ & _ & _ & C)];
    destruct (attempt_body env fuel req max_retries attempt w)
      as [[[data |] | e |] w2]; cbn [fst snd List.length] in *; try lia;
    specialize (IH w2); lia.
Qed.

(** A response with a 4xx status other than 429 ends the request: when the
    call with index [i] is made and gets such a response, its
    [HTTPStatusError] is the outcome and no call follows. *)
Lemma request_loop_client_error (env : Env) (fuel : nat) (req : Request)
  (max_retries : Z) (attempts : list Z) (w : World) (i : nat) (response : Response) :
  transport env i req = HttpResponse response ->
  400 <= status_code response < 500 -> status_code response <> 429 ->
  (calls w <= i < calls (snd (request_loop env fuel req max_retries attempts w)))%nat ->
  fst (request_loop env fuel req max_retries attempts w)
    = Raise (HTTPStatusError response) /\
  calls (snd (request_loop env fuel req max_retries attempts w)) = S i.
Proof.
  intros Hresp Hstatus Hnot429.
  revert w. induction attempts as [| attempt rest IH]; intros w Hi; [cbn in Hi; lia |].
  rewrite request_loop_cons in *.
  destruct (attempt_body_calls env fuel req max_retries attempt w)
    as [(C & HN & HD) | (w1 & _ & E & C1 & C)].
  - destruct (attempt_body env fuel req max_retries attempt w)
      as [[[data |] | e |] w2]; cbn [fst snd] in *; try lia.
    exfalso. apply HN. reflexivity.
  - destruct (Nat.eq_dec i (calls w)) as [-> | Hne].
    + rewrite E in *. rewrite <- C1 in Hresp.
      rewrite (attempt_after_response env req max_retries attempt w1 response Hresp)
        in *.
      assert (E1 : (status_code response =? 429) = false) by (apply Z.eqb_neq; lia).
      assert (E2 : ((200 <=? status_code response) && (status_code response <=? 299))
                   = false).
      { apply andb_false_iff. right. apply Z.leb_gt. lia. }
      assert (E3 : ((400 <=? status_code response) && (status_code response <? 500))
                   = true).
      { apply andb_true_iff. split; [apply Z.leb_le | apply Z.ltb_lt]; lia. }
      rewrite E1, E2, E3 in *. cbn in *. split; [reflexivity | lia].
    + destruct (attempt_body env fuel req max_retries attempt w)
        as [[[data |] | e |] w2]; cbn [fst snd] in *; try lia.
      apply IH. lia.
Qed.

(** The last allowed attempt does not retry: when all [m] attempts of the
    loop made their call and the last call failed by a timeout or a 5xx
    response, that failure is the outcome. *)
Lemma request_loop_last_failure (env : Env) (fuel : nat) (req : Request)
  (m k : nat) (w : World) (e : Exc) :
  (1 <= m)%nat ->
  calls (snd (request_loop env fuel req (Z.of_nat (k + m))
                           (map Z.of_nat (seq k m)) w)) = (calls w + m)%nat ->
  retryable_failure (transport env (calls w + m - 1) req) = Some e ->
  fst (request_loop env fuel req (Z.of_nat (k + m)) (map Z.of_nat (seq k m)) w)
    = Raise e.
Proof.
  revert k w. induction m as [| m IH]; intros k w Hm Hcalls Hfail; [lia |].
  cbn [seq map] in *. rewrite request_loop_cons in *.
  destruct (attempt_body_calls env fuel req (Z.of_nat (k + S m)) (Z.of_nat k) w)
    as [(C & HN & HD) | (w1 & _ & E & C1 & C)].
  - destruct (attempt_body env fuel req _ (Z.of_nat k) w)
      as [[[data |] | e0 |] w2]; cbn [fst snd] in *; try lia.
    exfalso. apply HN. reflexivity.
  - destruct m as [| m].
    + (* the last attempt *)
      replace (calls w + 1 - 1)%nat with (calls w1) in Hfail by lia.
      rewrite E in *.
      assert (Elast : (Z.of_nat k =? Z.of_nat (k + 1) - 1) = true)
        by (apply Z.eqb_eq; lia).
      destruct (transport env (calls w1) req) as [response | |] eqn:T;
        cbn in Hfail; try discriminate.
      * rewrite (attempt_after_response env req _ _ w1 response T).
        destruct ((500 <=? status_code response) && (status_code response <=? 599))
          eqn:E5; [| discriminate].
        injection Hfail as <-.
        apply andb_true_iff in E5 as (L1 & L2).
        apply Z.leb_le in L1. apply Z.leb_le in L2.
        assert (E1 : (status_code response =? 429) = false) by (apply Z.eqb_neq; lia).
        assert (E2 : ((200 <=? status_code response) && (status_code response <=? 299))
                     = false).
        { apply andb_false_iff. right. apply Z.leb_gt. lia. }
        assert (E3 : ((400 <=? status_code response) && (status_code response <? 500))
                     = false).
        { apply andb_false_iff. right. apply Z.ltb_ge. lia. }
        rewrite E1, E2, E3, Elast. reflexivity.
      * injection Hfail as <-.
        rewrite (attempt_after_timeout env req _ _ w1 T), Elast. reflexivity.
    + (* an earlier attempt *)
      destruct (attempt_body env fuel req _ (Z.of_nat k) w)
        as [[[data |] | e0 |] w2]; cbn [fst snd] in *; try lia.
      replace (k + S (S m))%nat with (S k + S m)%nat in * by lia.
      apply IH; [lia | lia |].
      replace (calls w2 + S m - 1)%nat with (calls w + S (S m) - 1)%nat by lia.
      exact Hfail.
Qed.

(** With a ready limiter (and fuel for two passes) [acquire()] returns and
    leaves the limiter ready. *)
Lemma acquire_one_ready (fuel : nat) (w : World) :
  limiter_ready (rate_limiter w) -> (2 <= fuel)%nat ->
  exists (w1 : World) (sleeps : list Event),
    acquire fuel 1 w = (Return tt, w1) /\
    limiter_ready (rate_limiter w1) /\
    calls w1 = calls w /\ draws w1 = draws w /\
    trace w1 = EvUnlock :: sleeps ++ EvLock :: trace w /\
    forallb is_sleep sleeps = true.
Proof.
  intros (Hr & Hc & Ht) Hfuel.
  destruct (acquire_returns fuel 1 w Ht Hr ltac:(lia) ltac:(lia) Hfuel)
    as (w1 & sl & E & Etr & Hsl & _ & C & D & Ht1 & R1 & C1).
  exists w1, sl. unfold limiter_ready. rewrite R1, C1. auto 10.
Qed.

(** An attempt whose call fails by a timeout or a 5xx response: the failure
    is raised at the last allowed attempt, and the retry branch runs
    otherwise. *)
Lemma attempt_body_retryable (env : Env) (fuel : nat) (req : Request)
  (max_retries attempt : Z) (w : World) (e : Exc) :
  limiter_ready (rate_limiter w) -> (2 <= fuel)%nat ->
  retryable_failure (transport env (calls w) req) = Some e ->
  exists w1 : World,
    acquire fuel 1 w = (Return tt, w1) /\
    limiter_ready (rate_limiter w1) /\ calls w1 = calls w /\
    attempt_body env fuel req max_retries attempt w =
      if attempt =? max_retries - 1 then (Raise e, called env req w1)
      else then_next (backoff env attempt (called env req w1)).
Proof.
  intros Hready Hfuel Hfail.
  destruct (acquire_one_ready fuel w Hready Hfuel) as (w1 & sl & E & R1 & C1 & _).
  exists w1. split; [exact E |]. split; [exact R1 |]. split; [exact C1 |].
  rewrite attempt_body_unfold, E. rewrite <- C1 in Hfail.
  destruct (transport env (calls w1) req) as [response | |] eqn:T;
    cbn in Hfail; try discriminate.
  - rewrite (attempt_after_response env req _ _ w1 response T).
    destruct ((500 <=? status_code response) && (status_code response <=? 599))
      eqn:E5; [| discriminate].
    injection Hfail as <-.
    apply andb_true_iff in E5 as (L1 & L2).
    apply Z.leb_le in L1. apply Z.leb_le in L2.
    assert (E1 : (status_code response =? 429) = false) by (apply Z.eqb_neq; lia).
    assert (E2 : ((200 <=? status_code response) && (status_code response <=? 299))
                 = false).
    { apply andb_false_iff. right. apply Z.leb_gt. lia. }
    assert (E3 : ((400 <=? status_code response) && (status_code response <? 500))
                 = false).
    { apply andb_false_iff. right. apply Z.ltb_ge. lia. }
    rewrite E1, E2, E3. reflexivity.
  - injection Hfail as <-.
    rewrite (attempt_after_timeout env req _ _ w1 T). reflexivity.
Qed.

(** A request whose every call fails by a timeout or a 5xx response.  With
    at most 1025 attempts all of them are made and the last failure is the
    outcome.  The attempt with index 1024, when it is not the last, ends the
    request with [OverflowError]: [base_delay * (2 ** 1024)] cannot be
    computed. *)
Lemma request_loop_always_failing (env : Env) (fuel : nat) (req : Request) :
  (2 <= fuel)%nat ->
  (forall i : nat, retryable_failure (transport env i req) <> None) ->
  forall (m k : nat) (w : World),
    limiter_ready (rate_limiter w) -> (1 <= m)%nat ->
    ((k + m <= 1025)%nat ->
       calls (snd (request_loop env fuel req (Z.of_nat (k + m))
                                (map Z.of_nat (seq k m)) w)) = (calls w + m)%nat /\
       exists e : Exc,
         retryable_failure (transport env (calls w + m - 1) req) = Some e /\
         fst (request_loop env fuel req (Z.of_nat (k + m))
                           (map Z.of_nat (seq k m)) w) = Raise e)
    /\
    ((k <= 1024 < k + m - 1)%nat ->
       calls (snd (request_loop env fuel req (Z.of_nat (k + m))
                                (map Z.of_nat (seq k m)) w))
         = (calls w + (1025 - k))%nat /\
       fst (request_loop env fuel req (Z.of_nat (k + m))
                         (map Z.of_nat (seq k m)) w) = Raise OverflowError).
Proof.
  intros Hfuel Hall m. induction m as [| m IH]; intros k w Hready Hm; [lia |].
  cbn [seq map]. rewrite request_loop_cons.
  destruct (retryable_failure (transport env (calls w) req)) as [e |] eqn:Hfail;
    [| exfalso; exact (Hall _ Hfail)].
  destruct (attempt_body_retryable env fuel req (Z.of_nat (k + S m)) (Z.of_nat k)
              w e Hready Hfuel Hfail) as (w1 & _ & R1 & C1 & ->).
  destruct m as [| m].
  - (* the last attempt *)
    assert (Elast : (Z.of_nat k =? Z.of_nat (k + 1) - 1) = true)
      by (apply Z.eqb_eq; lia).
    rewrite Elast. cbn [fst snd called calls]. split; [| lia].
    intros _. split; [lia |]. exists e. split; [| reflexivity].
    replace (calls w + 1 - 1)%nat with (calls w) by lia. exact Hfail.
  - assert (Elast : (Z.of_nat k =? Z.of_nat (k + S (S m)) - 1) = false)
      by (apply Z.eqb_neq; lia).
    rewrite Elast.
    destruct (le_lt_dec 1024 k) as [Hbig | Hsmall].
    + rewrite backoff_overflow by lia. cbn [then_next fst snd called calls].
      split; [lia |]. intros Hk. split; [lia | reflexivity].
    + destruct (backoff_ok env (Z.of_nat k) (called env req w1) ltac:(lia))
        as (wt & -> & _).
      cbn [then_next].
      set (w2 := after_sleep wt (drawn (called env req w1))).
      assert (R2 : limiter_ready (rate_limiter w2)) by exact R1.
      assert (C2 : calls w2 = S (calls w)) by (cbn; lia).
      replace (k + S (S m))%nat with (S k + S m)%nat by lia.
      destruct (IH (S k) w2 R2 ltac:(lia)) as (I1 & I2).
      split.
      * intros Hk. destruct (I1 ltac:(lia)) as (Hc & e' & He' & Hr).
        split; [lia |]. exists e'. split; [| exact Hr].
        replace (calls w + S (S m) - 1)%nat with (calls w2 + S m - 1)%nat by lia.
        exact He'.
      * intros Hk. destruct (I2 ltac:(lia)) as (Hc & Hr).
        split; [lia | exact Hr].
Qed.

(** A request whose every call is answered 429 with a usable [Retry-After]:
    every attempt is made, each waits as the server says, and the loop ends
    with the exhausted-retries error. *)
Lemma request_loop_rate_limited (env : Env) (fuel : nat) (req : Request)
  (max_retries : Z) :
  (2 <= fuel)%nat ->
  (forall i : nat, rate_limited (transport env i req)) ->
  forall (attempts : list Z) (w : World),
    limiter_ready (rate_limiter w) ->
    fst (request_loop env fuel req max_retries attempts w)
      = Raise (RetriesExhausted max_retries) /\
    calls (snd (request_loop env fuel req max_retries attempts w))
      = (calls w + List.length attempts)%nat.
Proof.
  intros Hfuel Hall attempts.
  induction attempts as [| attempt rest IH]; intros w Hready; [cbn; split; [reflexivity | lia] |].
  rewrite request_loop_cons.
  destruct (acquire_one_ready fuel w Hready Hfuel) as (w1 & sl & E & R1 & C1 & _).
  destruct (Hall (calls w1)) as (response & d & T & S429 & Hd).
  rewrite attempt_body_unfold, E.
  rewrite (attempt_after_response env req _ _ w1 response T).
  rewrite S429, Hd. cbn [Z.eqb Pos.eqb then_next asyncio_sleep].
  destruct (IH (after_sleep d (called env req w1)) R1) as (I1 & I2).
  unfold after_sleep in *. rewrite I1, I2. cbn. split; [reflexivity | lia].
Qed.

Lemma request_unfold (env : Env) (fuel : nat) (self : DonetickClient)
  (method path : string) (max_retries : Z) (kwargs : list (string * Json)) (w : World) :
  1 <= max_retries ->
  _request env fuel self method path max_retries kwargs w =
    request_loop env fuel (mkRequest method (base_url self ++ path) kwargs)
                 (Z.of_nat (0 + Z.to_nat max_retries))
                 (map Z.of_nat (seq 0 (Z.to_nat max_retries))) w.
Proof.
  intros H. unfold _request, range.
  replace (Z.of_nat (0 + Z.to_nat max_retries)) with max_retries by lia.
  reflexivity.
Qed.

(** C1, as the code has it ([DonetickClient._request]).  A request run
    with [max_retries = N] makes at most [N] HTTP calls (none for [N <= 0]),
    however its attempts end.  When all [N] calls were made and the last one
    failed by a timeout or a 5xx response, that failure is raised to the
    caller: the last allowed attempt is never retried.  A request whose
    calls all fail so, with [N >= 1] and a ready rate limiter, ends with a
    raised error; for [1 <= N <= 1025] it makes exactly [N] calls and raises
    the [N]-th failure. *)
Theorem request_retry_ceiling :
  forall (env : Env) (fuel : nat) (self : DonetickClient) (method path : string)
         (max_retries : Z) (kwargs : list (string * Json)) (w : World),
    let req := mkRequest method (base_url self ++ path) kwargs in
    let run := _request env fuel self method path max_retries kwargs w in
    let n := Z.to_nat max_retries in
    (calls (snd run) <= calls w + n)%nat /\
    (forall e : Exc,
       (1 <= n)%nat -> calls (snd run) = (calls w + n)%nat ->
       retryable_failure (transport env (calls w + n - 1) req) = Some e ->
       fst run = Raise e) /\
    (limiter_ready (rate_limiter w) -> (2 <= fuel)%nat -> 1 <= max_retries ->
     (forall i : nat, retryable_failure (transport env i req) <> None) ->
       (exists e : Exc, fst run = Raise e) /\
       (max_retries <= 1025 ->
          calls (snd run) = (calls w + n)%nat /\
          exists e : Exc,
            retryable_failure (transport env (calls w + n - 1) req) = Some e /\
            fst run = Raise e)).
Proof.
  intros env fuel self method path max_retries kwargs w req run n.
  split; [| split].
  - subst run n. unfold _request, range. fold req.
    pose proof (request_loop_ceiling env fuel req max_retries
                  (map Z.of_nat (seq 0 (Z.to_nat max_retries))) w) as H.
    rewrite length_map, length_seq in H. lia.
  - intros e Hn Hcalls Hfail. subst run n.
    rewrite request_unfold in * by lia. fold req in Hcalls |- *.
    apply (request_loop_last_failure env fuel req _ 0 w e Hn Hcalls Hfail).
  - intros Hready Hfuel Hn Hall. subst run n.
    rewrite request_unfold by lia. fold req.
    destruct (request_loop_always_failing env fuel req Hfuel Hall
                (Z.to_nat max_retries) 0 w Hready ltac:(lia)) as (L1 & L2).
    split.
    + destruct (Z_le_gt_dec max_retries 1025) as [Hs | Hb].
      * destruct (L1 ltac:(lia)) as (_ & e & _ & Hr). exists e. exact Hr.
      * destruct (L2 ltac:(lia)) as (_ & Hr). exists OverflowError. exact Hr.
    + intros Hs. destruct (L1 ltac:(lia)) as (Hc & e & He & Hr).
      split; [exact Hc |]. exists e. split; [exact He | exact Hr].
Qed.

(** C2 ([DonetickClient._request]).  A response with a status in 400-499
    other than 429 is fatal: when a call of the request gets one, the
    request raises [HTTPStatusError] with that response (its status code and
    body) and makes no further call.  When it answers the first call, the
    request makes exactly one call. *)
Theorem client_error_is_not_retried :
  forall (env : Env) (fuel : nat) (self : DonetickClient) (method path : string)
         (max_retries : Z) (kwargs : list (string * Json)) (w : World)
         (response : Response),
    400 <= status_code response < 500 -> status_code response <> 429 ->
    let req := mkRequest method (base_url self ++ path) kwargs in
    let run := _request env fuel self method path max_retries kwargs w in
    (forall i : nat,
       transport env i req = HttpResponse response ->
       (calls w <= i < calls (snd run))%nat ->
       fst run = Raise (HTTPStatusError response) /\ calls (snd run) = S i) /\
    (transport env (calls w) req = HttpResponse response ->
     limiter_ready (rate_limiter w) -> (2 <= fuel)%nat -> 1 <= max_retries ->
       fst run = Raise (HTTPStatusError response) /\ calls (snd run) = S (calls w)).
Proof.
  intros env fuel self method path max_retries kwargs w response Hs H429 req run.
  assert (Hgen : forall i : nat,
            transport env i req = HttpResponse response ->
            (calls w <= i < calls (snd run))%nat ->
            fst run = Raise (HTTPStatusError response) /\ calls (snd run) = S i).
  { intros i T Hi. subst run. unfold _request in *. fold req in Hi |- *.
    apply (request_loop_client_error env fuel req max_retries _ w i response T Hs H429 Hi). }
  split; [exact Hgen |].
  intros T Hready Hfuel Hn. apply Hgen; [exact T |].
  subst run. rewrite request_unfold by lia. fold req.
  destruct (Z.to_nat max_retries) as [| m] eqn:Em; [lia |].
  cbn [seq map]. rewrite request_loop_cons.
  destruct (acquire_one_ready fuel w Hready Hfuel) as (w1 & sl & E & _ & C1 & _).
  rewrite attempt_body_unfold, E. rewrite <- C1 in T.
  rewrite (attempt_after_response env req _ _ w1 response T).
  assert (E1 : (status_code response =? 429) = false) by (apply Z.eqb_neq; lia).
  assert (E2 : ((200 <=? status_code response) && (status_code response <=? 299))
               = false).
  { apply andb_false_iff. right. apply Z.leb_gt. lia. }
  assert (E3 : ((400 <=? status_code response) && (status_code response <? 500))
               = true).
  { apply andb_true_iff. split; [apply Z.leb_le | apply Z.ltb_lt]; lia. }
  rewrite E1, E2, E3. cbn. lia.
Qed.

Lemma headers_get_absent (hs : list (string * string)) (key default : string) :
  (forall h, In h hs -> lower (fst h) <> lower key) ->
  headers_get hs key default = default.
Proof.
  intros H. unfold headers_get.
  assert (E : filter (fun h => (lower (fst h) =? lower key)%string) hs = []).
  { induction hs as [| h hs IH]; [reflexivity |]. cbn.
    destruct (String.eqb_spec (lower (fst h)) (lower key)) as [Heq | Hne].
    - exfalso. exact (H h (or_introl eq_refl) Heq).
    - apply IH. intros h' Hin. apply H. right. exact Hin. }
  rewrite E. reflexivity.
Qed.

(** C3, as the code has it ([DonetickClient._request]).  On a response
    with status 429 the [Retry-After] header is read, [60] standing for an
    absent header.  When the value reads as a finite number of seconds, the
    attempt suspends for exactly that delay, draws no jitter (no exponential
    backoff), and the loop goes on with the attempts that are left: the
    retry uses up one attempt. *)
Theorem rate_limit_response_waits_retry_after :
  forall (env : Env) (fuel : nat) (req : Request) (max_retries attempt : Z)
         (rest : list Z) (w : World) (response : Response),
    limiter_ready (rate_limiter w) -> (2 <= fuel)%nat ->
    transport env (calls w) req = HttpResponse response ->
    status_code response = 429 ->
    exists w1 : World,
      acquire fuel 1 w = (Return tt, w1) /\
      (forall delay : Q,
         float_of_str (headers_get (headers response) "Retry-After" "60")
           = Ok (Finite delay) ->
         attempt_body env fuel req max_retries attempt w
           = (Return Next, after_sleep delay (called env req w1)) /\
         request_loop env fuel req max_retries (attempt :: rest) w
           = request_loop env fuel req max_retries rest
                          (after_sleep delay (called env req w1)) /\
         draws (after_sleep delay (called env req w1)) = draws w /\
         calls (after_sleep delay (called env req w1)) = S (calls w)) /\
      ((forall h, In h (headers response) -> lower (fst h) <> lower "Retry-After") ->
         attempt_body env fuel req max_retries attempt w
           = (Return Next, after_sleep 60 (called env req w1))).
Proof.
  intros env fuel req max_retries attempt rest w response Hready Hfuel T S429.
  destruct (acquire_one_ready fuel w Hready Hfuel) as (w1 & sl & E & _ & C1 & D1 & _).
  exists w1. split; [exact E |].
  rewrite <- C1 in T.
  assert (Hbody : forall delay : Q,
            float_of_str (headers_get (headers response) "Retry-After" "60")
              = Ok (Finite delay) ->
            attempt_body env fuel req max_retries attempt w
              = (Return Next, after_sleep delay (called env req w1))).
  { intros delay Hd. rewrite attempt_body_unfold, E.
    rewrite (attempt_after_response env req _ _ w1 response T).
    rewrite S429, Hd. reflexivity. }
  split.
  - intros delay Hd. split; [exact (Hbody delay Hd) |]. split.
    + rewrite request_loop_cons, (Hbody delay Hd). reflexivity.
    + cbn. split; [exact D1 | rewrite C1; reflexivity].
  - intros Habsent. apply Hbody.
    rewrite (headers_get_absent _ _ _ Habsent). reflexivity.
Qed.

(** C9, as the code has it ([DonetickClient._request]).  An attempt that
    ends without a value and without an exception hands over to the
    attempts that are left, and the loop that has no attempt left raises the
    exhausted-retries error.  When every call is answered 429 with a
    [Retry-After] header that is absent or reads as a finite number, no
    attempt raises: all [max_retries] calls are made and the request ends
    with the exhausted-retries error. *)
Theorem exhausted_after_rate_limited_attempts :
  forall (env : Env) (fuel : nat) (self : DonetickClient) (method path : string)
         (max_retries : Z) (kwargs : list (string * Json)) (w : World),
    limiter_ready (rate_limiter w) -> (2 <= fuel)%nat ->
    (forall i : nat,
       rate_limited (transport env i (mkRequest method (base_url self ++ path) kwargs))) ->
    let req := mkRequest method (base_url self ++ path) kwargs in
    let run := _request env fuel self method path max_retries kwargs w in
    (forall w0 : World,
       request_loop env fuel req max_retries [] w0
         = (Raise (RetriesExhausted max_retries), w0)) /\
    (forall (attempt : Z) (rest : list Z) (w0 w1 : World),
       attempt_body env fuel req max_retries attempt w0 = (Return Next, w1) ->
       request_loop env fuel req max_retries (attempt :: rest) w0
         = request_loop env fuel req max_retries rest w1) /\
    fst run = Raise (RetriesExhausted max_retries) /\
    calls (snd run) = (calls w + Z.to_nat max_retries)%nat.
Proof.
  intros env fuel self method path max_retries kwargs w Hready Hfuel Hall req run.
  split; [reflexivity |]. split.
  { intros attempt rest w0 w1 E. rewrite request_loop_cons, E. reflexivity. }
  subst run. unfold _request, range. fold req.
  destruct (request_loop_rate_limited env fuel req max_retries Hfuel Hall
              (map Z.of_nat (seq 0 (Z.to_nat max_retries))) w Hready) as (H1 & H2).
  rewrite length_map, length_seq in H2. split; assumption.
Qed.

(** The suspension of the retry branch, for an attempt index below 1024:
    [d + j] with [d = min(1.0 * 2^attempt, 60.0)] and [|j| <= 0.25 * d]. *)
Lemma backoff_wait_bounds (env : Env) (attempt : Z) (w : World) :
  0 <= attempt < 1024 ->
  (0 <= random_random env (draws w) <= 1)%Q ->
  exists wait_time jitter : Q,
    backoff env attempt w = (Return tt, after_sleep wait_time (drawn w)) /\
    (wait_time == backoff_delay attempt + jitter)%Q /\
    (Qabs jitter <= (1 # 4) * backoff_delay attempt)%Q /\
    ((3 # 4) * backoff_delay attempt <= wait_time
       <= (5 # 4) * backoff_delay attempt)%Q.
Proof.
  intros Hk Hu.
  destruct (backoff_ok env attempt w Hk) as (wt & E & Hwt).
  exists wt, (backoff_delay attempt * jitter_factor env w)%Q.
  split; [exact E |]. split; [exact Hwt |].
  assert (Hd : (0 <= backoff_delay attempt)%Q).
  { unfold backoff_delay, base_delay. apply Q.min_glb; [| lra].
    assert (0 <= 2 ^ attempt) by (apply Z.pow_nonneg; lia).
    assert (0 <= inject_Z (2 ^ attempt))%Q by (apply (inject_Z_le 0); assumption).
    lra. }
  set (d := backoff_delay attempt) in *.
  set (r := random_random env (draws w)) in *.
  assert (Hj : (- ((1 # 4) * d) <= d * jitter_factor env w <= (1 # 4) * d)%Q).
  { unfold jitter_factor. fold r.
    setoid_replace (d * (- (1 # 4) + ((1 # 4) - - (1 # 4)) * r))%Q
      with (- ((1 # 4) * d) + (1 # 2) * (d * r))%Q by ring.
    assert (0 <= d * r)%Q by (apply Qmult_le_0_compat; lra).
    assert (d * r <= d)%Q by nra.
    lra. }
  split.
  - apply Qabs_Qle_condition. exact Hj.
  - rewrite Hwt. lra.
Qed.

(** The retry after a timeout or a 5xx response on an attempt that is not
    the last and whose index is below 1024: the attempt suspends for
    [d + j], [d = min(1.0 * 2^attempt, 60.0)], [|j| <= 0.25 * d], and the
    loop goes on. *)
Lemma retry_suspension_bounds (env : Env) (fuel : nat) (req : Request)
  (max_retries attempt : Z) (w : World) (e : Exc) :
  limiter_ready (rate_limiter w) -> (2 <= fuel)%nat ->
  retryable_failure (transport env (calls w) req) = Some e ->
  attempt <> max_retries - 1 -> 0 <= attempt < 1024 ->
  (0 <= random_random env (draws w) <= 1)%Q ->
  exists (w1 : World) (wait_time jitter : Q),
    acquire fuel 1 w = (Return tt, w1) /\
    attempt_body env fuel req max_retries attempt w
      = (Return Next, after_sleep wait_time (drawn (called env req w1))) /\
    (wait_time == backoff_delay attempt + jitter)%Q /\
    (Qabs jitter <= (1 # 4) * backoff_delay attempt)%Q /\
    ((3 # 4) * backoff_delay attempt <= wait_time
       <= (5 # 4) * backoff_delay attempt)%Q.
Proof.
  intros Hready Hfuel Hfail Hnotlast Hk Hu.
  destruct (attempt_body_retryable env fuel req max_retries attempt w e
              Hready Hfuel Hfail) as (w1 & E & _ & _ & Hbody).
  destruct (acquire_one_ready fuel w Hready Hfuel) as (w1' & sl & E' & _ & _ & D1 & _).
  assert (w1' = w1) by congruence. subst w1'.
  assert (Hu1 : (0 <= random_random env (draws (called env req w1)) <= 1)%Q).
  { cbn [called draws]. rewrite D1. exact Hu. }
  destruct (backoff_wait_bounds env attempt (called env req w1) Hk Hu1)
    as (wt & j & Eb & H1 & H2 & H3).
  exists w1, wt, j. split; [exact E |]. split; [| auto].
  rewrite Hbody.
  assert (Enl : (attempt =? max_retries - 1) = false) by (apply Z.eqb_neq; exact Hnotlast).
  rewrite Enl, Eb. reflexivity.
Qed.

(** With 1026 allowed attempts and calls that all time out, the request
    ends at the attempt with index 1024. *)
Lemma always_timing_out_1026 :
  fst (_request (constant_env HttpTimeout) 2 sample_client "GET" "/eapi/v1/chore"
                1026 [] (world_of full_bucket)) = Raise OverflowError /\
  calls (snd (_request (constant_env HttpTimeout) 2 sample_client "GET"
                       "/eapi/v1/chore" 1026 [] (world_of full_bucket))) = 1025%nat.
Proof.
  assert (Hready : limiter_ready (rate_limiter (world_of full_bucket))).
  { unfold limiter_ready. cbn. split; [reflexivity |]. split; [| exact I].
    split; [lia | vm_compute; reflexivity]. }
  rewrite request_unfold by lia.
  destruct (request_loop_always_failing (constant_env HttpTimeout) 2
              (mkRequest "GET" (base_url sample_client ++ "/eapi/v1/chore") [])
              ltac:(lia) ltac:(intros i; discriminate)
              (Z.to_nat 1026) 0 (world_of full_bucket) Hready ltac:(lia))
    as (_ & H).
  destruct H as (Hc & Hr); [lia |].
  split; [exact Hr |]. rewrite Hc. reflexivity.
Qed.

(* ===================================================================== *)
(** * The HTTP calls of a request *)
(* ===================================================================== *)

Lemma extends_refl (req : Request) (w : World) : extends req w w.
Proof. exists []. split; [reflexivity | constructor]. Qed.

Lemma requests_of_app (a b : list Event) :
  requests_of (a ++ b) = requests_of a ++ requests_of b.
Proof. unfold requests_of. apply flat_map_app. Qed.

Lemma extends_trans (req : Request) (w1 w2 w3 : World) :
  extends req w1 w2 -> extends req w2 w3 -> extends req w1 w3.
Proof.
  intros (n1 & E1 & F1) (n2 & E2 & F2). exists (n2 ++ n1).
  split.
  - rewrite E2, E1, app_assoc. reflexivity.
  - rewrite requests_of_app. apply Forall_app. split; assumption.
Qed.

Lemma requests_of_sleeps (sleeps : list Event) :
  forallb is_sleep sleeps = true -> requests_of sleeps = [].
Proof.
  induction sleeps as [| ev sleeps IH]; intros H; [reflexivity |].
  cbn in H. apply andb_true_iff in H as (H1 & H2).
  destruct ev; try discriminate. cbn. exact (IH H2).
Qed.

Lemma acquire_extends (req : Request) (fuel : nat) (n : Z) (w : World) :
  extends req w (snd (acquire fuel n w)).
Proof.
  destruct (acquire_frame fuel n w) as (_ & _ & _ & _ & sl & F1 & F2 & _).
  assert (R : requests_of sl = []) by (apply requests_of_sleeps, F1).
  destruct (fst (acquire fuel n w)).
  - exists (EvUnlock :: sl ++ [EvLock]). split.
    + rewrite F2. cbn. rewrite <- app_assoc. reflexivity.
    + cbn. rewrite requests_of_app, R. constructor.
  - exists (EvUnlock :: sl ++ [EvLock]). split.
    + rewrite F2. cbn. rewrite <- app_assoc. reflexivity.
    + cbn. rewrite requests_of_app, R. constructor.
  - exists (sl ++ [EvLock]). split.
    + rewrite F2, <- app_assoc. reflexivity.
    + rewrite requests_of_app, R. constructor.
Qed.

Lemma sleep_extends (req : Request) (delay : pyfloat) (w : World) :
  extends req w (snd (then_next (asyncio_sleep delay w))).
Proof.
  destruct delay as [d | [|] |]; cbn.
  - exists [EvSleep (Finite d)]. split; [reflexivity | constructor].
  - exists [EvSleep (Infinity true)]. split; [reflexivity | constructor].
  - exists [EvSleep (Infinity false)]. split; [reflexivity | constructor].
  - apply extends_refl.
Qed.

Lemma backoff_extends (env : Env) (req : Request) (attempt : Z) (w : World) :
  extends req w (snd (then_next (backoff env attempt w))).
Proof.
  rewrite backoff_unfold.
  destruct (float_of_int (2 ^ attempt)) as [scaled | e]; cbn.
  - eexists [EvSleep _]. split; [reflexivity | constructor].
  - apply extends_refl.
Qed.

Lemma called_extends (env : Env) (req : Request) (w : World) :
  extends req w (called env req w).
Proof.
  exists [EvRequest req]. split; [reflexivity |].
  cbn. constructor; [reflexivity | constructor].
Qed.

Lemma attempt_after_acquire_extends (env : Env) (req : Request)
  (max_retries attempt : Z) (w : World) :
  extends req w (snd (attempt_after_acquire env req max_retries attempt w)).
Proof.
  pose proof (called_extends env req w) as C.
  assert (B : extends req w (snd (then_next (backoff env attempt (called env req w)))))
    by (eapply extends_trans; [exact C | apply backoff_extends]).
  destruct (transport env (calls w) req) as [response | |] eqn:E.
  - rewrite (attempt_after_response env req max_retries attempt w response E).
    destruct (status_code response =? 429).
    { destruct (float_of_str _) as [d | e]; [| exact C].
      eapply extends_trans; [exact C | apply sleep_extends]. }
    destruct ((200 <=? status_code response) && (status_code response <=? 299)).
    { destruct (json response); exact C. }
    destruct ((400 <=? status_code response) && (status_code response <? 500));
      [exact C |].
    destruct (attempt =? max_retries - 1); [exact C | exact B].
  - rewrite (attempt_after_timeout env req max_retries attempt w E).
    destruct (attempt =? max_retries - 1); [exact C | exact B].
  - rewrite (attempt_after_failure env req max_retries attempt w E). exact C.
Qed.

Lemma attempt_body_extends (env : Env) (fuel : nat) (req : Request)
  (max_retries attempt : Z) (w : World) :
  extends req w (snd (attempt_body env fuel req max_retries attempt w)).
Proof.
  rewrite attempt_body_unfold.
  pose proof (acquire_extends req fuel 1 w) as A.
  destruct (acquire fuel 1 w) as [[a | e |] w1]; cbn [snd] in *; try exact A.
  eapply extends_trans; [exact A | apply attempt_after_acquire_extends].
Qed.

(** Every HTTP call of the retry loop is the call of the request. *)
Lemma request_loop_extends (env : Env) (fuel : nat) (req : Request)
  (max_retries : Z) (attempts : list Z) (w : World) :
  extends req w (snd (request_loop env fuel req max_retries attempts w)).
Proof.
  revert w. induction attempts as [| attempt rest IH]; intros w;
    [apply extends_refl |].
  rewrite request_loop_cons.
  pose proof (attempt_body_extends env fuel req max_retries attempt w) as A.
  destruct (attempt_body env fuel req max_retries attempt w)
    as [[[data |] | e |] w1]; cbn [snd] in *; try exact A.
  eapply extends_trans; [exact A | apply IH].
Qed.

Lemma requests_of_rev (events : list Event) :
  requests_of (rev events) = rev (requests_of events).
Proof.
  induction events as [| ev events IH]; [reflexivity |].
  cbn [rev]. rewrite requests_of_app, IH.
  destruct ev; cbn; rewrite ?app_nil_r; reflexivity.
Qed.

Lemma find_chore_spec (chore_id : Z) (chores : list Chore) :
  match find (fun chore => id chore =? chore_id) chores with
  | Some chore =>
      In chore chores /\ id chore = chore_id
  | None => forall chore, In chore chores -> id chore <> chore_id
  end.
Proof.
  destruct (find _ chores) as [chore |] eqn:E.
  - apply find_some in E as (Hin & Heq). apply Z.eqb_eq in Heq. auto.
  - intros chore Hin Heq.
    pose proof (find_none _ _ E chore Hin) as H. cbn in H.
    apply Z.eqb_neq in H. contradiction.
Qed.

(** C10 ([DonetickClient.get_chore]).  [get_chore(chore_id)] is one
    logical request, [GET /eapi/v1/chore] with the default three attempts:
    every HTTP call it makes is that [GET] of the list endpoint.  From the
    chores of the list it returns the first whose [id] is [chore_id], and
    [None], without raising, when no chore of the list has that [id]. *)
Theorem get_chore_searches_the_list :
  forall (env : Env) (validate : list (string * Json) -> option Chore)
         (fuel : nat) (self : DonetickClient) (chore_id : Z) (w : World),
    let req := mkRequest "GET" (base_url self ++ "/eapi/v1/chore") [] in
    let run := get_chore env validate fuel self chore_id w in
    run =
      match _request env fuel self "GET" "/eapi/v1/chore" 3 [] w with
      | (Return data, w1) =>
          match chores_of_data validate data with
          | Ok chores =>
              (Return (find (fun chore => id chore =? chore_id) chores), w1)
          | Err e => (Raise e, w1)
          end
      | (Raise e, w1) => (Raise e, w1)
      | (Pending, w1) => (Pending, w1)
      end /\
    Forall (fun r => r = req) (requests_of (events_since w (snd run))) /\
    (calls (snd run) <= calls w + 3)%nat /\
    (forall (data : Json) (w1 : World) (chores : list Chore),
       _request env fuel self "GET" "/eapi/v1/chore" 3 [] w = (Return data, w1) ->
       chores_of_data validate data = Ok chores ->
       ((exists chore, In chore chores /\ id chore = chore_id) ->
          exists chore,
            run = (Return (Some chore), w1) /\ In chore chores /\ id chore = chore_id) /\
       ((forall chore, In chore chores -> id chore <> chore_id) ->
          run = (Return None, w1))).
Proof.
  intros env validate fuel self chore_id w req run.
  assert (Hrun : run =
      match _request env fuel self "GET" "/eapi/v1/chore" 3 [] w with
      | (Return data, w1) =>
          match chores_of_data validate data with
          | Ok chores =>
              (Return (find (fun chore => id chore =? chore_id) chores), w1)
          | Err e => (Raise e, w1)
          end
      | (Raise e, w1) => (Raise e, w1)
      | (Pending, w1) => (Pending, w1)
      end).
  { subst run. unfold get_chore, list_chores, bind, lift, ret.
    destruct (_request env fuel self "GET" "/eapi/v1/chore" 3 [] w)
      as [[data | e |] w1]; try reflexivity.
    destruct (chores_of_data validate data); reflexivity. }
  assert (Hsnd : snd run = snd (_request env fuel self "GET" "/eapi/v1/chore" 3 [] w)).
  { rewrite Hrun.
    destruct (_request env fuel self "GET" "/eapi/v1/chore" 3 [] w)
      as [[data | e |] w1]; try reflexivity.
    destruct (chores_of_data validate data); reflexivity. }
  split; [exact Hrun |].
  assert (Hext : extends req w (snd run)).
  { rewrite Hsnd. unfold _request. fold req. apply request_loop_extends. }
  destruct Hext as (new & Etr & Hreq).
  rewrite (events_since_app w (snd run) new Etr).
  split; [| split].
  - rewrite requests_of_rev. apply Forall_rev. exact Hreq.
  - rewrite Hsnd. unfold _request. fold req.
    pose proof (request_loop_ceiling env fuel req 3 (range 3) w) as H.
    change (List.length (range 3)) with 3%nat in H. lia.
  - intros data w1 chores Hreq1 Hdata.
    rewrite Hrun, Hreq1, Hdata.
    pose proof (find_chore_spec chore_id chores) as F.
    destruct (find _ chores) as [chore |] eqn:E.
    + destruct F as (Hin & Hid). split.
      * intros _. exists chore. auto.
      * intros Hnone. exfalso. exact (Hnone chore Hin Hid).
    + split.
      * intros (chore & Hin & Hid). exfalso. exact (F chore Hin Hid).
      * intros _. reflexivity.
Qed.

(* ===================================================================== *)
(** * Concrete runs *)
(* ===================================================================== *)

Lemma full_bucket_ready : limiter_ready (rate_limiter (world_of full_bucket)).
Proof.
  unfold limiter_ready. cbn. split; [reflexivity |]. split; [| exact I].
  split; [lia | vm_compute; reflexivity].
Qed.

Lemma empty_bucket_ready : limiter_ready (rate_limiter (world_of empty_bucket)).
Proof.
  unfold limiter_ready. cbn. split; [reflexivity |]. split; [| exact I].
  split; [lia | vm_compute; reflexivity].
Qed.

(** C1, against the specification's statement.  With [max_retries = 0] a request whose
    calls would all time out makes no call and raises the
    exhausted-retries error: no failure of a call is propagated.  With
    [max_retries = 1026] the request ends after 1025 calls. *)
Lemma request_without_an_nth_failure :
  _request (constant_env HttpTimeout) 2 sample_client "GET" "/eapi/v1/chore" 0 []
           (world_of full_bucket)
    = (Raise (RetriesExhausted 0), world_of full_bucket) /\
  fst (_request (constant_env HttpTimeout) 2 sample_client "GET" "/eapi/v1/chore"
                1026 [] (world_of full_bucket)) = Raise OverflowError /\
  calls (snd (_request (constant_env HttpTimeout) 2 sample_client "GET"
                       "/eapi/v1/chore" 1026 [] (world_of full_bucket))) = 1025%nat.
Proof. split; [reflexivity | exact always_timing_out_1026]. Qed.

(** Three attempts that all time out: three calls, then the timeout. *)
Lemma request_retry_ceiling_witness :
  fst (_request (constant_env HttpTimeout) 2 sample_client "GET" "/eapi/v1/chore" 3 []
                (world_of full_bucket)) = Raise TimeoutException /\
  calls (snd (_request (constant_env HttpTimeout) 2 sample_client "GET"
                       "/eapi/v1/chore" 3 [] (world_of full_bucket))) = 3%nat.
Proof.
  destruct (request_retry_ceiling (constant_env HttpTimeout) 2 sample_client "GET"
              "/eapi/v1/chore" 3 [] (world_of full_bucket)) as (_ & _ & H).
  destruct H as (_ & H).
  - exact full_bucket_ready.
  - lia.
  - lia.
  - intros i. discriminate.
  - destruct H as (Hc & e & He & Hr); [lia |].
    cbn in He. injection He as <-. split; [exact Hr | exact Hc].
Defined.

(** A 404 at the first call: one call, and the error carries the response. *)
Lemma client_error_is_not_retried_witness :
  fst (_request (constant_env (HttpResponse not_found)) 2 sample_client "GET"
                "/eapi/v1/chore" 3 [] (world_of full_bucket))
    = Raise (HTTPStatusError not_found) /\
  calls (snd (_request (constant_env (HttpResponse not_found)) 2 sample_client "GET"
                       "/eapi/v1/chore" 3 [] (world_of full_bucket))) = 1%nat.
Proof.
  destruct (client_error_is_not_retried (constant_env (HttpResponse not_found)) 2
              sample_client "GET" "/eapi/v1/chore" 3 [] (world_of full_bucket) not_found)
    as (_ & H).
  - cbn. lia.
  - cbn. lia.
  - apply H.
    + reflexivity.
    + exact full_bucket_ready.
    + lia.
    + lia.
Defined.

(** C3, against the specification's statement.  A 429 response whose [Retry-After] is an
    HTTP date: the specification's delay is 60 seconds, but the attempt
    raises [ValueError] from [float(...)] and never suspends. *)
Lemma rate_limit_unparsable_header_raises :
  spec_retry_after (too_many_requests http_date) = Finite 60 /\
  fst (attempt_body (constant_env (HttpResponse (too_many_requests http_date))) 2
                    (mkRequest "GET" "https://test.donetick.com/eapi/v1/chore" [])
                    3 0 (world_of full_bucket))
    = Raise (ValueError http_date) /\
  existsb is_sleep
    (trace (snd (attempt_body
                   (constant_env (HttpResponse (too_many_requests http_date))) 2
                   (mkRequest "GET" "https://test.donetick.com/eapi/v1/chore" [])
                   3 0 (world_of full_bucket)))) = false.
Proof. vm_compute. repeat split. Qed.

(** A 429 response with [Retry-After: 0.1]: the attempt waits a tenth of a
    second and the loop goes on. *)
Lemma rate_limit_response_waits_retry_after_witness :
  exists w1 : World,
    attempt_body (constant_env (HttpResponse (too_many_requests "0.1"))) 2
                 (mkRequest "GET" "https://test.donetick.com/eapi/v1/chore" [])
                 3 0 (world_of full_bucket)
      = (Return Next,
         after_sleep (1 # 10)
           (called (constant_env (HttpResponse (too_many_requests "0.1")))
                   (mkRequest "GET" "https://test.donetick.com/eapi/v1/chore" []) w1)).
Proof.
  destruct (rate_limit_response_waits_retry_after
              (constant_env (HttpResponse (too_many_requests "0.1"))) 2
              (mkRequest "GET" "https://test.donetick.com/eapi/v1/chore" [])
              3 0 [] (world_of full_bucket) (too_many_requests "0.1"))
    as (w1 & _ & H & _).
  - exact full_bucket_ready.
  - lia.
  - reflexivity.
  - reflexivity.
  - exists w1. destruct (H (1 # 10)%Q) as (Hb & _); [reflexivity | exact Hb].
Defined.

(** Five of ten tokens are taken at once. *)
Lemma acquire_refills_then_takes_or_waits_witness :
  exists remaining : pynum,
    acquire 1 5 (world_of full_bucket)
      = (Return tt,
         mkWorld 0 (mkTokenBucket 10 10 remaining 0) 0 0 [EvUnlock; EvLock]) /\
    (num_val remaining == 5)%Q.
Proof.
  destruct (acquire_refills_then_takes_or_waits 0 5 (world_of full_bucket))
    as (H & _).
  - exact I.
  - reflexivity.
  - vm_compute. reflexivity.
  - cbn. lia.
  - destruct H as (remaining & E & Hv).
    + vm_compute. discriminate.
    + exists remaining. split; [exact E |]. rewrite Hv. vm_compute. reflexivity.
Defined.

(** A bucket of ten after two calls of [acquire(7)] half a second apart. *)
Lemma tokens_stay_within_capacity_witness :
  (0 <= num_val (tokens (rate_limiter
          (bucket_session 3 [((1 # 2)%Q, 7%Z); (0%Q, 7%Z)] (world_of full_bucket))))
     <= 10)%Q.
Proof.
  destruct (tokens_stay_within_capacity 10 10 0 full_bucket) as (_ & H & _).
  - vm_compute. discriminate.
  - lia.
  - reflexivity.
  - destruct (H 3%nat [((1 # 2)%Q, 7%Z); (0%Q, 7%Z)] 0%nat 0%nat []) as (_ & Hv).
    + repeat constructor; cbn; try lia; vm_compute; discriminate.
    + exact Hv.
Defined.

(** C6, against the specification's statement.  [acquire(11)] on a bucket of capacity
    ten never raises, whatever the number of passes observed. *)
Lemma acquire_beyond_capacity_does_not_fail :
  ~ (exists (fuel : nat) (e : Exc),
       fst (acquire fuel 11 (world_of full_bucket)) = Raise e).
Proof.
  intros (fuel & e & H).
  assert (P : fst (acquire fuel 11 (world_of full_bucket)) = Pending).
  { apply acquire_starved.
    - exact I.
    - reflexivity.
    - cbn [world_of rate_limiter full_bucket capacity]. lia.
    - cbn [world_of rate_limiter full_bucket capacity].
      split; [lia | vm_compute; reflexivity]. }
  congruence.
Qed.

Lemma acquire_beyond_capacity_never_ends_witness :
  fst (acquire 5 11 (world_of full_bucket)) = Pending.
Proof.
  destruct (acquire_beyond_capacity_never_ends 5 11 (world_of full_bucket))
    as (H & _).
  - exact I.
  - reflexivity.
  - cbn [world_of rate_limiter full_bucket capacity]. lia.
  - cbn [world_of rate_limiter full_bucket capacity].
    split; [lia | vm_compute; reflexivity].
  - exact H.
Defined.

(** C8, against the specification's statement.  [acquire(1)] on a drained bucket
    suspends, and not outside the lock. *)
Lemma acquire_sleeps_inside_the_lock :
  events_since (world_of empty_bucket) (snd (acquire 2 1 (world_of empty_bucket)))
    = [EvLock; EvSleep (Finite ((1 - 0) / 10)); EvUnlock] /\
  sleeps_outside_lock false
    (events_since (world_of empty_bucket) (snd (acquire 2 1 (world_of empty_bucket))))
    = false.
Proof. vm_compute. split; reflexivity. Qed.

(** One pass of [acquire(1)] on a drained bucket: the caller is suspended
    and the lock is not free. *)
Lemma acquire_suspends_holding_the_lock_witness :
  sleeps_inside_lock false
    (events_since (world_of empty_bucket) (snd (acquire 1 1 (world_of empty_bucket))))
    = true.
Proof.
  destruct (acquire_suspends_holding_the_lock 1 1 (world_of empty_bucket))
    as (sleeps & _ & _ & H & _).
  exact H.
Defined.

(** C9, against the specification's statement.  Every call is answered 429, with a
    [Retry-After] that is an HTTP date: the first attempt raises
    [ValueError], two attempts before the retries are exhausted. *)
Lemma rate_limited_request_raises_before_exhaustion :
  fst (_request (constant_env (HttpResponse (too_many_requests http_date))) 2
                sample_client "GET" "/eapi/v1/chore" 3 [] (world_of full_bucket))
    = Raise (ValueError http_date) /\
  calls (snd (_request (constant_env (HttpResponse (too_many_requests http_date))) 2
                       sample_client "GET" "/eapi/v1/chore" 3 []
                       (world_of full_bucket))) = 1%nat.
Proof. vm_compute. split; reflexivity. Qed.

Lemma exhausted_after_rate_limited_attempts_witness :
  fst (_request (constant_env (HttpResponse (too_many_requests "0.1"))) 2
                sample_client "GET" "/eapi/v1/chore" 3 [] (world_of full_bucket))
    = Raise (RetriesExhausted 3) /\
  calls (snd (_request (constant_env (HttpResponse (too_many_requests "0.1"))) 2
                       sample_client "GET" "/eapi/v1/chore" 3 []
                       (world_of full_bucket))) = 3%nat.
Proof.
  destruct (exhausted_after_rate_limited_attempts
              (constant_env (HttpResponse (too_many_requests "0.1"))) 2
              sample_client "GET" "/eapi/v1/chore" 3 [] (world_of full_bucket))
    as (_ & _ & H1 & H2).
  - exact full_bucket_ready.
  - lia.
  - intros i. exists (too_many_requests "0.1"), (1 # 10)%Q. repeat split.
  - split; [exact H1 | exact H2].
Defined.

(** C7, where the code leaves the specification.  With [max_retries = 1026] and
    calls that all time out, the attempt with index 1024 is not the last
    one; its handler evaluates [base_delay * (2 ** 1024)], which raises
    [OverflowError] (the integer does not fit a float): there is no
    suspension and no next attempt, and the request ends after 1025
    calls. *)
Theorem backoff_overflows_at_attempt_1024 :
  backoff (constant_env HttpTimeout) 1024 (world_of full_bucket)
    = (Raise OverflowError, world_of full_bucket) /\
  fst (_request (constant_env HttpTimeout) 2 sample_client "GET" "/eapi/v1/chore"
                1026 [] (world_of full_bucket)) = Raise OverflowError /\
  calls (snd (_request (constant_env HttpTimeout) 2 sample_client "GET"
                       "/eapi/v1/chore" 1026 [] (world_of full_bucket))) = 1025%nat.
Proof.
  split; [apply backoff_overflow; lia | exact always_timing_out_1026].
Qed.

(** The list has a chore 2 and no chore 999. *)
Lemma get_chore_searches_the_list_witness :
  fst (get_chore
         (constant_env (HttpResponse (mkResponse 200 [] "" (Some sample_listing))))
         sample_validate 2 sample_client 2 (world_of full_bucket))
    = Return (Some (mkChore 2 "Test Chore" true 1 [("id"%string, JInt 2)])) /\
  fst (get_chore
         (constant_env (HttpResponse (mkResponse 200 [] "" (Some sample_listing))))
         sample_validate 2 sample_client 999 (world_of full_bucket))
    = Return None.
Proof.
  split.
  - destruct (get_chore_searches_the_list
                (constant_env (HttpResponse (mkResponse 200 [] "" (Some sample_listing))))
                sample_validate 2 sample_client 2 (world_of full_bucket))
      as (H & _).
    rewrite H. vm_compute. reflexivity.
  - destruct (get_chore_searches_the_list
                (constant_env (HttpResponse (mkResponse 200 [] "" (Some sample_listing))))
                sample_validate 2 sample_client 999 (world_of full_bucket))
      as (H & _).
    rewrite H. vm_compute. reflexivity.
Defined.

(* ===================================================================== *)
(** * [_request]: the outcomes that end it *)
(* ===================================================================== *)

(** When whatever attempt makes the call number [i] ends there, the request
    ends with that outcome, after that call. *)
Lemma request_loop_stops_at (env : Env) (fuel : nat) (req : Request)
  (max_retries : Z) (attempts : list Z) (w : World) (i : nat)
  (s : Outcome Step) (out : Outcome Json) :
  (forall (attempt : Z) (w1 : World),
     calls w1 = i -> fst (attempt_after_acquire env req max_retries attempt w1) = s) ->
  request_outcome s = Some out ->
  (calls w <= i < calls (snd (request_loop env fuel req max_retries attempts w)))%nat ->
  fst (request_loop env fuel req max_retries attempts w) = out /\
  calls (snd (request_loop env fuel req max_retries attempts w)) = S i.
Proof.
  intros Hs Hout.
  revert w. induction attempts as [| attempt rest IH]; intros w Hi; [cbn in Hi; lia |].
  rewrite request_loop_cons in *.
  destruct (attempt_body_calls env fuel req max_retries attempt w)
    as [(C & HN & HD) | (w1 & _ & E & C1 & C)].
  - destruct (attempt_body env fuel req max_retries attempt w)
      as [[[data |] | e |] w2]; cbn [fst snd] in *; try lia.
    exfalso. apply HN. reflexivity.
  - destruct (Nat.eq_dec i (calls w)) as [-> | Hne].
    + rewrite E in *.
      pose proof (Hs attempt w1 C1) as Hs1.
      destruct (attempt_after_acquire env req max_retries attempt w1)
        as [[[data |] | e |] w2]; cbn [fst snd] in *; subst s; cbn in Hout;
        try discriminate; injection Hout as <-; split; try reflexivity; lia.
    + destruct (attempt_body env fuel req max_retries attempt w)
        as [[[data |] | e |] w2]; cbn [fst snd] in *; try lia.
      apply IH. lia.
Qed.

(** X1 ([DonetickClient._request]).  A call answered with a success status
    (2xx) ends the request: the parsed body is returned, and a body that is
    not JSON raises [JSONDecodeError]; in both cases no further call is
    made, whatever attempts are left. *)
Theorem success_response_ends_the_request :
  forall (env : Env) (fuel : nat) (self : DonetickClient) (method path : string)
         (max_retries : Z) (kwargs : list (string * Json)) (w : World)
         (i : nat) (response : Response),
    let req := mkRequest method (base_url self ++ path) kwargs in
    let run := _request env fuel self method path max_retries kwargs w in
    transport env i req = HttpResponse response ->
    200 <= status_code response <= 299 ->
    (calls w <= i < calls (snd run))%nat ->
    fst run = match json response with
              | Some data => Return data
              | None => Raise JSONDecodeError
              end /\
    calls (snd run) = S i.
Proof.
  intros env fuel self method path max_retries kwargs w i response req run
         Hresp Hstatus Hi.
  subst run. unfold _request in *. fold req in Hi |- *.
  assert (E1 : (status_code response =? 429) = false) by (apply Z.eqb_neq; lia).
  assert (E2 : ((200 <=? status_code response) && (status_code response <=? 299))
               = true).
  { apply andb_true_iff. split; apply Z.leb_le; lia. }
  destruct (json response) as [data |] eqn:J.
  - apply (request_loop_stops_at env fuel req max_retries _ w i (Return (Done data)));
      [| reflexivity | exact Hi].
    intros attempt w1 C1. rewrite <- C1 in Hresp.
    rewrite (attempt_after_response env req max_retries attempt w1 response Hresp).
    rewrite E1, E2, J. reflexivity.
  - apply (request_loop_stops_at env fuel req max_retries _ w i (Raise JSONDecodeError));
      [| reflexivity | exact Hi].
    intros attempt w1 C1. rewrite <- C1 in Hresp.
    rewrite (attempt_after_response env req max_retries attempt w1 response Hresp).
    rewrite E1, E2, J. reflexivity.
Qed.

(** X2 ([DonetickClient._request]).  A transport failure that is not a
    timeout (a connection error, say) is not retried: no [except] clause
    matches it, so it is raised at once and no further call is made. *)
Theorem transport_failure_is_not_retried :
  forall (env : Env) (fuel : nat) (self : DonetickClient) (method path : string)
         (max_retries : Z) (kwargs : list (string * Json)) (w : World) (i : nat),
    let req := mkRequest method (base_url self ++ path) kwargs in
    let run := _request env fuel self method path max_retries kwargs w in
    transport env i req = HttpFailure ->
    (calls w <= i < calls (snd run))%nat ->
    fst run = Raise TransportError /\ calls (snd run) = S i.
Proof.
  intros env fuel self method path max_retries kwargs w i req run Hfail Hi.
  subst run. unfold _request in *. fold req in Hi |- *.
  apply (request_loop_stops_at env fuel req max_retries _ w i (Raise TransportError));
    [| reflexivity | exact Hi].
  intros attempt w1 C1. rewrite <- C1 in Hfail.
  rewrite (attempt_after_failure env req max_retries attempt w1 Hfail). reflexivity.
Qed.

(** An attempt whose call is answered with a status outside 200-299 and
    400-499: the [HTTPStatusError] of [raise_for_status] is raised at the
    last allowed attempt, and the retry branch runs otherwise. *)
Lemma attempt_body_other_status (env : Env) (fuel : nat) (req : Request)
  (max_retries attempt : Z) (w : World) (response : Response) :
  limiter_ready (rate_limiter w) -> (2 <= fuel)%nat ->
  transport env (calls w) req = HttpResponse response ->
  ~ 200 <= status_code response <= 299 -> ~ 400 <= status_code response <= 499 ->
  exists w1 : World,
    acquire fuel 1 w = (Return tt, w1) /\
    limiter_ready (rate_limiter w1) /\ calls w1 = calls w /\
    attempt_body env fuel req max_retries attempt w =
      if attempt =? max_retries - 1
      then (Raise (HTTPStatusError response), called env req w1)
      else then_next (backoff env attempt (called env req w1)).
Proof.
  intros Hready Hfuel T H2 H4.
  destruct (acquire_one_ready fuel w Hready Hfuel) as (w1 & sl & E & R1 & C1 & _).
  exists w1. split; [exact E |]. split; [exact R1 |]. split; [exact C1 |].
  rewrite attempt_body_unfold, E. rewrite <- C1 in T.
  rewrite (attempt_after_response env req _ _ w1 response T).
  assert (E1 : (status_code response =? 429) = false) by (apply Z.eqb_neq; lia).
  assert (E2 : ((200 <=? status_code response) && (status_code response <=? 299))
               = false).
  { destruct (Z.leb_spec 200 (status_code response));
      destruct (Z.leb_spec (status_code response) 299); cbn; try reflexivity; lia. }
  assert (E3 : ((400 <=? status_code response) && (status_code response <? 500))
               = false).
  { destruct (Z.leb_spec 400 (status_code response));
      destruct (Z.ltb_spec (status_code response) 500); cbn; try reflexivity; lia. }
  rewrite E1, E2, E3. reflexivity.
Qed.

Lemma request_loop_other_statuses (env : Env) (fuel : nat) (req : Request) :
  (2 <= fuel)%nat ->
  (forall i : nat, exists response : Response,
      transport env i req = HttpResponse response /\
      ~ 200 <= status_code response <= 299 /\ ~ 400 <= status_code response <= 499) ->
  forall (m k : nat) (w : World),
    limiter_ready (rate_limiter w) -> (1 <= m)%nat -> (k + m <= 1025)%nat ->
    calls (snd (request_loop env fuel req (Z.of_nat (k + m))
                             (map Z.of_nat (seq k m)) w)) = (calls w + m)%nat /\
    exists response : Response,
      transport env (calls w + m - 1) req = HttpResponse response /\
      fst (request_loop env fuel req (Z.of_nat (k + m)) (map Z.of_nat (seq k m)) w)
        = Raise (HTTPStatusError response).
Proof.
  intros Hfuel Hall m. induction m as [| m IH]; intros k w Hready Hm Hk; [lia |].
  cbn [seq map]. rewrite request_loop_cons.
  destruct (Hall (calls w)) as (response & T & H2 & H4).
  destruct (attempt_body_other_status env fuel req (Z.of_nat (k + S m)) (Z.of_nat k)
              w response Hready Hfuel T H2 H4) as (w1 & _ & R1 & C1 & ->).
  destruct m as [| m].
  - assert (Elast : (Z.of_nat k =? Z.of_nat (k + 1) - 1) = true)
      by (apply Z.eqb_eq; lia).
    rewrite Elast. cbn [fst snd called calls]. split; [lia |].
    exists response. split; [| reflexivity].
    replace (calls w + 1 - 1)%nat with (calls w) by lia. exact T.
  - assert (Elast : (Z.of_nat k =? Z.of_nat (k + S (S m)) - 1) = false)
      by (apply Z.eqb_neq; lia).
    rewrite Elast.
    destruct (backoff_ok env (Z.of_nat k) (called env req w1) ltac:(lia))
      as (wt & -> & _).
    cbn [then_next].
    set (w2 := after_sleep wt (drawn (called env req w1))).
    assert (R2 : limiter_ready (rate_limiter w2)) by exact R1.
    assert (C2 : calls w2 = S (calls w)) by (cbn; lia).
    replace (k + S (S m))%nat with (S k + S m)%nat by lia.
    destruct (IH (S k) w2 R2 ltac:(lia) ltac:(lia)) as (Hc & r' & Hr' & Hr).
    split; [lia |]. exists r'. split; [| exact Hr].
    replace (calls w + S (S m) - 1)%nat with (calls w2 + S m - 1)%nat by lia.
    exact Hr'.
Qed.

(** X3 ([DonetickClient._request]).  The second handler retries every
    status that [raise_for_status] rejects and that is not in 400-499: not
    only 5xx, but a redirect (3xx), an informational status (1xx) or a
    status of 600 and above as well.  A request whose calls are all answered
    so makes all its attempts (up to 1025) and raises the [HTTPStatusError]
    of the last response. *)
Theorem other_statuses_are_retried :
  forall (env : Env) (fuel : nat) (self : DonetickClient) (method path : string)
         (max_retries : Z) (kwargs : list (string * Json)) (w : World),
    let req := mkRequest method (base_url self ++ path) kwargs in
    let run := _request env fuel self method path max_retries kwargs w in
    limiter_ready (rate_limiter w) -> (2 <= fuel)%nat ->
    1 <= max_retries <= 1025 ->
    (forall i : nat, exists response : Response,
        transport env i req = HttpResponse response /\
        ~ 200 <= status_code response <= 299 /\
        ~ 400 <= status_code response <= 499) ->
    calls (snd run) = (calls w + Z.to_nat max_retries)%nat /\
    exists response : Response,
      transport env (calls w + Z.to_nat max_retries - 1) req = HttpResponse response /\
      fst run = Raise (HTTPStatusError response).
Proof.
  intros env fuel self method path max_retries kwargs w req run Hready Hfuel HN Hall.
  subst run. rewrite request_unfold by lia. fold req.
  apply (request_loop_other_statuses env fuel req Hfuel Hall); [exact Hready | lia | lia].
Qed.

(** X4 ([DonetickClient._request]).  A 429 response followed by a success:
    exactly two calls are made, between them the request is suspended for
    the [Retry-After] time and takes a second token, and the parsed body of
    the second response is returned. *)
Theorem rate_limited_then_success :
  forall (env : Env) (fuel : nat) (self : DonetickClient) (method path : string)
         (max_retries : Z) (kwargs : list (string * Json)) (w : World)
         (limited ok : Response) (delay : Q) (data : Json),
    let req := mkRequest method (base_url self ++ path) kwargs in
    let run := _request env fuel self method path max_retries kwargs w in
    limiter_ready (rate_limiter w) -> (2 <= fuel)%nat -> 2 <= max_retries ->
    transport env (calls w) req = HttpResponse limited ->
    status_code limited = 429 ->
    float_of_str (headers_get (headers limited) "Retry-After" "60") = Ok (Finite delay) ->
    transport env (S (calls w)) req = HttpResponse ok ->
    200 <= status_code ok <= 299 -> json ok = Some data ->
    fst run = Return data /\
    calls (snd run) = (calls w + 2)%nat /\
    exists w1 w2 : World,
      acquire fuel 1 w = (Return tt, w1) /\
      acquire fuel 1 (after_sleep delay (called env req w1)) = (Return tt, w2) /\
      snd run = called env req w2.
Proof.
  intros env fuel self method path max_retries kwargs w limited ok delay data req run
         Hready Hfuel HN T1 S429 Hd T2 S200 J.
  subst run. unfold _request, range. fold req.
  destruct (Z.to_nat max_retries) as [| [| m]] eqn:EN; try lia.
  cbn [seq map]. rewrite request_loop_cons.
  destruct (acquire_one_ready fuel w Hready Hfuel) as (w1 & sl & E & R1 & C1 & _).
  rewrite attempt_body_unfold, E. rewrite <- C1 in T1.
  rewrite (attempt_after_response env req _ _ w1 limited T1).
  rewrite S429, Hd. cbn [Z.eqb Pos.eqb then_next asyncio_sleep].
  fold (after_sleep delay (called env req w1)).
  set (w1' := after_sleep delay (called env req w1)).
  assert (R1' : limiter_ready (rate_limiter w1')) by exact R1.
  assert (C1' : calls w1' = S (calls w)) by (cbn; lia).
  rewrite request_loop_cons.
  destruct (acquire_one_ready fuel w1' R1' Hfuel) as (w2 & sl2 & E2 & R2 & C2 & _).
  rewrite attempt_body_unfold, E2.
  assert (T2' : transport env (calls w2) req = HttpResponse ok)
    by (rewrite C2, C1'; exact T2).
  rewrite (attempt_after_response env req _ _ w2 ok T2').
  assert (E1 : (status_code ok =? 429) = false) by (apply Z.eqb_neq; lia).
  assert (E20 : ((200 <=? status_code ok) && (status_code ok <=? 299)) = true).
  { apply andb_true_iff. split; apply Z.leb_le; lia. }
  rewrite E1, E20, J. cbn [fst snd].
  split; [reflexivity |]. split; [cbn; lia |].
  exists w1, w2. auto.
Qed.

Lemma request_loop_last_wait (env : Env) (fuel : nat) (req : Request)
  (max_retries : Z) :
  (2 <= fuel)%nat ->
  (forall i : nat, rate_limited (transport env i req)) ->
  forall (attempts : list Z) (w : World),
    limiter_ready (rate_limiter w) -> attempts <> [] ->
    exists (response : Response) (delay : Q) (w' : World),
      transport env (calls w + List.length attempts - 1) req = HttpResponse response /\
      float_of_str (headers_get (headers response) "Retry-After" "60")
        = Ok (Finite delay) /\
      request_loop env fuel req max_retries attempts w
        = (Raise (RetriesExhausted max_retries), after_sleep delay w').
Proof.
  intros Hfuel Hall attempts.
  induction attempts as [| attempt rest IH]; intros w Hready Hne; [congruence |].
  rewrite request_loop_cons.
  destruct (acquire_one_ready fuel w Hready Hfuel) as (w1 & sl & E & R1 & C1 & _).
  destruct (Hall (calls w1)) as (response & d & T & S429 & Hd).
  rewrite attempt_body_unfold, E.
  rewrite (attempt_after_response env req _ _ w1 response T).
  rewrite S429, Hd. cbn [Z.eqb Pos.eqb then_next asyncio_sleep].
  fold (after_sleep d (called env req w1)).
  destruct rest as [| next rest].
  - exists response, d, (called env req w1). cbn [List.length request_loop raise].
    split; [| split; [exact Hd | reflexivity]].
    replace (calls w + 1 - 1)%nat with (calls w1) by lia. exact T.
  - destruct (IH (after_sleep d (called env req w1)) R1 ltac:(discriminate))
      as (r' & d' & w' & T' & Hd' & Hrun).
    exists r', d', w'. split; [| split; [exact Hd' | exact Hrun]].
    cbn [List.length after_sleep advance emit called calls] in *.
    replace (calls w + S (S (List.length rest)) - 1)%nat
      with (S (calls w1) + S (List.length rest) - 1)%nat by lia.
    exact T'.
Qed.

(** X6 ([DonetickClient._request]).  A 429 response on the last allowed
    attempt is waited out like any other: when every call is answered 429
    with a usable [Retry-After], the request is suspended for the time the
    last response asks for and only then raises the exhausted-retries
    error, although no attempt is left to make. *)
Theorem exhaustion_follows_the_last_wait :
  forall (env : Env) (fuel : nat) (self : DonetickClient) (method path : string)
         (max_retries : Z) (kwargs : list (string * Json)) (w : World),
    let req := mkRequest method (base_url self ++ path) kwargs in
    let run := _request env fuel self method path max_retries kwargs w in
    limiter_ready (rate_limiter w) -> (2 <= fuel)%nat -> 1 <= max_retries ->
    (forall i : nat, rate_limited (transport env i req)) ->
    exists (response : Response) (delay : Q) (w' : World),
      transport env (calls w + Z.to_nat max_retries - 1) req = HttpResponse response /\
      float_of_str (headers_get (headers response) "Retry-After" "60")
        = Ok (Finite delay) /\
      run = (Raise (RetriesExhausted max_retries), after_sleep delay w').
Proof.
  intros env fuel self method path max_retries kwargs w req run Hready Hfuel HN Hall.
  subst run. unfold _request. fold req.
  assert (Hne : range max_retries <> []).
  { unfold range. destruct (Z.to_nat max_retries) eqn:EN; [lia | discriminate]. }
  destruct (request_loop_last_wait env fuel req max_retries Hfuel Hall
              (range max_retries) w Hready Hne) as (r & d & w' & T & Hd & Hrun).
  exists r, d, w'. split; [| split; [exact Hd | exact Hrun]].
  unfold range in T. rewrite length_map, length_seq in T. exact T.
Qed.

(* ===================================================================== *)
(** * [TokenBucket]: rates and counts the code does not check *)
(* ===================================================================== *)

(** X9 ([TokenBucket.acquire]).  A rate of zero is not rejected by
    [__init__]; the bucket then serves what it holds, and the first call
    that finds too few tokens raises [ZeroDivisionError] from the
    computation of the wait time.  The level is the clamped one, no token is
    taken, the caller is not suspended and the lock is released. *)
Theorem acquire_with_zero_rate_raises :
  forall (fuel : nat) (n : Z) (w : World),
    tokens_ok (rate_limiter w) ->
    0 <= capacity (rate_limiter w) < float_int_bound ->
    0 <= n < float_int_bound ->
    (rate (rate_limiter w) == 0)%Q ->
    (num_val (tokens (rate_limiter w)) < inject_Z n)%Q ->
    exists available : pynum,
      acquire (S fuel) n w
        = (Raise ZeroDivisionError,
           mkWorld (clock w)
                   (mkTokenBucket (rate (rate_limiter w)) (capacity (rate_limiter w))
                                  available (clock w))
                   (calls w) (draws w) (EvUnlock :: EvLock :: trace w)) /\
      (num_val available
         == Qmin (inject_Z (capacity (rate_limiter w)))
                 (num_val (tokens (rate_limiter w))))%Q.
Proof.
  intros fuel n w Ht Hc Hn Hr Hlt.
  set (b := rate_limiter w) in *.
  assert (Hsum : (num_val (tokens b) + (clock w - last_update b) * rate b
                  == num_val (tokens b))%Q) by (rewrite Hr; ring).
  assert (Href : (refilled b (clock w)
                  == Qmin (inject_Z (capacity b)) (num_val (tokens b)))%Q).
  { unfold refilled.
    destruct (Q.min_spec (inject_Z (capacity b))
                (num_val (tokens b) + (clock w - last_update b) * rate b))
      as [(L1 & ->) | (L1 & ->)];
      destruct (Q.min_spec (inject_Z (capacity b)) (num_val (tokens b)))
        as [(L2 & ->) | (L2 & ->)]; lra. }
  assert (Hle : (refilled b (clock w) < inject_Z n)%Q).
  { rewrite Href. apply Qle_lt_trans with (num_val (tokens b)); [apply Q.le_min_r | exact Hlt]. }
  destruct (acquire_iteration_refill b (clock w) n Ht Hc) as (av & Hav & Htag & E).
  assert (G : py_ge av (PyInt n) = false) by (apply py_ge_false; simpl; lra).
  assert (Z0 : Qeq_bool (rate b) 0 = true) by (apply Qeq_bool_iff; exact Hr).
  rewrite G in E.
  assert (E' : acquire_iteration b (clock w) n
               = (mkTokenBucket (rate b) (capacity b) av (clock w),
                  Failed ZeroDivisionError)).
  { rewrite E. destruct av as [z | q]; simpl in *.
    - subst z. unfold py_truediv_float. simpl.
      assert (Hcn : capacity b < n) by (rewrite Zlt_Qlt; lra).
      rewrite float_of_int_ok by lia. simpl. rewrite Z0. reflexivity.
    - unfold py_sub, py_arith, py_truediv_float. simpl.
      rewrite float_of_int_ok by lia. simpl. rewrite Z0. reflexivity. }
  exists av. split; [| rewrite Hav; exact Href].
  rewrite acquire_unfold, acquire_loop_S.
  cbn [emit clock rate_limiter]. fold b. rewrite E'. cbn [snd].
  unfold after_iteration. cbn [emit clock rate_limiter calls draws trace].
  fold b. rewrite E'. reflexivity.
Qed.

(** With a negative rate and too few tokens every pass asks for a sleep of
    negative length, which returns at once: the clock does not move and the
    next pass finds the same level. *)
Lemma acquire_loop_negative_rate (fuel : nat) (n : Z) (w : World) :
  tokens_ok (rate_limiter w) ->
  0 <= capacity (rate_limiter w) < float_int_bound ->
  0 <= n < float_int_bound ->
  (rate (rate_limiter w) < 0)%Q ->
  (refilled (rate_limiter w) (clock w) < inject_Z n)%Q ->
  fst (acquire_loop fuel n w) = Pending /\
  (clock (snd (acquire_loop fuel n w)) == clock w)%Q.
Proof.
  revert w. induction fuel as [| fuel IH]; intros w Ht Hc Hn Hr Hlt;
    [split; reflexivity |].
  set (b := rate_limiter w) in *.
  assert (Hr0 : ~ (rate b == 0)%Q) by lra.
  destruct (acquire_iteration_wait b (clock w) n Ht Hc Hn Hlt Hr0)
    as (av & wt & E & Hav & Htag & Hwt).
  assert (Hmul : (wt * rate b == inject_Z n - refilled b (clock w))%Q).
  { rewrite Hwt. field. exact Hr0. }
  assert (Hneg : (wt <= 0)%Q).
  { destruct (Qlt_le_dec 0 wt) as [L | L]; [| exact L]. exfalso. nra. }
  assert (Hq : Qle_bool wt 0 = true) by (apply Qle_bool_iff; exact Hneg).
  assert (Hcap : (refilled b (clock w) <= inject_Z (capacity b))%Q)
    by (unfold refilled; apply Q.le_min_l).
  rewrite acquire_loop_S. fold b. rewrite E. cbn [snd].
  unfold after_iteration. fold b. rewrite E. cbn [fst].
  unfold after_sleep. rewrite Hq.
  set (w2 := advance 0 _).
  assert (Hclk : (clock w2 == clock w)%Q) by (cbn; ring).
  destruct (IH w2) as (I1 & I2).
  - unfold tokens_ok. cbn. destruct av; [subst; lia | exact I].
  - exact Hc.
  - exact Hn.
  - exact Hr.
  - unfold refilled. cbn [w2 advance emit rate_limiter clock capacity tokens
                             last_update rate].
    eapply Qle_lt_trans; [apply Q.le_min_r |].
    setoid_replace ((clock w + 0 - clock w) * rate b)%Q with 0%Q by ring.
    lra.
  - split; [exact I1 | rewrite I2; exact Hclk].
Qed.

(** X10 ([TokenBucket.acquire]).  A negative rate is not rejected either.
    A call that finds too few tokens then never ends: every pass computes a
    wait time that is not positive, for which [asyncio.sleep] returns at
    once, and the level cannot rise.  However many passes are observed the
    call is still pending and holds the lock; it has been suspended once per
    pass without ever waiting (the clock, which moves with the waits only,
    is where it was). *)
Theorem acquire_with_negative_rate_never_ends :
  forall (fuel : nat) (n : Z) (w : World),
    tokens_ok (rate_limiter w) ->
    0 <= capacity (rate_limiter w) < float_int_bound ->
    0 <= n < float_int_bound ->
    (rate (rate_limiter w) < 0)%Q ->
    (refilled (rate_limiter w) (clock w) < inject_Z n)%Q ->
    fst (acquire fuel n w) = Pending /\
    (clock (snd (acquire fuel n w)) == clock w)%Q /\
    exists sleeps : list Event,
      trace (snd (acquire fuel n w)) = sleeps ++ EvLock :: trace w /\
      forallb is_sleep sleeps = true /\ List.length sleeps = fuel.
Proof.
  intros fuel n w Ht Hc Hn Hr Hlt.
  destruct (acquire_loop_negative_rate fuel n (emit EvLock w) Ht Hc Hn Hr Hlt)
    as (P & C).
  destruct (acquire_frame fuel n w) as (_ & _ & _ & _ & sl & F1 & F2 & F3).
  assert (HP : fst (acquire fuel n w) = Pending).
  { rewrite acquire_unfold.
    destruct (acquire_loop fuel n (emit EvLock w)) as [[a | e |] w1];
      cbn in *; congruence. }
  split; [exact HP |]. split.
  - rewrite acquire_unfold.
    destruct (acquire_loop fuel n (emit EvLock w)) as [[a | e |] w1];
      cbn in *; try discriminate. exact C.
  - exists sl. rewrite HP in F2. auto.
Qed.

(** X11 ([TokenBucket.acquire]).  The count is not checked for its sign.
    [acquire(n)] with a negative [n] returns at once and adds [-n] tokens
    to the refilled level, so that a full bucket ends above its capacity
    (until the next refill clamps it). *)
Theorem acquire_negative_count_adds_tokens :
  forall (fuel : nat) (n : Z) (w : World),
    world_inv w -> - float_int_bound < n < 0 ->
    exists remaining : pynum,
      acquire (S fuel) n w
        = (Return tt,
           mkWorld (clock w)
                   (mkTokenBucket (rate (rate_limiter w)) (capacity (rate_limiter w))
                                  remaining (clock w))
                   (calls w) (draws w) (EvUnlock :: EvLock :: trace w)) /\
      (num_val remaining == refilled (rate_limiter w) (clock w) - inject_Z n)%Q /\
      (num_val (tokens (rate_limiter w)) - inject_Z n <= num_val remaining)%Q /\
      ((num_val (tokens (rate_limiter w)) == inject_Z (capacity (rate_limiter w)))%Q ->
       (inject_Z (capacity (rate_limiter w)) < num_val remaining)%Q).
Proof.
  intros fuel n w (Hb & Hclk) Hn.
  set (b := rate_limiter w) in *.
  destruct (refilled_bounds b (clock w) Hb Hclk) as (B1 & B2 & B3).
  destruct Hb as (Hr & Hc & Ht & Hv).
  assert (Hn0 : (inject_Z n < 0)%Q) by (change 0%Q with (inject_Z 0); rewrite <- Zlt_Qlt; lia).
  destruct (acquire_iteration_refill b (clock w) n Ht Hc) as (av & Hav & Htag & E).
  assert (G : py_ge av (PyInt n) = true) by (apply py_ge_true; simpl; lra).
  rewrite G in E.
  assert (Habs : Z.abs n < float_int_bound) by lia.
  assert (E' : exists remaining : pynum,
             acquire_iteration b (clock w) n
               = (mkTokenBucket (rate b) (capacity b) remaining (clock w), Acquired) /\
             (num_val remaining == refilled b (clock w) - inject_Z n)%Q).
  { destruct av as [z | q]; simpl in *.
    - subst z. exists (PyInt (capacity b - n)). split; [exact E |].
      simpl. rewrite inject_Z_sub, <- Hav. reflexivity.
    - unfold py_sub, py_arith in E. simpl in E.
      rewrite (float_of_int_ok n Habs) in E. simpl in E.
      exists (PyFloat (q - inject_Z n)). split; [exact E |].
      simpl. rewrite Hav. reflexivity. }
  destruct E' as (rem & E' & Hrem).
  exists rem. split; [| split; [exact Hrem | split; [lra |]]].
  - rewrite acquire_unfold, acquire_loop_S.
    cbn [emit clock rate_limiter]. fold b. rewrite E'. cbn [snd].
    unfold after_iteration. cbn [emit clock rate_limiter calls draws trace].
    fold b. rewrite E'. reflexivity.
  - intros Hfull. lra.
Qed.

(* ===================================================================== *)
(** * [TokenBucket]: what the limiter grants *)
(* ===================================================================== *)

(** One pass never raises the budget, and a pass that takes [n] tokens
    lowers it by [n]. *)
Lemma acquire_iteration_budget (b : TokenBucket) (now : Q) (n : Z) :
  tokens_ok b -> 0 <= capacity b < float_int_bound -> 0 <= n ->
  tokens_ok (fst (acquire_iteration b now n)) /\
  rate (fst (acquire_iteration b now n)) = rate b /\
  capacity (fst (acquire_iteration b now n)) = capacity b /\
  (budget (fst (acquire_iteration b now n))
   + match snd (acquire_iteration b now n) with
     | Acquired => inject_Z n
     | _ => 0
     end
   <= budget b)%Q.
Proof.
  intros Ht Hc Hn.
  assert (Hsum : (refilled b now
                  <= num_val (tokens b) + (now - last_update b) * rate b)%Q)
    by (unfold refilled; apply Q.le_min_r).
  destruct (acquire_iteration_cases b now n Ht Hc Hn)
    as [(rem & Hle & E & Hrv & Htag) | (av & out & Hlt & E & Hout & Hav & Htag)];
    rewrite E; unfold budget, tokens_ok;
    cbn [fst snd tokens last_update capacity rate].
  - split; [exact Htag |]. split; [reflexivity |]. split; [reflexivity |].
    rewrite Hrv. lra.
  - split; [destruct av; [subst; lia | exact I] |].
    split; [reflexivity |]. split; [reflexivity |].
    rewrite Hav. destruct out; [congruence | lra | lra].
Qed.

Lemma acquire_loop_budget (fuel : nat) (n : Z) (w : World) :
  tokens_ok (rate_limiter w) -> 0 <= capacity (rate_limiter w) < float_int_bound ->
  0 <= n ->
  (budget (rate_limiter (snd (acquire_loop fuel n w)))
   + match fst (acquire_loop fuel n w) with
     | Return _ => inject_Z n
     | _ => 0
     end
   <= budget (rate_limiter w))%Q.
Proof.
  revert w. induction fuel as [| fuel IH]; intros w Ht Hc Hn; [cbn; lra |].
  destruct (acquire_iteration_budget (rate_limiter w) (clock w) n Ht Hc Hn)
    as (Ht1 & Hr1 & Hc1 & Hb1).
  rewrite acquire_loop_S.
  destruct (snd (acquire_iteration (rate_limiter w) (clock w) n)) as [| wt | e];
    cbn [fst snd after_iteration rate_limiter]; try exact Hb1.
  specialize (IH (after_sleep wt (after_iteration w n))).
  cbn [after_sleep after_iteration advance emit rate_limiter] in IH.
  rewrite Hc1 in IH. specialize (IH Ht1 Hc Hn).
  cbn [after_sleep after_iteration advance emit rate_limiter clock calls draws trace]
    in *.
  lra.
Qed.

(** A call of [acquire(n)] that returns lowers the budget by at least [n];
    a call that raises or is still pending does not raise it. *)
Lemma acquire_budget (fuel : nat) (n : Z) (w : World) :
  tokens_ok (rate_limiter w) -> 0 <= capacity (rate_limiter w) < float_int_bound ->
  0 <= n ->
  (budget (rate_limiter (snd (acquire fuel n w)))
   + match fst (acquire fuel n w) with
     | Return _ => inject_Z n
     | _ => 0
     end
   <= budget (rate_limiter w))%Q.
Proof.
  intros Ht Hc Hn. rewrite acquire_unfold.
  pose proof (acquire_loop_budget fuel n (emit EvLock w) Ht Hc Hn) as H.
  destruct (acquire_loop fuel n (emit EvLock w)) as [[a | e |] w1]; exact H.
Qed.

Lemma session_granted_world (fuel : nat) (ops : list (Q * Z)) (w : World) :
  snd (session_granted fuel ops w) = bucket_session fuel ops w.
Proof.
  revert w. induction ops as [| [idle n] ops IH]; intros w; [reflexivity |].
  cbn [session_granted bucket_session]. rewrite <- IH.
  destruct (session_granted fuel ops _). reflexivity.
Qed.

Lemma session_granted_budget (fuel : nat) (ops : list (Q * Z)) (w : World) :
  world_inv w -> Forall op_ok ops ->
  rate (rate_limiter (snd (session_granted fuel ops w))) = rate (rate_limiter w) /\
  (budget (rate_limiter (snd (session_granted fuel ops w)))
   + inject_Z (fst (session_granted fuel ops w))
   <= budget (rate_limiter w))%Q.
Proof.
  revert w. induction ops as [| [idle n] ops IH]; intros w Hw Hops.
  - cbn [session_granted fst snd]. change (inject_Z 0) with 0%Q.
    split; [reflexivity | lra].
  - inversion Hops as [| op ops' (Hidle & Hn) Hrest]; subst. cbn in Hidle, Hn.
    cbn [session_granted].
    set (w0 := advance idle w).
    assert (Hw0 : world_inv w0).
    { destruct Hw as (Hb & Hclk). split; cbn; [exact Hb | lra]. }
    pose proof (acquire_inv fuel n w0 Hw0 Hn) as Hw1.
    destruct Hw0 as ((_ & Hc & Ht & _) & _).
    pose proof (acquire_budget fuel n w0 Ht Hc Hn) as Hb1.
    destruct (acquire_frame fuel n w0) as (_ & _ & Hr1 & _).
    destruct (IH (snd (acquire fuel n w0)) Hw1 Hrest) as (Hr2 & Hb2).
    destruct (session_granted fuel ops (snd (acquire fuel n w0))) as [g w'].
    cbn [fst snd] in *. split; [rewrite Hr2, Hr1; reflexivity |].
    rewrite inject_Z_plus.
    change (rate_limiter w0) with (rate_limiter w) in Hb1.
    destruct (fst (acquire fuel n w0)); try change (inject_Z 0) with 0%Q; lra.
Qed.

(** X12 ([TokenBucket.acquire], a bucket with a rate [>= 0]).  The rate
    limit itself: over any run of [acquire] calls and idle times, the tokens
    granted are paid for by the level at the start and by the refill, so
    they are at most [capacity + rate * elapsed], a burst of the capacity
    and the rate thereafter. *)
Theorem granted_tokens_bounded_by_refill :
  forall (fuel : nat) (ops : list (Q * Z)) (w : World),
    world_inv w -> Forall op_ok ops ->
    let granted := fst (session_granted fuel ops w) in
    let w' := snd (session_granted fuel ops w) in
    let b := rate_limiter w in
    let b' := rate_limiter w' in
    world_inv w' /\
    (inject_Z granted
       <= num_val (tokens b) - num_val (tokens b')
          + rate b * (last_update b' - last_update b))%Q /\
    (inject_Z granted
       <= inject_Z (capacity b) + rate b * (clock w' - last_update b))%Q.
Proof.
  intros fuel ops w Hw Hops granted w' b b'.
  assert (Hw' : world_inv w').
  { subst w'. rewrite session_granted_world. apply bucket_session_inv; assumption. }
  destruct (session_granted_budget fuel ops w Hw Hops) as (Hr & Hb).
  fold w' granted in Hr, Hb. fold b b' in Hr, Hb.
  unfold budget in Hb. rewrite Hr in Hb.
  split; [exact Hw' |].
  assert (H1 : (inject_Z granted
                <= num_val (tokens b) - num_val (tokens b')
                   + rate b * (last_update b' - last_update b))%Q) by lra.
  split; [exact H1 |].
  destruct Hw as ((Hr0 & _ & _ & Hv) & _).
  destruct Hw' as ((_ & _ & _ & Hv') & Hclk').
  fold b in Hr0, Hv. fold b' in Hv', Hclk'.
  assert (Hmono : (rate b * last_update b' <= rate b * clock w')%Q) by nra.
  lra.
Qed.

Lemma acquire_within_level (n : Z) (w : World) :
  world_inv w -> 0 <= n -> (inject_Z n <= num_val (tokens (rate_limiter w)))%Q ->
  exists w1 : World,
    acquire 1 n w = (Return tt, w1) /\
    trace w1 = EvUnlock :: EvLock :: trace w /\
    world_inv w1 /\
    (num_val (tokens (rate_limiter w)) - inject_Z n
       <= num_val (tokens (rate_limiter w1)))%Q.
Proof.
  intros Hw Hn Hle.
  pose proof (acquire_inv 1 n w Hw Hn) as Hw1.
  destruct Hw as (Hb & Hclk).
  destruct (refilled_bounds _ _ Hb Hclk) as (B1 & _).
  destruct Hb as (_ & Hc & Ht & _).
  assert (Hle' : (inject_Z n
                  <= refilled (rate_limiter (emit EvLock w)) (clock (emit EvLock w)))%Q)
    by (cbn; lra).
  destruct (acquire_loop_immediate 0 n (emit EvLock w) Ht Hc Hn Hle')
    as (rem & E & Hv & _).
  rewrite acquire_unfold in *. rewrite E in *.
  eexists. split; [reflexivity |]. split; [reflexivity |].
  split; [exact Hw1 |]. cbn in *. lra.
Qed.

(** X13 ([TokenBucket.acquire]).  A burst within the current level is
    served without any wait: when the counts of a run of [acquire] calls
    add up to at most the tokens the bucket holds, every call returns in its
    first pass, so all the tokens asked for are granted and the only events
    are the taking and the release of the lock, once per call. *)
Theorem burst_within_level_is_served_at_once :
  forall (ops : list (Q * Z)) (w : World),
    world_inv w -> Forall op_ok ops ->
    (inject_Z (fold_right Z.add 0%Z (map snd ops))
       <= num_val (tokens (rate_limiter w)))%Q ->
    fst (session_granted 1 ops w) = fold_right Z.add 0 (map snd ops) /\
    trace (snd (session_granted 1 ops w))
      = flat_map (fun _ => [EvUnlock; EvLock]) (rev ops) ++ trace w.
Proof.
  intros ops. induction ops as [| [idle n] ops IH]; intros w Hw Hops Hsum.
  - cbn. split; reflexivity.
  - inversion Hops as [| op ops' (Hidle & Hn) Hrest]; subst. cbn in Hidle, Hn.
    cbn [map snd fold_right] in Hsum |- *. rewrite inject_Z_plus in Hsum.
    assert (Hpos : 0 <= fold_right Z.add 0 (map snd ops)).
    { clear - Hrest. induction Hrest as [| [i m] l (_ & Hm) _ IHl]; cbn in *; lia. }
    assert (Hpos' : (0 <= inject_Z (fold_right Z.add 0%Z (map snd ops)))%Q)
      by (apply (inject_Z_le 0); exact Hpos).
    set (w0 := advance idle w).
    assert (Hw0 : world_inv w0).
    { destruct Hw as (Hb & Hclk). split; cbn; [exact Hb | lra]. }
    assert (Hle : (inject_Z n <= num_val (tokens (rate_limiter w0)))%Q) by (cbn; lra).
    destruct (acquire_within_level n w0 Hw0 Hn Hle) as (w1 & E & Etr & Hw1 & Hlev).
    cbn [session_granted]. fold w0. rewrite E. cbn [fst snd].
    assert (Hsum1 : (inject_Z (fold_right Z.add 0%Z (map snd ops))
                     <= num_val (tokens (rate_limiter w1)))%Q)
      by (cbn in Hlev; lra).
    destruct (IH w1 Hw1 Hrest Hsum1) as (I1 & I2).
    destruct (session_granted 1 ops w1) as [g w']. cbn [fst snd] in *.
    split; [rewrite I1; reflexivity |].
    rewrite I2, Etr. cbn [rev]. rewrite flat_map_app. cbn.
    rewrite <- app_assoc. reflexivity.
Qed.

(* ===================================================================== *)
(** * [_request]: every call is paid with a token *)
(* ===================================================================== *)

Lemma sleep_clock (delay : pyfloat) (w : World) :
  (clock w <= clock (snd (then_next (asyncio_sleep delay w))))%Q.
Proof.
  destruct delay as [d | [|] |]; cbn; try lra.
  destruct (Qle_bool d 0) eqn:E; [lra |].
  assert (0 < d)%Q; [| lra].
  destruct (Qlt_le_dec 0 d) as [L | L]; [exact L |].
  apply Qle_bool_iff in L. congruence.
Qed.

Lemma backoff_clock (env : Env) (attempt : Z) (w : World) :
  (clock w <= clock (snd (then_next (backoff env attempt w))))%Q.
Proof.
  rewrite backoff_unfold.
  destruct (float_of_int (2 ^ attempt)) as [scaled | e]; cbn [then_next snd]; [| lra].
  cbv zeta.
  exact (sleep_clock (Finite _) (drawn w)).
Qed.

(** With calls that take no negative time, the clock does not go back in an
    attempt. *)
Lemma attempt_after_acquire_clock (env : Env) (req : Request)
  (max_retries attempt : Z) (w : World) :
  (0 <= latency env (calls w))%Q ->
  (clock w <= clock (snd (attempt_after_acquire env req max_retries attempt w)))%Q.
Proof.
  intros Hlat.
  assert (C : (clock w <= clock (called env req w))%Q) by (cbn; lra).
  pose proof (backoff_clock env attempt (called env req w)) as B.
  destruct (transport env (calls w) req) as [response | |] eqn:E.
  - rewrite (attempt_after_response env req max_retries attempt w response E).
    destruct (status_code response =? 429).
    { destruct (float_of_str _) as [d | e]; [| exact C].
      pose proof (sleep_clock d (called env req w)). lra. }
    destruct ((200 <=? status_code response) && (status_code response <=? 299)).
    { destruct (json response); exact C. }
    destruct ((400 <=? status_code response) && (status_code response <? 500));
      [exact C |].
    destruct (attempt =? max_retries - 1); [exact C | lra].
  - rewrite (attempt_after_timeout env req max_retries attempt w E).
    destruct (attempt =? max_retries - 1); [exact C | lra].
  - rewrite (attempt_after_failure env req max_retries attempt w E). exact C.
Qed.

Lemma attempt_body_budget (env : Env) (fuel : nat) (req : Request)
  (max_retries attempt : Z) (w : World) :
  world_inv w -> (forall i : nat, (0 <= latency env i)%Q) ->
  world_inv (snd (attempt_body env fuel req max_retries attempt w)) /\
  rate (rate_limiter (snd (attempt_body env fuel req max_retries attempt w)))
    = rate (rate_limiter w) /\
  (budget (rate_limiter (snd (attempt_body env fuel req max_retries attempt w)))
   + inject_Z (Z.of_nat (calls (snd (attempt_body env fuel req max_retries attempt w))))
   <= budget (rate_limiter w) + inject_Z (Z.of_nat (calls w)))%Q.
Proof.
  intros Hw Hlat.
  pose proof (acquire_inv fuel 1 w Hw ltac:(lia)) as Hw1.
  destruct Hw as ((_ & Hc & Ht & _) & _).
  pose proof (acquire_budget fuel 1 w Ht Hc ltac:(lia)) as Hb1.
  destruct (acquire_frame fuel 1 w) as (C1 & _ & R1 & _).
  rewrite attempt_body_unfold.
  destruct (acquire fuel 1 w) as [[[] | e |] w1]; cbn [fst snd] in *.
  - destruct (attempt_after_acquire_frame env req max_retries attempt w1) as (C2 & L2).
    pose proof (attempt_after_acquire_clock env req max_retries attempt w1
                  (Hlat (calls w1))) as K2.
    set (w2 := snd (attempt_after_acquire env req max_retries attempt w1)) in *.
    split; [| split].
    + destruct Hw1 as (Hb & Hclk). split; rewrite L2; [exact Hb | lra].
    + rewrite L2. exact R1.
    + rewrite L2, C2, C1, Nat2Z.inj_succ. unfold Z.succ. rewrite inject_Z_plus.
      change (inject_Z 1) with 1%Q in *. lra.
  - split; [exact Hw1 |]. split; [exact R1 |]. rewrite C1. lra.
  - split; [exact Hw1 |]. split; [exact R1 |]. rewrite C1. lra.
Qed.

Lemma request_loop_budget (env : Env) (fuel : nat) (req : Request)
  (max_retries : Z) (attempts : list Z) (w : World) :
  world_inv w -> (forall i : nat, (0 <= latency env i)%Q) ->
  world_inv (snd (request_loop env fuel req max_retries attempts w)) /\
  rate (rate_limiter (snd (request_loop env fuel req max_retries attempts w)))
    = rate (rate_limiter w) /\
  (budget (rate_limiter (snd (request_loop env fuel req max_retries attempts w)))
   + inject_Z (Z.of_nat (calls (snd (request_loop env fuel req max_retries attempts w))))
   <= budget (rate_limiter w) + inject_Z (Z.of_nat (calls w)))%Q.
Proof.
  intros Hw Hlat. revert w Hw.
  induction attempts as [| attempt rest IH]; intros w Hw.
  - cbn. split; [exact Hw |]. split; [reflexivity | lra].
  - rewrite request_loop_cons.
    destruct (attempt_body_budget env fuel req max_retries attempt w Hw Hlat)
      as (Hw1 & R1 & B1).
    destruct (attempt_body env fuel req max_retries attempt w)
      as [[[data |] | e |] w1]; cbn [fst snd] in *; auto.
    destruct (IH w1 Hw1) as (Hw2 & R2 & B2).
    split; [exact Hw2 |]. split; [congruence | lra].
Qed.

(** X8 ([DonetickClient._request] with [TokenBucket.acquire]).  Every
    HTTP call of a request is paid with one token of the rate limiter: the
    calls made are at most the fall of the level plus the refill over the
    time between the refills, hence at most [capacity + rate * elapsed],
    whatever the transport answers.  The limiter's invariant holds again at
    the end, so the bound adds up over successive requests. *)
Theorem calls_are_paid_with_tokens :
  forall (env : Env) (fuel : nat) (self : DonetickClient) (method path : string)
         (max_retries : Z) (kwargs : list (string * Json)) (w : World),
    world_inv w -> (forall i : nat, (0 <= latency env i)%Q) ->
    let w' := snd (_request env fuel self method path max_retries kwargs w) in
    let b := rate_limiter w in
    let b' := rate_limiter w' in
    world_inv w' /\
    (inject_Z (Z.of_nat (calls w' - calls w))
       <= num_val (tokens b) - num_val (tokens b')
          + rate b * (last_update b' - last_update b))%Q /\
    (inject_Z (Z.of_nat (calls w' - calls w))
       <= inject_Z (capacity b) + rate b * (clock w' - last_update b))%Q.
Proof.
  intros env fuel self method path max_retries kwargs w Hw Hlat w' b b'.
  subst w'. unfold _request in *.
  set (req := mkRequest method (base_url self ++ path) kwargs) in *.
  destruct (request_loop_budget env fuel req max_retries (range max_retries) w Hw Hlat)
    as (Hw' & Hr & Hb).
  pose proof (request_loop_ceiling env fuel req max_retries (range max_retries) w)
    as (Hmono & _).
  set (w' := snd (request_loop env fuel req max_retries (range max_retries) w)) in *.
  fold b in Hr, Hb.
  assert (Hcount : (inject_Z (Z.of_nat (calls w' - calls w))
                    == inject_Z (Z.of_nat (calls w')) - inject_Z (Z.of_nat (calls w)))%Q).
  { rewrite Nat2Z.inj_sub by exact Hmono. apply inject_Z_sub. }
  unfold budget in Hb. fold b' in Hb, Hr. rewrite Hr in Hb.
  split; [exact Hw' |].
  assert (H1 : (inject_Z (Z.of_nat (calls w' - calls w))
                <= num_val (tokens b) - num_val (tokens b')
                   + rate b * (last_update b' - last_update b))%Q)
    by (rewrite Hcount; lra).
  split; [exact H1 |].
  destruct Hw as ((Hr0 & _ & _ & Hv) & _).
  destruct Hw' as ((_ & _ & _ & Hv') & Hclk').
  fold b in Hr0, Hv. fold b' in Hv', Hclk'.
  assert (Hmul : (rate b * last_update b' <= rate b * clock w')%Q) by nra.
  lra.
Qed.

(* ===================================================================== *)
(** * [list_chores]: the filters and the validation *)
(* ===================================================================== *)

Lemma filter_filter {A : Type} (f g : A -> bool) (l : list A) :
  filter g (filter f l) = filter (fun x => f x && g x) l.
Proof.
  induction l as [| x l IH]; [reflexivity |].
  cbn. destruct (f x); cbn; [destruct (g x) |]; rewrite IH; reflexivity.
Qed.

Lemma filter_all {A : Type} (l : list A) : filter (fun _ => true) l = l.
Proof. induction l as [| x l IH]; [reflexivity | cbn; rewrite IH; reflexivity]. Qed.

(** [list_chores] is the request for the whole list, the validation of
    every item, and the filters. *)
Lemma list_chores_unfold (env : Env) (validate : list (string * Json) -> option Chore)
  (fuel : nat) (self : DonetickClient) (filter_active : option bool)
  (assigned_to_user_id : option Z) (w : World) :
  list_chores env validate fuel self filter_active assigned_to_user_id w =
    match _request env fuel self "GET" "/eapi/v1/chore" 3 [] w with
    | (Return data, w1) =>
        match chores_of_data validate data with
        | Ok chores => (Return (filter (keeps filter_active assigned_to_user_id) chores), w1)
        | Err e => (Raise e, w1)
        end
    | (Raise e, w1) => (Raise e, w1)
    | (Pending, w1) => (Pending, w1)
    end.
Proof.
  unfold list_chores, bind, lift, ret.
  destruct (_request env fuel self "GET" "/eapi/v1/chore" 3 [] w)
    as [[data | e |] w1]; try reflexivity.
  destruct (chores_of_data validate data) as [chores | e]; [| reflexivity].
  cbn. f_equal. f_equal. unfold keeps.
  destruct filter_active as [wanted |], assigned_to_user_id as [user |].
  - apply filter_filter.
  - apply filter_ext. intros c. rewrite andb_true_r. reflexivity.
  - reflexivity.
  - symmetry. apply filter_all.
Qed.

(** X14 ([DonetickClient.list_chores]).  The filters are applied on the
    client: whatever [filter_active] and [assigned_to_user_id] are, the
    call makes the same request for the whole list and leaves the same
    state as the unfiltered call, it fails exactly when the unfiltered call
    fails, and its result is the unfiltered result restricted to the chores
    that pass both tests, in the order of the response. *)
Theorem list_chores_filters_the_full_listing :
  forall (env : Env) (validate : list (string * Json) -> option Chore) (fuel : nat)
         (self : DonetickClient) (filter_active : option bool)
         (assigned_to_user_id : option Z) (w : World),
    let unfiltered := list_chores env validate fuel self None None w in
    let run := list_chores env validate fuel self filter_active assigned_to_user_id w in
    snd run = snd unfiltered /\
    snd run = snd (_request env fuel self "GET" "/eapi/v1/chore" 3 [] w) /\
    fst run = match fst unfiltered with
              | Return chores =>
                  Return (filter (keeps filter_active assigned_to_user_id) chores)
              | Raise e => Raise e
              | Pending => Pending
              end.
Proof.
  intros env validate fuel self filter_active assigned_to_user_id w unfiltered run.
  subst unfiltered run. rewrite !list_chores_unfold.
  destruct (_request env fuel self "GET" "/eapi/v1/chore" 3 [] w)
    as [[data | e |] w1]; cbn; auto.
  destruct (chores_of_data validate data) as [chores | e]; cbn; auto.
  repeat split. unfold keeps at 2. cbn. rewrite filter_all. reflexivity.
Qed.

Lemma build_chores_invalid (validate : list (string * Json) -> option Chore)
  (items : list Json) :
  Exists (fun item => match item with
                      | JDict fields => validate fields = None
                      | _ => True
                      end) items ->
  exists e : Exc, (e = TypeError \/ e = ValidationError) /\
                  build_chores validate items = Err e.
Proof.
  induction items as [| item rest IH]; intros H; [inversion H |].
  assert (Hrest : Exists (fun item => match item with
                                      | JDict fields => validate fields = None
                                      | _ => True
                                      end) rest ->
                  forall c : Chore,
                  exists e : Exc, (e = TypeError \/ e = ValidationError) /\
                    rbind (build_chores validate rest) (fun cs => Ok (c :: cs)) = Err e).
  { intros Hr c. destruct (IH Hr) as (e & He & ->). exists e. auto. }
  destruct item as [| b | z | q | s | l | fields];
    try (exists TypeError; split; [left; reflexivity | reflexivity]).
  cbn [build_chores].
  destruct (validate fields) as [c |] eqn:V.
  - inversion H as [? ? H0 | ? ? H0]; subst; [congruence |].
    exact (Hrest H0 c).
  - exists ValidationError. auto.
Qed.

Lemma build_chores_valid (validate : list (string * Json) -> option Chore)
  (items : list Json) (chores : list Chore) :
  Forall2 (fun item c => exists fields, item = JDict fields /\ validate fields = Some c)
          items chores ->
  build_chores validate items = Ok chores.
Proof.
  intros H. induction H as [| item c items chores (fields & -> & V) _ IH];
    [reflexivity |].
  cbn [build_chores]. rewrite V, IH. reflexivity.
Qed.

(** X15 ([DonetickClient.list_chores]).  The validation is all or
    nothing, and it comes before the filters: when the response is a list
    with one item that is not an object, or not a valid chore, the call
    raises ([TypeError], or pydantic's [ValidationError]) whatever the
    filters are, even if they would have dropped that item; a response that
    is a non-empty object raises [TypeError]; and when every item is valid
    the filtered list of their chores is returned. *)
Theorem list_chores_validates_every_item :
  forall (env : Env) (validate : list (string * Json) -> option Chore) (fuel : nat)
         (self : DonetickClient) (filter_active : option bool)
         (assigned_to_user_id : option Z) (w w1 : World) (data : Json),
    _request env fuel self "GET" "/eapi/v1/chore" 3 [] w = (Return data, w1) ->
    let run := list_chores env validate fuel self filter_active assigned_to_user_id w in
    (forall items : list Json,
       data = JList items ->
       Exists (fun item => match item with
                           | JDict fields => validate fields = None
                           | _ => True
                           end) items ->
       exists e : Exc, (e = TypeError \/ e = ValidationError) /\ run = (Raise e, w1)) /\
    (forall (field : string * Json) (fields : list (string * Json)),
       data = JDict (field :: fields) -> run = (Raise TypeError, w1)) /\
    (forall (items : list Json) (chores : list Chore),
       data = JList items ->
       Forall2 (fun item c => exists fields, item = JDict fields /\ validate fields = Some c)
               items chores ->
       run = (Return (filter (keeps filter_active assigned_to_user_id) chores), w1)).
Proof.
  intros env validate fuel self filter_active assigned_to_user_id w w1 data Hreq run.
  subst run. rewrite list_chores_unfold, Hreq.
  split; [| split].
  - intros items -> Hbad. cbn [chores_of_data].
    destruct (build_chores_invalid validate items Hbad) as (e & He & ->).
    exists e. auto.
  - intros field fields ->. reflexivity.
  - intros items chores -> Hall. cbn [chores_of_data].
    rewrite (build_chores_valid validate items chores Hall). reflexivity.
Qed.

(* ===================================================================== *)
(** * The operations built on [_request] *)
(* ===================================================================== *)

(** The HTTP calls of one logical request: all of them are the request's
    call, and there are at most [max_retries] of them. *)
Lemma request_traffic (env : Env) (fuel : nat) (self : DonetickClient)
  (method path : string) (max_retries : Z) (kwargs : list (string * Json)) (w : World) :
  Forall (fun r => r = mkRequest method (base_url self ++ path) kwargs)
         (requests_of
            (events_since w (snd (_request env fuel self method path max_retries kwargs w))))
  /\
  (calls (snd (_request env fuel self method path max_retries kwargs w))
     <= calls w + Z.to_nat max_retries)%nat.
Proof.
  unfold _request.
  set (req := mkRequest method (base_url self ++ path) kwargs).
  split.
  - destruct (request_loop_extends env fuel req max_retries (range max_retries) w)
      as (new & Etr & Hreq).
    rewrite (events_since_app w _ new Etr), requests_of_rev.
    apply Forall_rev. exact Hreq.
  - pose proof (request_loop_ceiling env fuel req max_retries (range max_retries) w) as H.
    unfold range in H at 3. rewrite length_map, length_seq in H. lia.
Qed.

Lemma events_since_same (w : World) : events_since w w = [].
Proof. unfold events_since. rewrite Nat.sub_diag. reflexivity. Qed.

(** An attempt whose call is answered with a success status. *)
Lemma attempt_after_success (env : Env) (req : Request)
  (max_retries attempt : Z) (w : World) (response : Response) :
  transport env (calls w) req = HttpResponse response ->
  200 <= status_code response <= 299 ->
  attempt_after_acquire env req max_retries attempt w =
    match json response with
    | Some data => (Return (Done data), called env req w)
    | None => (Raise JSONDecodeError, called env req w)
    end.
Proof.
  intros T Hs.
  rewrite (attempt_after_response env req max_retries attempt w response T).
  assert (E1 : (status_code response =? 429) = false) by (apply Z.eqb_neq; lia).
  assert (E2 : ((200 <=? status_code response) && (status_code response <=? 299))
               = true).
  { apply andb_true_iff. split; apply Z.leb_le; lia. }
  rewrite E1, E2. reflexivity.
Qed.

(** A timeout answered by a retry that succeeds. *)
Lemma request_timeout_then_success (env : Env) (fuel : nat) (self : DonetickClient)
  (method path : string) (max_retries : Z) (kwargs : list (string * Json)) (w : World)
  (ok : Response) (data : Json) :
  let req := mkRequest method (base_url self ++ path) kwargs in
  limiter_ready (rate_limiter w) -> (2 <= fuel)%nat -> 2 <= max_retries ->
  transport env (calls w) req = HttpTimeout ->
  transport env (S (calls w)) req = HttpResponse ok ->
  200 <= status_code ok <= 299 -> json ok = Some data ->
  exists (w1 w2 : World) (wait_time : Q),
    acquire fuel 1 w = (Return tt, w1) /\
    (wait_time == (3 # 4) + (1 # 2) * random_random env (draws w))%Q /\
    acquire fuel 1 (after_sleep wait_time (drawn (called env req w1))) = (Return tt, w2) /\
    _request env fuel self method path max_retries kwargs w
      = (Return data, called env req w2) /\
    calls (called env req w2) = (calls w + 2)%nat.
Proof.
  intros req Hready Hfuel HN T1 T2 S200 J.
  unfold _request, range. fold req.
  destruct (Z.to_nat max_retries) as [| [| m]] eqn:EN; try lia.
  cbn [seq map]. rewrite request_loop_cons.
  destruct (acquire_one_ready fuel w Hready Hfuel) as (w1 & sl & E & R1 & C1 & D1 & _).
  rewrite attempt_body_unfold, E. rewrite <- C1 in T1.
  rewrite (attempt_after_timeout env req _ _ w1 T1).
  assert (Elast : (Z.of_nat 0 =? max_retries - 1) = false) by (apply Z.eqb_neq; lia).
  rewrite Elast.
  destruct (backoff_ok env (Z.of_nat 0) (called env req w1) ltac:(lia))
    as (wt & -> & Hwt).
  cbn [then_next].
  set (w1' := after_sleep wt (drawn (called env req w1))).
  assert (R1' : limiter_ready (rate_limiter w1')) by exact R1.
  assert (C1' : calls w1' = S (calls w)) by (cbn; lia).
  rewrite request_loop_cons.
  destruct (acquire_one_ready fuel w1' R1' Hfuel) as (w2 & sl2 & E2 & R2 & C2 & _).
  rewrite attempt_body_unfold, E2.
  assert (T2' : transport env (calls w2) req = HttpResponse ok)
    by (rewrite C2, C1'; exact T2).
  rewrite (attempt_after_success env req _ _ w2 ok T2' S200), J.
  exists w1, w2, wt. split; [reflexivity |]. split; [| split; [exact E2 |]].
  - rewrite Hwt. unfold backoff_delay, base_delay, jitter_factor.
    cbn [called draws Z.of_nat Z.pow]. rewrite D1.
    change (inject_Z (2 ^ 0)) with 1%Q.
    setoid_replace (Qmin (1 * 1) 60) with 1%Q by (apply Q.min_l; lra).
    ring.
  - split; [reflexivity | cbn; lia].
Qed.

(** X5 ([DonetickClient._request]).  A timeout followed by a success:
    the request is sent a second time after a backoff of
    [0.75 + random.random() / 2] seconds (the first delay, one second, with
    its jitter), exactly two calls are made and the parsed body of the
    second response is returned. *)
Theorem timeout_then_success_backs_off_once :
  forall (env : Env) (fuel : nat) (self : DonetickClient) (method path : string)
         (max_retries : Z) (kwargs : list (string * Json)) (w : World)
         (ok : Response) (data : Json),
    let req := mkRequest method (base_url self ++ path) kwargs in
    let run := _request env fuel self method path max_retries kwargs w in
    limiter_ready (rate_limiter w) -> (2 <= fuel)%nat -> 2 <= max_retries ->
    transport env (calls w) req = HttpTimeout ->
    transport env (S (calls w)) req = HttpResponse ok ->
    200 <= status_code ok <= 299 -> json ok = Some data ->
    fst run = Return data /\
    calls (snd run) = (calls w + 2)%nat /\
    exists (w1 w2 : World) (wait_time : Q),
      acquire fuel 1 w = (Return tt, w1) /\
      (wait_time == (3 # 4) + (1 # 2) * random_random env (draws w))%Q /\
      acquire fuel 1 (after_sleep wait_time (drawn (called env req w1))) = (Return tt, w2) /\
      snd run = called env req w2.
Proof.
  intros env fuel self method path max_retries kwargs w ok data req run
         Hready Hfuel HN T1 T2 S200 J.
  destruct (request_timeout_then_success env fuel self method path max_retries kwargs
              w ok data Hready Hfuel HN T1 T2 S200 J)
    as (w1 & w2 & wt & E1 & Hwt & E2 & Hrun & Hcalls).
  subst run. rewrite Hrun. cbn [fst snd].
  split; [reflexivity |]. split; [exact Hcalls |].
  exists w1, w2, wt. auto.
Qed.

Lemma create_chore_unfold (env : Env) (validate : list (string * Json) -> option Chore)
  (fuel : nat) (self : DonetickClient) (chore : ChoreCreate) (w : World) :
  create_chore env validate fuel self chore w =
    match _request env fuel self "POST" "/eapi/v1/chore" 3
                   [("json"%string, JDict (ChoreCreate_model_dump chore))] w with
    | (Return data, w1) =>
        match model_of_data validate data with
        | Ok created => (Return created, w1)
        | Err e => (Raise e, w1)
        end
    | (Raise e, w1) => (Raise e, w1)
    | (Pending, w1) => (Pending, w1)
    end.
Proof.
  unfold create_chore, bind, lift, ret, raise.
  destruct (_request _ _ _ _ _ _ _ w) as [[data | e |] w1]; try reflexivity.
  destruct (model_of_data validate data); reflexivity.
Qed.

(** X16 ([DonetickClient.create_chore], [models.ChoreCreate]).  Creating
    a chore is one logical request: every HTTP call is the [POST] of
    [/eapi/v1/chore] whose JSON body holds the name (of 1 to 200
    characters) and those of the description, the due date and the creator
    the [ChoreCreate] was built with, and at most three are made.  Since
    [_request] retries whatever the method is, a [POST] that timed out is
    sent again: when the retry succeeds the chore has been posted twice, and
    the chore of the second response is returned. *)
Theorem create_chore_posts_again_after_a_timeout :
  forall (env : Env) (validate : list (string * Json) -> option Chore) (fuel : nat)
         (self : DonetickClient) (name : string) (description due_date : option string)
         (created_by : option Z) (chore : ChoreCreate) (w : World),
    ChoreCreate_init name description due_date created_by = Ok chore ->
    let body := (("Name"%string, JStr name)
                 :: dump_field "Description" JStr description
                 ++ dump_field "DueDate" JStr due_date
                 ++ dump_field "CreatedBy" JInt created_by)%list in
    let req := mkRequest "POST" (base_url self ++ "/eapi/v1/chore")
                         [("json"%string, JDict body)] in
    let run := create_chore env validate fuel self chore w in
    (1 <= String.length name <= 200)%nat /\
    Forall (fun r => r = req) (requests_of (events_since w (snd run))) /\
    (calls (snd run) <= calls w + 3)%nat /\
    (forall (ok : Response) (fields : list (string * Json)) (created : Chore),
       limiter_ready (rate_limiter w) -> (2 <= fuel)%nat ->
       transport env (calls w) req = HttpTimeout ->
       transport env (S (calls w)) req = HttpResponse ok ->
       200 <= status_code ok <= 299 -> json ok = Some (JDict fields) ->
       validate fields = Some created ->
       fst run = Return created /\ calls (snd run) = (calls w + 2)%nat).
Proof.
  intros env validate fuel self name description due_date created_by chore w
         Hinit body req run.
  assert (Hchore : chore = mkChoreCreate name description due_date created_by /\
                   (1 <= String.length name <= 200)%nat).
  { unfold ChoreCreate_init in Hinit.
    destruct ((1 <=? String.length name)%nat && (String.length name <=? 200)%nat) eqn:E;
      [| discriminate].
    injection Hinit as <-. split; [reflexivity |].
    apply andb_true_iff in E as (E1 & E2).
    apply Nat.leb_le in E1. apply Nat.leb_le in E2. lia. }
  destruct Hchore as (-> & Hname).
  split; [exact Hname |].
  assert (Hrun : run
                 = match _request env fuel self "POST" "/eapi/v1/chore" 3
                                  [("json"%string, JDict body)] w with
                   | (Return data, w1) =>
                       match model_of_data validate data with
                       | Ok created => (Return created, w1)
                       | Err e => (Raise e, w1)
                       end
                   | (Raise e, w1) => (Raise e, w1)
                   | (Pending, w1) => (Pending, w1)
                   end).
  { subst run. rewrite create_chore_unfold. reflexivity. }
  assert (Hsnd : snd run
                 = snd (_request env fuel self "POST" "/eapi/v1/chore" 3
                          [("json"%string, JDict body)] w)).
  { rewrite Hrun.
    destruct (_request _ _ _ _ _ _ _ w) as [[data | e |] w1]; try reflexivity.
    destruct (model_of_data validate data); reflexivity. }
  destruct (request_traffic env fuel self "POST" "/eapi/v1/chore" 3
              [("json"%string, JDict body)] w) as (Hall & Hmax).
  rewrite Hsnd. split; [exact Hall |]. split; [exact Hmax |].
  intros ok fields created Hready Hfuel T1 T2 S200 J V.
  destruct (request_timeout_then_success env fuel self "POST" "/eapi/v1/chore" 3
              [("json"%string, JDict body)] w ok
              (JDict fields) Hready Hfuel ltac:(lia) T1 T2 S200 J)
    as (w1 & w2 & wt & _ & _ & _ & Hreq & Hcalls).
  rewrite <- Hsnd, Hrun, Hreq.
  cbn [model_of_data]. rewrite V. cbn [fst snd]. auto.
Qed.

(** A request that got a success status as the answer to its call
    number [i] ends there. *)
Lemma request_success_at (env : Env) (fuel : nat) (self : DonetickClient)
  (method path : string) (max_retries : Z) (kwargs : list (string * Json)) (w : World)
  (i : nat) (response : Response) :
  let run := _request env fuel self method path max_retries kwargs w in
  transport env i (mkRequest method (base_url self ++ path) kwargs)
    = HttpResponse response ->
  200 <= status_code response <= 299 ->
  (calls w <= i < calls (snd run))%nat ->
  fst run = match json response with
            | Some data => Return data
            | None => Raise JSONDecodeError
            end /\
  calls (snd run) = S i.
Proof.
  intros run Hresp Hstatus Hi. subst run. unfold _request in *.
  set (req := mkRequest method (base_url self ++ path) kwargs) in *.
  apply (request_loop_stops_at env fuel req max_retries _ w i
           (match json response with
            | Some data => Return (Done data)
            | None => Raise JSONDecodeError
            end)); [| destruct (json response); reflexivity | exact Hi].
  intros attempt w1 C1. rewrite <- C1 in Hresp.
  rewrite (attempt_after_success env req max_retries attempt w1 response Hresp Hstatus).
  destruct (json response); reflexivity.
Qed.

(** The decimal digits of a number never start with a minus sign. *)
Lemma string_of_uint_head (u : Decimal.uint) :
  exists (c : ascii) (rest : string),
    NilZero.string_of_uint u = String c rest /\ c <> "-"%char.
Proof.
  destruct u; cbn; eexists; eexists; (split; [reflexivity | discriminate]).
Qed.

Lemma to_int_abs (n : Z) :
  exists u : Decimal.uint, Z.to_int (Z.abs n) = Decimal.Pos u /\ u <> Decimal.Nil.
Proof.
  destruct n as [| p | p]; cbn; eexists; (split; [reflexivity |]);
    try discriminate; apply DecimalPos.Unsigned.to_uint_nonnil.
Qed.

(** [str] is injective on the integers: two ids with the same text are the
    same id. *)
Lemma py_str_int_inj (a b : Z) (s : string) :
  py_str_int a = Ok s -> py_str_int b = Ok s -> a = b.
Proof.
  unfold py_str_int.
  destruct (to_int_abs a) as (ua & Ea & Na), (to_int_abs b) as (ub & Eb & Nb).
  rewrite Ea, Eb. cbn [NilZero.string_of_int].
  destruct (_ <? String.length (NilZero.string_of_uint ua))%nat; [discriminate |].
  destruct (_ <? String.length (NilZero.string_of_uint ub))%nat; [discriminate |].
  assert (Habs : NilZero.string_of_uint ua = NilZero.string_of_uint ub -> Z.abs a = Z.abs b).
  { intros E. apply DecimalZ.to_int_inj. rewrite Ea, Eb. f_equal.
    pose proof (NilZero.usu ua Na) as U1. pose proof (NilZero.usu ub Nb) as U2.
    rewrite E in U1. congruence. }
  destruct (string_of_uint_head ua) as (ca & ra & Sa & Ca).
  destruct (string_of_uint_head ub) as (cb & rb & Sb & Cb).
  destruct (Z.ltb_spec a 0), (Z.ltb_spec b 0); intros Ha Hb;
    injection Ha as Ha; injection Hb as Hb; subst s.
  - injection Hb as Hb. specialize (Habs (eq_sym Hb)). lia.
  - rewrite Sb in Hb. injection Hb as Hb _. congruence.
  - rewrite Sa in Hb. injection Hb as Hb _. congruence.
  - specialize (Habs (eq_sym Hb)). lia.
Qed.

Lemma string_app_inv_head (p a b : string) : (p ++ a = p ++ b)%string -> a = b.
Proof.
  induction p as [| c p IH]; cbn; [auto |].
  intros H. injection H as H. auto.
Qed.

Lemma string_app_inv_tail (a b t : string) : (a ++ t = b ++ t)%string -> a = b.
Proof.
  intros H.
  assert (L : forall x y : string,
            String.length (x ++ y) = (String.length x + String.length y)%nat).
  { intros x y. induction x as [| c x IHx]; cbn; [reflexivity | rewrite IHx; reflexivity]. }
  assert (Hlen : String.length a = String.length b).
  { pose proof (f_equal String.length H) as E. rewrite !L in E. lia. }
  clear L. revert b H Hlen.
  induction a as [| c a IH]; intros [| d b] H Hlen; cbn in *; try discriminate;
    [reflexivity |].
  injection H as -> H. f_equal. apply IH; [exact H | lia].
Qed.

(** X21 ([DonetickClient.update_chore], [delete_chore],
    [complete_chore]).  The URL path names the chore: the paths that two
    calls build for different ids are different, for the update and
    the deletion ([/eapi/v1/chore/{chore_id}]) and for the completion
    ([/eapi/v1/chore/{chore_id}/complete]). *)
Theorem chore_paths_tell_the_ids_apart :
  forall (a b : Z) (text_a text_b : string),
    py_str_int a = Ok text_a -> py_str_int b = Ok text_b -> a <> b ->
    ("/eapi/v1/chore/" ++ text_a <> "/eapi/v1/chore/" ++ text_b)%string /\
    ("/eapi/v1/chore/" ++ text_a ++ "/complete"
       <> "/eapi/v1/chore/" ++ text_b ++ "/complete")%string.
Proof.
  intros a b ta tb Ha Hb Hne. split; intros E; apply Hne.
  - apply string_app_inv_head in E. subst tb. exact (py_str_int_inj a b ta Ha Hb).
  - apply string_app_inv_head in E. apply string_app_inv_tail in E. subst tb.
    exact (py_str_int_inj a b ta Ha Hb).
Qed.

Lemma update_chore_unfold (env : Env) (validate : list (string * Json) -> option Chore)
  (fuel : nat) (self : DonetickClient) (chore_id : Z) (update : ChoreUpdate.t)
  (w : World) :
  update_chore env validate fuel self chore_id update w =
    match py_str_int chore_id with
    | Err e => (Raise e, w)
    | Ok id_text =>
        match _request env fuel self "PUT" ("/eapi/v1/chore/" ++ id_text) 3
                       [("json"%string, JDict (ChoreUpdate_model_dump update))] w with
        | (Return data, w1) =>
            match model_of_data validate data with
            | Ok updated => (Return updated, w1)
            | Err e => (Raise e, w1)
            end
        | (Raise e, w1) => (Raise e, w1)
        | (Pending, w1) => (Pending, w1)
        end
    end.
Proof.
  unfold update_chore, bind, lift, ret, raise.
  destruct (py_str_int chore_id) as [id_text | e]; [| reflexivity].
  destruct (_request _ _ _ _ _ _ _ w) as [[data | e |] w1]; try reflexivity.
  destruct (model_of_data validate data); reflexivity.
Qed.

(** X17 ([DonetickClient.update_chore], [models.ChoreUpdate]).  An update
    is one logical request: every HTTP call is the [PUT] of
    [/eapi/v1/chore/{chore_id}] whose JSON body holds exactly the fields
    the [ChoreUpdate] was built with, in the order of the model, and no
    field that was left out; at most three calls are made.  A name that is
    sent has between 1 and 200 characters.  An update built with no field
    at all is valid, and is sent with an empty object as its body. *)
Theorem update_chore_puts_the_given_fields :
  forall (env : Env) (validate : list (string * Json) -> option Chore) (fuel : nat)
         (self : DonetickClient) (chore_id : Z) (id_text : string)
         (name description next_due_date : option string) (update : ChoreUpdate.t)
         (w : World),
    ChoreUpdate_init name description next_due_date = Ok update ->
    py_str_int chore_id = Ok id_text ->
    let body := (dump_field "name" JStr name
                 ++ dump_field "description" JStr description
                 ++ dump_field "nextDueDate" JStr next_due_date)%list in
    let req := mkRequest "PUT" (base_url self ++ "/eapi/v1/chore/" ++ id_text)
                         [("json"%string, JDict body)] in
    let run := update_chore env validate fuel self chore_id update w in
    Forall (fun r => r = req) (requests_of (events_since w (snd run))) /\
    (calls (snd run) <= calls w + 3)%nat /\
    (forall s : string,
       In ("name"%string, JStr s) body -> (1 <= String.length s <= 200)%nat) /\
    (name = None -> description = None -> next_due_date = None -> body = []).
Proof.
  intros env validate fuel self chore_id id_text name description next_due_date update w
         Hinit Hid body req run.
  assert (Hupd : update = ChoreUpdate.mk name description next_due_date /\
                 forall s, name = Some s -> (1 <= String.length s <= 200)%nat).
  { unfold ChoreUpdate_init in Hinit. destruct name as [s |].
    - destruct ((1 <=? String.length s)%nat && (String.length s <=? 200)%nat) eqn:E;
        [| discriminate].
      injection Hinit as <-. split; [reflexivity |].
      intros s' Hs. injection Hs as <-.
      apply andb_true_iff in E as (E1 & E2).
      apply Nat.leb_le in E1. apply Nat.leb_le in E2. lia.
    - injection Hinit as <-. split; [reflexivity | discriminate]. }
  destruct Hupd as (-> & Hname).
  assert (Hsnd : snd run
                 = snd (_request env fuel self "PUT" ("/eapi/v1/chore/" ++ id_text) 3
                          [("json"%string, JDict body)] w)).
  { subst run. rewrite update_chore_unfold, Hid.
    change (ChoreUpdate_model_dump (ChoreUpdate.mk name description next_due_date))
      with body.
    destruct (_request _ _ _ _ _ _ _ w) as [[data | e |] w1]; try reflexivity.
    destruct (model_of_data validate data); reflexivity. }
  destruct (request_traffic env fuel self "PUT" ("/eapi/v1/chore/" ++ id_text) 3
              [("json"%string, JDict body)] w) as (Hall & Hmax).
  rewrite Hsnd. split; [exact Hall |]. split; [exact Hmax |]. split.
  - intros s Hin. apply Hname. subst body.
    destruct name as [n |], description as [d |], next_due_date as [t |];
      cbn in Hin; repeat (destruct Hin as [Hin | Hin]; try discriminate);
      try contradiction; congruence.
  - intros -> -> ->. reflexivity.
Qed.

Lemma delete_chore_unfold (env : Env) (fuel : nat) (self : DonetickClient)
  (chore_id : Z) (w : World) :
  delete_chore env fuel self chore_id w =
    match py_str_int chore_id with
    | Err e => (Raise e, w)
    | Ok id_text =>
        match _request env fuel self "DELETE" ("/eapi/v1/chore/" ++ id_text) 3 [] w with
        | (Return _, w1) => (Return true, w1)
        | (Raise e, w1) => (Raise e, w1)
        | (Pending, w1) => (Pending, w1)
        end
    end.
Proof.
  unfold delete_chore, bind, lift, ret, raise.
  destruct (py_str_int chore_id) as [id_text | e]; [| reflexivity].
  destruct (_request _ _ _ _ _ _ _ w) as [[data | e |] w1]; reflexivity.
Qed.

(** X18 ([DonetickClient.delete_chore]).  A deletion is one logical
    request, the [DELETE] of [/eapi/v1/chore/{chore_id}] without a body or
    parameters.  Its result is never [False]: it returns [True] or raises.
    The success response has to carry a JSON body, although the body is not
    used: when the server answers the deletion with a success status and a
    body that is not JSON (an empty one, say), the call raises
    [JSONDecodeError] after the chore was deleted, and the request is not
    repeated. *)
Theorem delete_chore_needs_a_json_body :
  forall (env : Env) (fuel : nat) (self : DonetickClient) (chore_id : Z)
         (id_text : string) (w : World),
    py_str_int chore_id = Ok id_text ->
    let req := mkRequest "DELETE" (base_url self ++ "/eapi/v1/chore/" ++ id_text) [] in
    let run := delete_chore env fuel self chore_id w in
    Forall (fun r => r = req) (requests_of (events_since w (snd run))) /\
    (calls (snd run) <= calls w + 3)%nat /\
    (forall b : bool, fst run = Return b -> b = true) /\
    (forall (i : nat) (response : Response),
       transport env i req = HttpResponse response ->
       200 <= status_code response <= 299 ->
       (calls w <= i < calls (snd run))%nat ->
       calls (snd run) = S i /\
       fst run = match json response with
                 | Some _ => Return true
                 | None => Raise JSONDecodeError
                 end).
Proof.
  intros env fuel self chore_id id_text w Hid req run.
  assert (Hrun : run
                 = match _request env fuel self "DELETE" ("/eapi/v1/chore/" ++ id_text)
                                  3 [] w with
                   | (Return _, w1) => (Return true, w1)
                   | (Raise e, w1) => (Raise e, w1)
                   | (Pending, w1) => (Pending, w1)
                   end).
  { subst run. rewrite delete_chore_unfold, Hid. reflexivity. }
  assert (Hsnd : snd run
                 = snd (_request env fuel self "DELETE" ("/eapi/v1/chore/" ++ id_text)
                          3 [] w)).
  { rewrite Hrun. destruct (_request _ _ _ _ _ _ _ w) as [[data | e |] w1]; reflexivity. }
  destruct (request_traffic env fuel self "DELETE" ("/eapi/v1/chore/" ++ id_text) 3 [] w)
    as (Hall & Hmax).
  rewrite Hsnd. split; [exact Hall |]. split; [exact Hmax |]. split.
  - rewrite Hrun. destruct (_request _ _ _ _ _ _ _ w) as [[data | e |] w1]; cbn;
      congruence.
  - intros i response T Hs Hi.
    destruct (request_success_at env fuel self "DELETE" ("/eapi/v1/chore/" ++ id_text)
                3 [] w i response T Hs Hi) as (Hfst & Hcalls).
    split; [exact Hcalls |]. rewrite Hrun.
    destruct (_request _ _ _ _ _ _ _ w) as [[data | e |] w1]; cbn [fst] in *;
      destruct (json response); congruence.
Qed.

Lemma complete_chore_unfold (env : Env) (validate : list (string * Json) -> option Chore)
  (fuel : nat) (self : DonetickClient) (chore_id : Z) (completed_by : option Z)
  (w : World) :
  complete_chore env validate fuel self chore_id completed_by w =
    match py_str_int chore_id with
    | Err e => (Raise e, w)
    | Ok id_text =>
        match _request env fuel self "POST"
                       ("/eapi/v1/chore/" ++ id_text ++ "/complete") 3
                       [("params"%string,
                         JDict (dump_field "completedBy" JInt completed_by))] w with
        | (Return data, w1) =>
            match model_of_data validate data with
            | Ok completed => (Return completed, w1)
            | Err e => (Raise e, w1)
            end
        | (Raise e, w1) => (Raise e, w1)
        | (Pending, w1) => (Pending, w1)
        end
    end.
Proof.
  unfold complete_chore, bind, lift, ret, raise.
  destruct (py_str_int chore_id) as [id_text | e]; [| reflexivity].
  destruct (_request _ _ _ _ _ _ _ w) as [[data | e |] w1]; try reflexivity.
  destruct (model_of_data validate data); reflexivity.
Qed.

(** X19 ([DonetickClient.complete_chore]).  A completion is one logical
    request, the [POST] of [/eapi/v1/chore/{chore_id}/complete] without a
    body.  The query parameters hold [completedBy] exactly when
    [completed_by] is given (a user id of zero included) and are empty
    otherwise.  The success response has to be a JSON object that is a
    valid chore: that chore is returned, anything else raises [TypeError]
    or [ValidationError] after the chore was completed. *)
Theorem complete_chore_sends_completed_by_when_given :
  forall (env : Env) (validate : list (string * Json) -> option Chore) (fuel : nat)
         (self : DonetickClient) (chore_id : Z) (id_text : string)
         (completed_by : option Z) (w : World),
    py_str_int chore_id = Ok id_text ->
    let params := match completed_by with
                  | Some user => [("completedBy"%string, JInt user)]
                  | None => []
                  end in
    let req := mkRequest "POST"
                         (base_url self ++ "/eapi/v1/chore/" ++ id_text ++ "/complete")
                         [("params"%string, JDict params)] in
    let run := complete_chore env validate fuel self chore_id completed_by w in
    Forall (fun r => r = req) (requests_of (events_since w (snd run))) /\
    (calls (snd run) <= calls w + 3)%nat /\
    (forall (i : nat) (response : Response) (data : Json),
       transport env i req = HttpResponse response ->
       200 <= status_code response <= 299 -> json response = Some data ->
       (calls w <= i < calls (snd run))%nat ->
       calls (snd run) = S i /\
       fst run = match data with
                 | JDict fields =>
                     match validate fields with
                     | Some completed => Return completed
                     | None => Raise ValidationError
                     end
                 | _ => Raise TypeError
                 end).
Proof.
  intros env validate fuel self chore_id id_text completed_by w Hid params req run.
  assert (Hparams : dump_field "completedBy" JInt completed_by = params)
    by (destruct completed_by; reflexivity).
  set (path := ("/eapi/v1/chore/" ++ id_text ++ "/complete")%string).
  assert (Hrun : run
                 = match _request env fuel self "POST" path 3
                                  [("params"%string, JDict params)] w with
                   | (Return data, w1) =>
                       match model_of_data validate data with
                       | Ok completed => (Return completed, w1)
                       | Err e => (Raise e, w1)
                       end
                   | (Raise e, w1) => (Raise e, w1)
                   | (Pending, w1) => (Pending, w1)
                   end).
  { subst run. rewrite complete_chore_unfold, Hid, Hparams. reflexivity. }
  assert (Hsnd : snd run
                 = snd (_request env fuel self "POST" path 3
                          [("params"%string, JDict params)] w)).
  { rewrite Hrun. destruct (_request _ _ _ _ _ _ _ w) as [[data | e |] w1];
      try reflexivity.
    destruct (model_of_data validate data); reflexivity. }
  destruct (request_traffic env fuel self "POST" path 3
              [("params"%string, JDict params)] w) as (Hall & Hmax).
  rewrite Hsnd. split; [exact Hall |]. split; [exact Hmax |].
  intros i response data T Hs J Hi.
  destruct (request_success_at env fuel self "POST" path 3
              [("params"%string, JDict params)] w i response T Hs Hi)
    as (Hfst & Hcalls).
  split; [exact Hcalls |]. rewrite Hrun. rewrite J in Hfst.
  destruct (_request _ _ _ _ _ _ _ w) as [[data' | e |] w1]; cbn [fst] in *;
    try discriminate.
  injection Hfst as ->. unfold model_of_data.
  destruct data as [| b | z | q | s | l | fields]; try reflexivity.
  destruct (validate fields); reflexivity.
Qed.

Lemma build_members_invalid (validate : list (string * Json) -> option CircleMember)
  (items : list Json) :
  Exists (fun item => match item with
                      | JDict fields => validate fields = None
                      | _ => True
                      end) items ->
  exists e : Exc, (e = TypeError \/ e = ValidationError) /\
                  build_members validate items = Err e.
Proof.
  induction items as [| item rest IH]; intros H; [inversion H |].
  assert (Hrest : Exists (fun item => match item with
                                      | JDict fields => validate fields = None
                                      | _ => True
                                      end) rest ->
                  forall m : CircleMember,
                  exists e : Exc, (e = TypeError \/ e = ValidationError) /\
                    rbind (build_members validate rest) (fun ms => Ok (m :: ms)) = Err e).
  { intros Hr m. destruct (IH Hr) as (e & He & ->). exists e. auto. }
  destruct item as [| b | z | q | s | l | fields];
    try (exists TypeError; split; [left; reflexivity | reflexivity]).
  cbn [build_members].
  destruct (validate fields) as [m |] eqn:V.
  - inversion H as [? ? H0 | ? ? H0]; subst; [congruence |].
    exact (Hrest H0 m).
  - exists ValidationError. auto.
Qed.

Lemma build_members_valid (validate : list (string * Json) -> option CircleMember)
  (items : list Json) (members : list CircleMember) :
  Forall2 (fun item m => exists fields, item = JDict fields /\ validate fields = Some m)
          items members ->
  build_members validate items = Ok members.
Proof.
  intros H. induction H as [| item m items members (fields & -> & V) _ IH];
    [reflexivity |].
  cbn [build_members]. rewrite V, IH. reflexivity.
Qed.

(** X20 ([DonetickClient.get_circle_members]).  The members are fetched
    with one logical request, the [GET] of [/eapi/v1/circle/members], of at
    most three calls.  When the response is a list of objects that are all
    valid members, they are returned in the order of the response; one item
    that is not an object or not a valid member makes the whole call raise
    ([TypeError], [ValidationError]): no partial list is returned. *)
Theorem get_circle_members_returns_all_or_nothing :
  forall (env : Env) (validate : list (string * Json) -> option CircleMember)
         (fuel : nat) (self : DonetickClient) (w : World),
    let req := mkRequest "GET" (base_url self ++ "/eapi/v1/circle/members") [] in
    let run := get_circle_members env validate fuel self w in
    Forall (fun r => r = req) (requests_of (events_since w (snd run))) /\
    (calls (snd run) <= calls w + 3)%nat /\
    (forall (items : list Json) (w1 : World),
       _request env fuel self "GET" "/eapi/v1/circle/members" 3 [] w
         = (Return (JList items), w1) ->
       (forall members : list CircleMember,
          Forall2 (fun item m =>
                     exists fields, item = JDict fields /\ validate fields = Some m)
                  items members ->
          run = (Return members, w1)) /\
       (Exists (fun item => match item with
                            | JDict fields => validate fields = None
                            | _ => True
                            end) items ->
        exists e : Exc, (e = TypeError \/ e = ValidationError) /\ run = (Raise e, w1))).
Proof.
  intros env validate fuel self w req run.
  assert (Hrun : run
                 = match _request env fuel self "GET" "/eapi/v1/circle/members" 3 [] w with
                   | (Return data, w1) =>
                       match members_of_data validate data with
                       | Ok members => (Return members, w1)
                       | Err e => (Raise e, w1)
                       end
                   | (Raise e, w1) => (Raise e, w1)
                   | (Pending, w1) => (Pending, w1)
                   end).
  { subst run. unfold get_circle_members, bind, lift, ret, raise.
    destruct (_request _ _ _ _ _ _ _ w) as [[data | e |] w1]; try reflexivity.
    destruct (members_of_data validate data); reflexivity. }
  assert (Hsnd : snd run
                 = snd (_request env fuel self "GET" "/eapi/v1/circle/members" 3 [] w)).
  { rewrite Hrun. destruct (_request _ _ _ _ _ _ _ w) as [[data | e |] w1];
      try reflexivity.
    destruct (members_of_data validate data); reflexivity. }
  destruct (request_traffic env fuel self "GET" "/eapi/v1/circle/members" 3 [] w)
    as (Hall & Hmax).
  rewrite Hsnd. split; [exact Hall |]. split; [exact Hmax |].
  intros items w1 Hreq. rewrite Hrun, Hreq. cbn [members_of_data]. split.
  - intros members Hvalid.
    rewrite (build_members_valid validate items members Hvalid). reflexivity.
  - intros Hbad.
    destruct (build_members_invalid validate items Hbad) as (e & He & ->).
    exists e. auto.
Qed.

(* ===================================================================== *)
(** * Construction: [DonetickClient.__init__] *)
(* ===================================================================== *)

Lemma lstrip_slash_cons (c : ascii) (l : list ascii) :
  lstrip_slash (c :: l) = if (c =? "/")%char then lstrip_slash l else c :: l.
Proof.
  destruct c as [[] [] [] [] [] [] [] []]; reflexivity.
Qed.

Lemma lstrip_slash_spec (l : list ascii) :
  (exists k : nat, l = repeat "/"%char k ++ lstrip_slash l) /\
  (forall rest : list ascii, lstrip_slash l <> "/"%char :: rest).
Proof.
  induction l as [| c l (IH1 & IH2)].
  - split; [exists 0%nat; reflexivity | discriminate].
  - rewrite lstrip_slash_cons. destruct (Ascii.eqb_spec c "/") as [-> | Hne].
    + split; [| exact IH2].
      destruct IH1 as (k & E). exists (S k). cbn. rewrite <- E. reflexivity.
    + split; [exists 0%nat; reflexivity |].
      intros rest E. injection E as E _. contradiction.
Qed.

Lemma rev_repeat {A : Type} (x : A) (k : nat) : rev (repeat x k) = repeat x k.
Proof.
  induction k as [| k IH]; [reflexivity |].
  cbn. rewrite IH. symmetry. apply repeat_cons.
Qed.

Lemma string_of_list_ascii_app (a b : list ascii) :
  string_of_list_ascii (a ++ b)
    = (string_of_list_ascii a ++ string_of_list_ascii b)%string.
Proof. induction a as [| c a IH]; cbn; [reflexivity | rewrite IH; reflexivity]. Qed.

Lemma list_ascii_of_string_app (a b : string) :
  list_ascii_of_string (a ++ b) = list_ascii_of_string a ++ list_ascii_of_string b.
Proof. induction a as [| c a IH]; cbn; [reflexivity | rewrite IH; reflexivity]. Qed.

(** [rstrip("/")] removes the slashes at the end, all of them and nothing
    else. *)
Lemma rstrip_slash_spec (s : string) :
  (exists k : nat,
     s = (rstrip_slash s ++ string_of_list_ascii (repeat "/"%char k))%string) /\
  (forall t : string, rstrip_slash s <> (t ++ "/")%string).
Proof.
  unfold rstrip_slash.
  destruct (lstrip_slash_spec (rev (list_ascii_of_string s))) as ((k & E) & N).
  set (m := lstrip_slash (rev (list_ascii_of_string s))) in *.
  split.
  - exists k. rewrite <- string_of_list_ascii_app.
    rewrite <- (rev_repeat "/"%char k), <- rev_app_distr, <- E, rev_involutive.
    symmetry. apply string_of_list_ascii_of_string.
  - intros t Ht.
    apply (f_equal list_ascii_of_string) in Ht.
    rewrite list_ascii_of_string_of_list_ascii, list_ascii_of_string_app in Ht.
    apply (f_equal (@rev ascii)) in Ht.
    rewrite rev_involutive, rev_app_distr in Ht. cbn in Ht.
    exact (N _ Ht).
Qed.

(** X22 ([DonetickClient.__init__]).  The base URL a client keeps is the
    one given, or the configured one when none or an empty one is given,
    without its trailing slashes: all of them are removed and nothing else,
    so that the URL of a request, the base URL followed by the path, has no
    doubled slash at the joint. *)
Theorem new_client_base_url_has_no_trailing_slash :
  forall (config : Config) (base token : option string) (per_second : option pyfloat)
         (burst : option Z) (now : Q) (c : NewClient),
    DonetickClient_init config base token per_second burst now = Some (Ok c) ->
    let given := match base with
                 | Some s => if (s =? "")%string then donetick_base_url config else s
                 | None => donetick_base_url config
                 end in
    (exists k : nat,
       given = (base_url (new_client c) ++ string_of_list_ascii (repeat "/"%char k))%string)
    /\
    (forall t : string, base_url (new_client c) <> (t ++ "/")%string) /\
    (forall (env : Env) (fuel : nat) (method path : string) (w : World),
       Forall (fun r => url r = (base_url (new_client c) ++ path)%string)
              (requests_of
                 (events_since w (snd (_request env fuel (new_client c) method path 3 [] w))))).
Proof.
  intros config base token per_second burst now c Hinit given.
  unfold DonetickClient_init in Hinit.
  destruct (or_float per_second (rate_limit_per_second config)) as [r | |];
    try discriminate.
  destruct (TokenBucket_init r _ now) as [bucket | e]; cbn in Hinit; [| discriminate].
  injection Hinit as <-. cbn [new_client base_url].
  change (or_str base (donetick_base_url config)) with given.
  destruct (rstrip_slash_spec given) as (H1 & H2).
  split; [exact H1 |]. split; [exact H2 |].
  intros env fuel method path w.
  destruct (request_traffic env fuel (mkDonetickClient (rstrip_slash given))
              method path 3 [] w) as (Hall & _).
  eapply Forall_impl; [| exact Hall]. intros req ->. reflexivity.
Qed.

(** X23 ([DonetickClient.__init__], [TokenBucket.__init__]).  The rate
    limiter of a new client starts full: it holds [float(capacity)] tokens,
    refilled from the time of the construction on.  The rate and the
    capacity are the arguments, or the configured values when an argument is
    absent or zero.  With a rate [>= 0] and a capacity [>= 0] the bucket
    satisfies the invariant of the token count; a capacity too large for a
    [float] makes the construction raise [OverflowError]. *)
Theorem new_client_starts_with_a_full_bucket :
  forall (config : Config) (base token : option string) (per_second : option pyfloat)
         (burst : option Z) (now r : Q),
    or_float per_second (rate_limit_per_second config) = Finite r ->
    let cap := match burst with
               | Some n => if n =? 0 then rate_limit_burst config else n
               | None => rate_limit_burst config
               end in
    (Z.abs cap < float_int_bound ->
     exists c : NewClient,
       DonetickClient_init config base token per_second burst now = Some (Ok c) /\
       new_rate_limiter c = mkTokenBucket r cap (PyFloat (inject_Z cap)) now /\
       ((0 <= r)%Q -> 0 <= cap ->
        world_inv (mkWorld now (new_rate_limiter c) 0 0 []) /\
        (refilled (new_rate_limiter c) now == inject_Z cap)%Q)) /\
    (float_int_bound <= Z.abs cap ->
     DonetickClient_init config base token per_second burst now
       = Some (Err OverflowError)).
Proof.
  intros config base token per_second burst now r Hrate cap.
  unfold DonetickClient_init. rewrite Hrate.
  change (or_int burst (rate_limit_burst config)) with cap.
  unfold TokenBucket_init. split; intros Hcap.
  - rewrite (float_of_int_ok cap Hcap). cbn [rbind].
    eexists. split; [reflexivity |]. cbn [new_rate_limiter]. split; [reflexivity |].
    intros Hr Hc.
    assert (Hq : (0 <= inject_Z cap)%Q) by (apply (inject_Z_le 0); exact Hc).
    split.
    + unfold world_inv, bucket_inv, tokens_ok. cbn.
      repeat split; try lia; try lra.
    + unfold refilled. cbn [capacity tokens last_update rate num_val].
      setoid_replace (inject_Z cap + (now - now) * r)%Q with (inject_Z cap) by ring.
      apply Q.min_l. lra.
  - rewrite (float_of_int_overflow cap Hcap). reflexivity.
Qed.

(* ===================================================================== *)
(** * Configuration: [Config.__init__] *)
(* ===================================================================== *)

Lemma missing_false (value : option string) :
  missing value = false <-> exists s : string, value = Some s /\ s <> ""%string.
Proof.
  unfold missing. destruct value as [s |].
  - destruct (String.eqb_spec s "") as [-> | Hne]; split.
    + discriminate.
    + intros (s' & E & Hs). injection E as <-. contradiction.
    + intros _. exists s. auto.
    + reflexivity.
  - split; [discriminate | intros (s & E & _); discriminate].
Qed.

Lemma float_of_str_error (s : string) (e : Exc) :
  float_of_str s = Err e -> e = ValueError s.
Proof. unfold float_of_str. destruct (parse_float _); congruence. Qed.

Lemma int_of_str_error (s : string) (e : Exc) :
  int_of_str s = Err e -> exists msg : string, e = ValueError msg.
Proof.
  unfold int_of_str. destruct (take_sign _) as [neg body].
  destruct (drop_underscores None body) as [[| d ds] |];
    try (intros H; injection H as <-; eexists; reflexivity).
  destruct (forallb is_digit (d :: ds));
    [destruct (_ <? _)%nat |]; intros H; try discriminate;
    injection H as <-; eexists; reflexivity.
Qed.

(** X24 ([Config.__init__], [Config._validate]).  A configuration exists
    only with a base URL and a token: construction succeeds exactly when
    [DONETICK_BASE_URL] and [DONETICK_API_TOKEN] are set and not empty and
    the two rate-limit values (or their defaults) read as a [float] and an
    [int]; every failure is a [ValueError].  The configured URL is the
    variable without its trailing slashes, the token is the variable as it
    is, and the rate and the burst are the numbers read, whatever they
    are: they are not validated. *)
Theorem Config_init_requires_url_and_token :
  forall environ : string -> option string,
    let per_second := float_of_str (os_getenv environ "RATE_LIMIT_PER_SECOND" "10.0") in
    let burst := int_of_str (os_getenv environ "RATE_LIMIT_BURST" "10") in
    (forall c : Config,
       Config_init environ = Ok c <->
       exists (u t : string),
         environ "DONETICK_BASE_URL"%string = Some u /\ u <> ""%string /\
         environ "DONETICK_API_TOKEN"%string = Some t /\ t <> ""%string /\
         per_second = Ok (rate_limit_per_second c) /\
         burst = Ok (rate_limit_burst c) /\
         c = mkConfig (rstrip_slash u) t (os_getenv environ "LOG_LEVEL" "INFO")
                      (rate_limit_per_second c) (rate_limit_burst c)) /\
    (forall e : Exc, Config_init environ = Err e -> exists msg : string, e = ValueError msg).
Proof.
  intros environ per_second burst. unfold Config_init. fold per_second burst.
  split.
  - intros c. split.
    + destruct per_second as [r | e]; cbn [rbind]; [| discriminate].
      destruct burst as [b | e]; cbn [rbind]; [| discriminate].
      destruct (missing (environ "DONETICK_BASE_URL"%string)) eqn:M1; [discriminate |].
      destruct (missing (environ "DONETICK_API_TOKEN"%string)) eqn:M2; [discriminate |].
      apply missing_false in M1 as (u & Eu & Hu).
      apply missing_false in M2 as (t & Et & Ht).
      intros H. injection H as <-. exists u, t.
      assert (G1 : os_getenv environ "DONETICK_BASE_URL" "" = u)
        by (unfold os_getenv; rewrite Eu; reflexivity).
      assert (G2 : os_getenv environ "DONETICK_API_TOKEN" "" = t)
        by (unfold os_getenv; rewrite Et; reflexivity).
      rewrite G1, G2. cbn. auto 10.
    + intros (u & t & Eu & Hu & Et & Ht & Er & Eb & Ec).
      rewrite Er, Eb. cbn [rbind].
      assert (M1 : missing (environ "DONETICK_BASE_URL"%string) = false)
        by (apply missing_false; eauto).
      assert (M2 : missing (environ "DONETICK_API_TOKEN"%string) = false)
        by (apply missing_false; eauto).
      assert (G1 : os_getenv environ "DONETICK_BASE_URL" "" = u)
        by (unfold os_getenv; rewrite Eu; reflexivity).
      assert (G2 : os_getenv environ "DONETICK_API_TOKEN" "" = t)
        by (unfold os_getenv; rewrite Et; reflexivity).
      rewrite M1, M2, G1, G2. f_equal. symmetry. exact Ec.
  - intros e.
    destruct per_second as [r | e1] eqn:E1; cbn [rbind].
    + destruct burst as [b | e2] eqn:E2; cbn [rbind].
      * destruct (missing _); [intros H; injection H as <-; eexists; reflexivity |].
        destruct (missing _); [intros H; injection H as <-; eexists; reflexivity |].
        discriminate.
      * intros H. injection H as <-. exact (int_of_str_error _ _ E2).
    + intros H. injection H as <-. apply float_of_str_error in E1. eauto.
Qed.

(** X25 ([Config.__init__]).  The defaults: with the URL and the token
    set and none of [LOG_LEVEL], [RATE_LIMIT_PER_SECOND] and
    [RATE_LIMIT_BURST], the configuration has the level [INFO], ten
    requests per second and a burst of ten.  A variable that is set to the
    empty string is not defaulted: an empty [RATE_LIMIT_BURST] or
    [RATE_LIMIT_PER_SECOND] makes the construction raise [ValueError]. *)
Theorem Config_init_defaults :
  forall (environ : string -> option string) (u t : string),
    environ "DONETICK_BASE_URL"%string = Some u -> u <> ""%string ->
    environ "DONETICK_API_TOKEN"%string = Some t -> t <> ""%string ->
    (environ "LOG_LEVEL"%string = None ->
     environ "RATE_LIMIT_PER_SECOND"%string = None ->
     environ "RATE_LIMIT_BURST"%string = None ->
     exists c : Config,
       Config_init environ = Ok c /\ log_level c = "INFO"%string /\
       rate_limit_burst c = 10 /\
       exists r : Q, rate_limit_per_second c = Finite r /\ (r == 10)%Q) /\
    (environ "RATE_LIMIT_BURST"%string = Some ""%string \/
     environ "RATE_LIMIT_PER_SECOND"%string = Some ""%string ->
     exists msg : string, Config_init environ = Err (ValueError msg)).
Proof.
  intros environ u t Eu Hu Et Ht.
  assert (M1 : missing (environ "DONETICK_BASE_URL"%string) = false)
    by (apply missing_false; eauto).
  assert (M2 : missing (environ "DONETICK_API_TOKEN"%string) = false)
    by (apply missing_false; eauto).
  split.
  - intros E1 E2 E3. unfold Config_init, os_getenv. rewrite E1, E2, E3, M1, M2.
    eexists. split; [vm_compute; reflexivity |]. cbn.
    split; [reflexivity |]. split; [reflexivity |].
    eexists. split; [reflexivity | reflexivity].
  - intros [E | E]; unfold Config_init, os_getenv; rewrite E.
    + destruct (float_of_str _) as [r | e] eqn:F; cbn.
      * eexists. reflexivity.
      * apply float_of_str_error in F. subst e. eexists. reflexivity.
    + cbn. eexists. reflexivity.
Qed.

(** X26 ([Config._validate]).  The URL is checked before its trailing
    slashes are removed: a base URL made of slashes only passes the check
    and leaves a configuration whose base URL is empty. *)
Theorem Config_validation_precedes_the_stripping :
  forall (environ : string -> option string) (k : nat) (t : string),
    environ "DONETICK_BASE_URL"%string
      = Some (string_of_list_ascii (repeat "/"%char (S k))) ->
    environ "DONETICK_API_TOKEN"%string = Some t -> t <> ""%string ->
    forall (r : pyfloat) (b : Z),
      float_of_str (os_getenv environ "RATE_LIMIT_PER_SECOND" "10.0") = Ok r ->
      int_of_str (os_getenv environ "RATE_LIMIT_BURST" "10") = Ok b ->
      exists c : Config, Config_init environ = Ok c /\ donetick_base_url c = ""%string.
Proof.
  intros environ k t Eu Et Ht r b Er Eb.
  unfold Config_init. rewrite Er, Eb. cbn [rbind].
  assert (M2 : missing (environ "DONETICK_API_TOKEN"%string) = false)
    by (apply missing_false; eauto).
  rewrite Eu, M2. cbn [missing repeat string_of_list_ascii String.eqb].
  eexists. split; [reflexivity |]. cbn [donetick_base_url].
  unfold os_getenv. rewrite Eu. unfold rstrip_slash.
  rewrite list_ascii_of_string_of_list_ascii, rev_repeat.
  assert (L : forall n, lstrip_slash (repeat "/"%char n) = []).
  { induction n as [| n IH]; [reflexivity | exact IH]. }
  rewrite L. reflexivity.
Qed.

(** A 429 response whose [Retry-After] reads as a number: the attempt is
    the suspension for it. *)
Lemma attempt_after_rate_limit (env : Env) (req : Request)
  (max_retries attempt : Z) (w : World) (response : Response) (delay : pyfloat) :
  transport env (calls w) req = HttpResponse response ->
  status_code response = 429 ->
  float_of_str (headers_get (headers response) "Retry-After" "60") = Ok delay ->
  attempt_after_acquire env req max_retries attempt w
    = then_next (asyncio_sleep delay (called env req w)).
Proof.
  intros T S429 Hd.
  rewrite (attempt_after_response env req max_retries attempt w response T).
  rewrite S429, Hd. reflexivity.
Qed.

(** X7 ([DonetickClient._request]).  The delay a 429 response asks for
    is not checked.  A [Retry-After] that reads as an infinity ([inf], or a
    number too large for a [float]) suspends the request for ever: it never
    returns, never raises and makes no further call. *)
Theorem rate_limit_delay_is_not_checked :
  forall (env : Env) (fuel : nat) (self : DonetickClient) (method path : string)
         (max_retries : Z) (kwargs : list (string * Json)) (w : World)
         (i : nat) (response : Response),
    let req := mkRequest method (base_url self ++ path) kwargs in
    let run := _request env fuel self method path max_retries kwargs w in
    transport env i req = HttpResponse response ->
    status_code response = 429 ->
    (calls w <= i < calls (snd run))%nat ->
    float_of_str (headers_get (headers response) "Retry-After" "60")
      = Ok (Infinity false) ->
    fst run = Pending /\ calls (snd run) = S i.
Proof.
  intros env fuel self method path max_retries kwargs w i response req run T S429 Hi Hd.
  subst run. unfold _request in *. fold req in Hi |- *.
  apply (request_loop_stops_at env fuel req max_retries _ w i Pending);
    [| reflexivity | exact Hi].
  intros attempt w1 C1. rewrite <- C1 in T.
  rewrite (attempt_after_rate_limit env req max_retries attempt w1 response _ T S429 Hd).
  reflexivity.
Qed.

(* ===================================================================== *)
(** * Further concrete runs *)
(* ===================================================================== *)

Lemma full_bucket_inv : world_inv (world_of full_bucket).
Proof.
  unfold world_inv, bucket_inv, tokens_ok. cbn.
  repeat split; try lia; try lra; vm_compute; reflexivity || discriminate.
Qed.

(** A list answered with status 200 at the first call. *)
Lemma success_response_ends_the_request_witness :
  fst (_request (constant_env (HttpResponse (ok_response sample_listing))) 2
                sample_client "GET" "/eapi/v1/chore" 3 [] (world_of full_bucket))
    = Return sample_listing /\
  calls (snd (_request (constant_env (HttpResponse (ok_response sample_listing))) 2
                       sample_client "GET" "/eapi/v1/chore" 3 []
                       (world_of full_bucket))) = 1%nat.
Proof.
  apply (success_response_ends_the_request
           (constant_env (HttpResponse (ok_response sample_listing))) 2
           sample_client "GET" "/eapi/v1/chore" 3 [] (world_of full_bucket) 0
           (ok_response sample_listing)).
  - reflexivity.
  - cbn. lia.
  - vm_compute. lia.
Defined.

(** A connection error at the first call. *)
Lemma transport_failure_is_not_retried_witness :
  fst (_request (constant_env HttpFailure) 2 sample_client "GET" "/eapi/v1/chore" 3 []
                (world_of full_bucket)) = Raise TransportError /\
  calls (snd (_request (constant_env HttpFailure) 2 sample_client "GET"
                       "/eapi/v1/chore" 3 [] (world_of full_bucket))) = 1%nat.
Proof.
  apply (transport_failure_is_not_retried (constant_env HttpFailure) 2 sample_client
           "GET" "/eapi/v1/chore" 3 [] (world_of full_bucket) 0).
  - reflexivity.
  - vm_compute. lia.
Defined.

(** Three redirects in a row. *)
Lemma other_statuses_are_retried_witness :
  calls (snd (_request (constant_env (HttpResponse redirect)) 2 sample_client "GET"
                       "/eapi/v1/chore" 3 [] (world_of full_bucket))) = 3%nat /\
  fst (_request (constant_env (HttpResponse redirect)) 2 sample_client "GET"
                "/eapi/v1/chore" 3 [] (world_of full_bucket))
    = Raise (HTTPStatusError redirect).
Proof.
  destruct (other_statuses_are_retried (constant_env (HttpResponse redirect)) 2
              sample_client "GET" "/eapi/v1/chore" 3 [] (world_of full_bucket))
    as (Hc & response & T & Hr).
  - exact full_bucket_ready.
  - lia.
  - lia.
  - intros i. exists redirect. split; [reflexivity |]. cbn. lia.
  - cbn in T. injection T as <-. split; [exact Hc | exact Hr].
Defined.

(** A 429 with [Retry-After: 0.1], then the list. *)
Lemma rate_limited_then_success_witness :
  fst (_request (scripted_env [HttpResponse (too_many_requests "0.1");
                               HttpResponse (ok_response sample_listing)]) 2
                sample_client "GET" "/eapi/v1/chore" 3 [] (world_of full_bucket))
    = Return sample_listing /\
  calls (snd (_request (scripted_env [HttpResponse (too_many_requests "0.1");
                                      HttpResponse (ok_response sample_listing)]) 2
                       sample_client "GET" "/eapi/v1/chore" 3 []
                       (world_of full_bucket))) = 2%nat.
Proof.
  destruct (rate_limited_then_success
              (scripted_env [HttpResponse (too_many_requests "0.1");
                             HttpResponse (ok_response sample_listing)]) 2
              sample_client "GET" "/eapi/v1/chore" 3 [] (world_of full_bucket)
              (too_many_requests "0.1") (ok_response sample_listing) (1 # 10)
              sample_listing) as (H1 & H2 & _).
  - exact full_bucket_ready.
  - lia.
  - lia.
  - reflexivity.
  - reflexivity.
  - reflexivity.
  - reflexivity.
  - cbn. lia.
  - reflexivity.
  - split; [exact H1 | exact H2].
Defined.

(** One attempt, answered 429: the request waits before it gives up. *)
Lemma exhaustion_follows_the_last_wait_witness :
  exists w' : World,
    _request (constant_env (HttpResponse (too_many_requests "0.1"))) 2
             sample_client "GET" "/eapi/v1/chore" 1 [] (world_of full_bucket)
      = (Raise (RetriesExhausted 1), after_sleep (1 # 10) w').
Proof.
  destruct (exhaustion_follows_the_last_wait
              (constant_env (HttpResponse (too_many_requests "0.1"))) 2
              sample_client "GET" "/eapi/v1/chore" 1 [] (world_of full_bucket))
    as (response & delay & w' & T & Hd & Hrun).
  - exact full_bucket_ready.
  - lia.
  - lia.
  - intros i. exists (too_many_requests "0.1"), (1 # 10)%Q. repeat split.
  - cbn in T. injection T as <-.
    assert (Ed : delay = (1 # 10)%Q) by (vm_compute in Hd; congruence).
    subst delay. exists w'. exact Hrun.
Defined.

(** [Retry-After: inf]. *)
Lemma rate_limit_delay_is_not_checked_witness :
  fst (_request (constant_env (HttpResponse (too_many_requests "inf"))) 2
                sample_client "GET" "/eapi/v1/chore" 3 [] (world_of full_bucket))
    = Pending /\
  calls (snd (_request (constant_env (HttpResponse (too_many_requests "inf"))) 2
                       sample_client "GET" "/eapi/v1/chore" 3 []
                       (world_of full_bucket))) = 1%nat.
Proof.
  apply (rate_limit_delay_is_not_checked
              (constant_env (HttpResponse (too_many_requests "inf"))) 2
              sample_client "GET" "/eapi/v1/chore" 3 [] (world_of full_bucket) 0
              (too_many_requests "inf")).
  - reflexivity.
  - reflexivity.
  - vm_compute. lia.
  - reflexivity.
Defined.

(** A drained bucket that is never refilled. *)
Lemma acquire_with_zero_rate_raises_witness :
  fst (acquire 1 1 (world_of stalled_bucket)) = Raise ZeroDivisionError.
Proof.
  destruct (acquire_with_zero_rate_raises 0 1 (world_of stalled_bucket))
    as (available & E & _).
  - exact I.
  - cbn. split; [lia | vm_compute; reflexivity].
  - split; [lia | vm_compute; reflexivity].
  - reflexivity.
  - vm_compute. reflexivity.
  - rewrite E. reflexivity.
Defined.

(** A drained bucket with the rate [-1], observed for five passes. *)
Lemma acquire_with_negative_rate_never_ends_witness :
  fst (acquire 5 1 (world_of leaking_bucket)) = Pending.
Proof.
  destruct (acquire_with_negative_rate_never_ends 5 1 (world_of leaking_bucket))
    as (H & _).
  - exact I.
  - cbn. split; [lia | vm_compute; reflexivity].
  - split; [lia | vm_compute; reflexivity].
  - vm_compute. reflexivity.
  - vm_compute. reflexivity.
  - exact H.
Defined.

(** [acquire(-5)] on a full bucket of ten leaves fifteen tokens. *)
Lemma acquire_negative_count_adds_tokens_witness :
  exists remaining : pynum,
    acquire 1 (-5) (world_of full_bucket)
      = (Return tt, mkWorld 0 (mkTokenBucket 10 10 remaining 0) 0 0 [EvUnlock; EvLock]) /\
    (num_val remaining == 15)%Q.
Proof.
  destruct (acquire_negative_count_adds_tokens 0 (-5) (world_of full_bucket))
    as (remaining & E & Hv & _).
  - exact full_bucket_inv.
  - split; [vm_compute; reflexivity | lia].
  - exists remaining. split; [exact E |]. rewrite Hv. vm_compute. reflexivity.
Defined.

(** Two calls of [acquire(7)] half a second apart on a bucket of ten
    refilled at ten per second: at most fifteen tokens are granted. *)
Lemma granted_tokens_bounded_by_refill_witness :
  (inject_Z (fst (session_granted 3 [((1 # 2)%Q, 7%Z); (0%Q, 7%Z)] (world_of full_bucket)))
     <= 10 + 10 * (clock (snd (session_granted 3 [((1 # 2)%Q, 7%Z); (0%Q, 7%Z)]
                                                (world_of full_bucket))) - 0))%Q.
Proof.
  destruct (granted_tokens_bounded_by_refill 3 [((1 # 2)%Q, 7%Z); (0%Q, 7%Z)]
              (world_of full_bucket)) as (_ & _ & H).
  - exact full_bucket_inv.
  - repeat constructor; cbn; try lia; vm_compute; discriminate.
  - exact H.
Defined.

(** Four, three and three tokens from a full bucket of ten. *)
Lemma burst_within_level_is_served_at_once_witness :
  fst (session_granted 1 [(0%Q, 4%Z); (0%Q, 3%Z); (0%Q, 3%Z)] (world_of full_bucket)) = 10.
Proof.
  destruct (burst_within_level_is_served_at_once
              [(0%Q, 4%Z); (0%Q, 3%Z); (0%Q, 3%Z)] (world_of full_bucket)) as (H & _).
  - exact full_bucket_inv.
  - repeat constructor; cbn; try lia; vm_compute; discriminate.
  - vm_compute. discriminate.
  - exact H.
Defined.

(** Three timeouts cost at most the ten tokens of the bucket and the refill
    of the time they took. *)
Lemma calls_are_paid_with_tokens_witness :
  world_inv (snd (_request (constant_env HttpTimeout) 2 sample_client "GET"
                           "/eapi/v1/chore" 3 [] (world_of full_bucket))).
Proof.
  destruct (calls_are_paid_with_tokens (constant_env HttpTimeout) 2 sample_client "GET"
              "/eapi/v1/chore" 3 [] (world_of full_bucket)) as (H & _).
  - exact full_bucket_inv.
  - intros i. cbn. lra.
  - exact H.
Defined.

(** A list whose second item has no [id]. *)
Lemma list_chores_validates_every_item_witness :
  exists e : Exc,
    fst (list_chores
           (constant_env
              (HttpResponse
                 (ok_response (JList [JDict [("id"%string, JInt 1)]; JDict []]))))
           sample_validate 2 sample_client (Some true) None (world_of full_bucket))
      = Raise e.
Proof.
  set (env := constant_env
                (HttpResponse
                   (ok_response (JList [JDict [("id"%string, JInt 1)]; JDict []])))).
  destruct (list_chores_validates_every_item env sample_validate 2 sample_client
              (Some true) None (world_of full_bucket)
              (snd (_request env 2 sample_client "GET" "/eapi/v1/chore" 3 []
                             (world_of full_bucket)))
              (JList [JDict [("id"%string, JInt 1)]; JDict []]))
    as (H & _).
  - vm_compute. reflexivity.
  - destruct (H [JDict [("id"%string, JInt 1)]; JDict []] eq_refl) as (e & _ & E).
    + apply Exists_cons_tl. apply Exists_cons_hd. reflexivity.
    + exists e. rewrite E. reflexivity.
Defined.

(** A timeout, then the list. *)
Lemma timeout_then_success_backs_off_once_witness :
  fst (_request (scripted_env [HttpTimeout; HttpResponse (ok_response sample_listing)]) 2
                sample_client "GET" "/eapi/v1/chore" 3 [] (world_of full_bucket))
    = Return sample_listing /\
  calls (snd (_request (scripted_env [HttpTimeout;
                                      HttpResponse (ok_response sample_listing)]) 2
                       sample_client "GET" "/eapi/v1/chore" 3 []
                       (world_of full_bucket))) = 2%nat.
Proof.
  destruct (timeout_then_success_backs_off_once
              (scripted_env [HttpTimeout; HttpResponse (ok_response sample_listing)]) 2
              sample_client "GET" "/eapi/v1/chore" 3 [] (world_of full_bucket)
              (ok_response sample_listing) sample_listing) as (H1 & H2 & _).
  - exact full_bucket_ready.
  - lia.
  - lia.
  - reflexivity.
  - reflexivity.
  - cbn. lia.
  - reflexivity.
  - split; [exact H1 | exact H2].
Defined.

(** The chores 1 and 12. *)
Lemma chore_paths_tell_the_ids_apart_witness :
  ("/eapi/v1/chore/" ++ "1" <> "/eapi/v1/chore/" ++ "12")%string /\
  ("/eapi/v1/chore/" ++ "1" ++ "/complete"
     <> "/eapi/v1/chore/" ++ "12" ++ "/complete")%string.
Proof.
  apply (chore_paths_tell_the_ids_apart 1 12 "1" "12").
  - vm_compute. reflexivity.
  - vm_compute. reflexivity.
  - lia.
Defined.

(** An update of the name of chore 7, answered with the updated chore. *)
Lemma update_chore_puts_the_given_fields_witness :
  Forall (fun r => r = mkRequest "PUT" "https://test.donetick.com/eapi/v1/chore/7"
                                 [("json"%string,
                                   JDict [("name"%string, JStr "Water the plants")])])
         (requests_of
            (events_since (world_of full_bucket)
               (snd (update_chore
                       (constant_env (HttpResponse (ok_response sample_chore_json)))
                       sample_validate 2 sample_client 7
                       (ChoreUpdate.mk (Some "Water the plants"%string) None None)
                       (world_of full_bucket))))).
Proof.
  destruct (update_chore_puts_the_given_fields
              (constant_env (HttpResponse (ok_response sample_chore_json)))
              sample_validate 2 sample_client 7 "7"
              (Some "Water the plants"%string) None None
              (ChoreUpdate.mk (Some "Water the plants"%string) None None)
              (world_of full_bucket)) as (H & _).
  - reflexivity.
  - vm_compute. reflexivity.
  - exact H.
Defined.

(** A deletion answered 200 with an empty body. *)
Lemma delete_chore_needs_a_json_body_witness :
  fst (delete_chore (constant_env (HttpResponse (mkResponse 200 [] "" None))) 2
                    sample_client 7 (world_of full_bucket))
    = Raise JSONDecodeError /\
  calls (snd (delete_chore (constant_env (HttpResponse (mkResponse 200 [] "" None))) 2
                           sample_client 7 (world_of full_bucket))) = 1%nat.
Proof.
  destruct (delete_chore_needs_a_json_body
              (constant_env (HttpResponse (mkResponse 200 [] "" None))) 2
              sample_client 7 "7" (world_of full_bucket)) as (_ & _ & _ & H).
  - vm_compute. reflexivity.
  - destruct (H 0%nat (mkResponse 200 [] "" None)) as (Hc & Hr).
    + reflexivity.
    + cbn. lia.
    + vm_compute. lia.
    + split; [exact Hr | exact Hc].
Defined.

(** Chore 7 completed by user 3. *)
Lemma complete_chore_sends_completed_by_when_given_witness :
  Forall (fun r => r = mkRequest "POST"
                                 "https://test.donetick.com/eapi/v1/chore/7/complete"
                                 [("params"%string,
                                   JDict [("completedBy"%string, JInt 3)])])
         (requests_of
            (events_since (world_of full_bucket)
               (snd (complete_chore
                       (constant_env (HttpResponse (ok_response sample_chore_json)))
                       sample_validate 2 sample_client 7 (Some 3)
                       (world_of full_bucket))))).
Proof.
  destruct (complete_chore_sends_completed_by_when_given
              (constant_env (HttpResponse (ok_response sample_chore_json)))
              sample_validate 2 sample_client 7 "7" (Some 3) (world_of full_bucket))
    as (H & _).
  - vm_compute. reflexivity.
  - exact H.
Defined.

(** A client built for a URL with two slashes at its end. *)
Lemma new_client_base_url_has_no_trailing_slash_witness :
  match DonetickClient_init sample_config (Some "https://chores.example.org//"%string)
                            None None None 0 with
  | Some (Ok c) => forall t : string, base_url (new_client c) <> (t ++ "/")%string
  | _ => False
  end.
Proof.
  destruct (DonetickClient_init sample_config (Some "https://chores.example.org//"%string)
                                None None None 0) as [[c | e] |] eqn:E.
  - destruct (new_client_base_url_has_no_trailing_slash sample_config
                (Some "https://chores.example.org//"%string) None None None 0 c E)
      as (_ & H & _).
    exact H.
  - vm_compute in E. discriminate.
  - vm_compute in E. discriminate.
Defined.

(** The client of the sample configuration. *)
Lemma new_client_starts_with_a_full_bucket_witness :
  exists c : NewClient,
    DonetickClient_init sample_config None None None None 0 = Some (Ok c) /\
    new_rate_limiter c = mkTokenBucket 10 10 (PyFloat (inject_Z 10)) 0.
Proof.
  destruct (new_client_starts_with_a_full_bucket sample_config None None None None 0 10)
    as (H & _).
  - reflexivity.
  - destruct H as (c & E & Hb & _).
    + vm_compute. reflexivity.
    + exists c. split; [exact E | exact Hb].
Defined.

(** The URL and the token, and nothing else. *)
Lemma Config_init_defaults_witness :
  exists c : Config,
    Config_init sample_environ = Ok c /\ log_level c = "INFO"%string /\
    rate_limit_burst c = 10.
Proof.
  destruct (Config_init_defaults sample_environ "https://donetick.example.com/" "secret")
    as (H & _).
  - reflexivity.
  - discriminate.
  - reflexivity.
  - discriminate.
  - destruct H as (c & E & L & B & _); try reflexivity.
    exists c. auto.
Defined.

(** A base URL of two slashes. *)
Lemma Config_validation_precedes_the_stripping_witness :
  exists c : Config,
    Config_init (environ_of [("DONETICK_BASE_URL"%string, "//"%string);
                             ("DONETICK_API_TOKEN"%string, "secret"%string)]) = Ok c /\
    donetick_base_url c = ""%string.
Proof.
  apply (Config_validation_precedes_the_stripping
           (environ_of [("DONETICK_BASE_URL"%string, "//"%string);
                        ("DONETICK_API_TOKEN"%string, "secret"%string)])
           1 "secret" eq_refl eq_refl ltac:(discriminate) (Finite (100 # 10)) 10).
  - vm_compute. reflexivity.
  - vm_compute. reflexivity.
Defined.

(** A creation whose first [POST] timed out. *)
Lemma create_chore_posts_again_after_a_timeout_witness :
  fst (create_chore (scripted_env [HttpTimeout; HttpResponse (ok_response sample_chore_json)])
                    sample_validate 2 sample_client
                    (mkChoreCreate "Water the plants" None None (Some 1))
                    (world_of full_bucket))
    = Return (mkChore 7 "Test Chore" true 1 [("id"%string, JInt 7)]) /\
  calls (snd (create_chore
                (scripted_env [HttpTimeout; HttpResponse (ok_response sample_chore_json)])
                sample_validate 2 sample_client
                (mkChoreCreate "Water the plants" None None (Some 1))
                (world_of full_bucket))) = 2%nat.
Proof.
  destruct (create_chore_posts_again_after_a_timeout
              (scripted_env [HttpTimeout; HttpResponse (ok_response sample_chore_json)])
              sample_validate 2 sample_client
              "Water the plants" None None (Some 1)
              (mkChoreCreate "Water the plants" None None (Some 1))
              (world_of full_bucket)) as (_ & _ & _ & H).
  - reflexivity.
  - apply (H (ok_response sample_chore_json) [("id"%string, JInt 7)]).
    + exact full_bucket_ready.
    + lia.
    + reflexivity.
    + reflexivity.
    + cbn. lia.
    + reflexivity.
    + reflexivity.
Defined.

(** Two members, in the order of the response. *)
Lemma get_circle_members_returns_all_or_nothing_witness :
  fst (get_circle_members
         (constant_env
            (HttpResponse
               (ok_response (JList [JDict [("userId"%string, JInt 2)];
                                    JDict [("userId"%string, JInt 1)]]))))
         sample_validate_member 2 sample_client (world_of full_bucket))
    = Return [mkCircleMember 2 "Test User" "test@example.com" "member";
              mkCircleMember 1 "Test User" "test@example.com" "member"].
Proof.
  set (env := constant_env
                (HttpResponse
                   (ok_response (JList [JDict [("userId"%string, JInt 2)];
                                        JDict [("userId"%string, JInt 1)]])))).
  destruct (get_circle_members_returns_all_or_nothing env sample_validate_member 2
              sample_client (world_of full_bucket)) as (_ & _ & H).
  destruct (H [JDict [("userId"%string, JInt 2)]; JDict [("userId"%string, JInt 1)]]
              (snd (_request env 2 sample_client "GET" "/eapi/v1/circle/members" 3 []
                             (world_of full_bucket)))) as (Hok & _).
  - vm_compute. reflexivity.
  - rewrite (Hok [mkCircleMember 2 "Test User" "test@example.com" "member";
                  mkCircleMember 1 "Test User" "test@example.com" "member"]).
    + reflexivity.
    + repeat constructor; eexists; (split; [reflexivity | reflexivity]).
Defined.
